(** * Coverage-report ingestion of cover_agent: a shallow embedding

    The development follows [cover_agent/coverage_processor.py].  Python
    values are modelled as follows.

    - [str] is [string]; a character is a code point below 256.
    - [int] is [Z].
    - a [list] of ints is [list Z]; a [set] of ints is [gset Z], and
      [list(s)] is [elements s] (the order of the elements of a set is
      not specified by either side, so statements about such lists are
      made on their sets of elements or up to permutation).
    - a ratio computed by true division is the exact rational [Q] in
      lowest terms; the float of the program is its rounding.
    - a raised exception is the left summand of [result]; log records
      are threaded through the writer monad [M].
    - the file system, the XML and JSON readers and the current
      directory are the fields of a [World]. *)

From Stdlib Require Import Ascii String QArith.
From stdpp Require Import gmap strings list pretty.

Local Open Scope string_scope.
Local Open Scope Z_scope.

(** ** Python [str] methods *)

Module PyStr.

Fixpoint startswith (s p : string) : bool :=
  match p, s with
  | EmptyString, _ => true
  | String a p', String b s' => if Ascii.eqb a b then startswith s' p' else false
  | String _ _, EmptyString => false
  end.

Fixpoint rev_onto (s acc : string) : string :=
  match s with
  | EmptyString => acc
  | String a s' => rev_onto s' (String a acc)
  end.

Definition rev (s : string) : string := rev_onto s EmptyString.

Definition endswith (s p : string) : bool := startswith (rev s) (rev p).

(** [str.isspace] on the code points below 256. *)
Definition isspace (a : ascii) : bool :=
  let n := nat_of_ascii a in
  ((9 <=? n) && (n <=? 13) || (28 <=? n) && (n <=? 32)
   || (n =? 133) || (n =? 160))%nat.

Fixpoint lstrip (s : string) : string :=
  match s with
  | EmptyString => EmptyString
  | String a s' => if isspace a then lstrip s' else s
  end.

Definition strip (s : string) : string := rev (lstrip (rev (lstrip s))).

(** [s.split(sep)] for a one-character separator: the fields between
    the separators, [cur] holding the current field in reverse. *)
Fixpoint split_onto (sep : ascii) (s cur : string) : list string :=
  match s with
  | EmptyString => [rev cur]
  | String a s' =>
      if Ascii.eqb a sep then rev cur :: split_onto sep s' EmptyString
      else split_onto sep s' (String a cur)
  end.

Definition split (s : string) (sep : ascii) : list string :=
  split_onto sep s EmptyString.

Fixpoint drop (n : nat) (s : string) : string :=
  match n, s with
  | O, _ => s
  | S n', String _ s' => drop n' s'
  | S _, EmptyString => EmptyString
  end.

(** [s.replace(old, "")] for a non-empty [old]: every occurrence,
    scanning from the left, occurrences not overlapping.  The fuel is
    the length of [s]; each step consumes at least one character. *)
Fixpoint remove_fuel (fuel : nat) (s old : string) : string :=
  match fuel with
  | O => s
  | S fuel' =>
      match s with
      | EmptyString => EmptyString
      | String a s' =>
          if startswith s old then remove_fuel fuel' (drop (String.length old) s) old
          else String a (remove_fuel fuel' s' old)
      end
  end.

Definition remove (s old : string) : string :=
  remove_fuel (String.length s) s old.

Definition join (sep : string) (l : list string) : string :=
  match l with
  | [] => EmptyString
  | x :: xs => fold_left (fun acc y => acc ++ sep ++ y) xs x
  end.

(** A non-empty string is true in a condition. *)
Definition nonempty (s : string) : bool := negb (String.eqb s "").

Definition isdigit (a : ascii) : bool :=
  let n := nat_of_ascii a in ((48 <=? n) && (n <=? 57))%nat.

(** Digits of an [int] literal: decimal digits, single underscores
    allowed between two digits. *)
Fixpoint digits (s : string) (acc : Z) (after_digit : bool) : option Z :=
  match s with
  | EmptyString => if after_digit then Some acc else None
  | String a s' =>
      if isdigit a then digits s' (10 * acc + (Z.of_nat (nat_of_ascii a) - 48)) true
      else if Ascii.eqb a "_"%char then
        if after_digit then
          match s' with
          | String b _ => if isdigit b then digits s' acc false else None
          | EmptyString => None
          end
        else None
      else None
  end.

(** [int(s)] in base ten: surrounding white space, an optional sign,
    then the digits; [None] stands for the [ValueError].  (CPython's
    limit on the number of digits of the literal is not modelled.) *)
Definition int (s : string) : option Z :=
  match strip s with
  | String "-"%char s' => Z.opp <$> digits s' 0 false
  | String "+"%char s' => digits s' 0 false
  | s' => digits s' 0 false
  end.

(** [s.rfind(c)] for a character [c]: the highest index of [c] in [s],
    [-1] when there is none.  [i] is the index of the head of [s] and
    [acc] the highest index found so far. *)
Fixpoint rfind_from (s : string) (c : ascii) (i acc : Z) : Z :=
  match s with
  | EmptyString => acc
  | String a s' => rfind_from s' c (i + 1) (if Ascii.eqb a c then i else acc)
  end.

Definition rfind (s : string) (c : ascii) : Z := rfind_from s c 0 (-1).

(** The slices [s[:i]], [s[i:]] and [s[i:j]] for indexes that are not
    negative. *)
Fixpoint take (n : nat) (s : string) : string :=
  match n, s with
  | S n', String a s' => String a (take n' s')
  | _, _ => EmptyString
  end.

Definition slice_to (s : string) (i : Z) : string := take (Z.to_nat i) s.
Definition slice_from (s : string) (i : Z) : string := drop (Z.to_nat i) s.
Definition slice (s : string) (i j : Z) : string :=
  take (Z.to_nat (j - i)) (drop (Z.to_nat i) s).

(** [s.lstrip(chars)]: the leading characters that occur in [chars] are
    removed. *)
Fixpoint has (chars : string) (a : ascii) : bool :=
  match chars with
  | EmptyString => false
  | String c chars' => Ascii.eqb c a || has chars' a
  end.

Fixpoint lstrip_chars (chars s : string) : string :=
  match s with
  | EmptyString => EmptyString
  | String a s' => if has chars a then lstrip_chars chars s' else s
  end.

End PyStr.

(** ** [os.path] on POSIX

    The path functions the program calls, after CPython's [posixpath];
    [os.sep] is the slash.  The current directory is an argument. *)

Module posixpath.
Import PyStr.

Definition sep : ascii := "/"%char.

(** [basename(p)] is [p[p.rfind('/') + 1:]], the text after the last
    slash, which is the last field of [p.split('/')]. *)
Definition basename (p : string) : string := List.last (split p sep) "".

Definition isabs (p : string) : bool := startswith p "/".

Definition join (a b : string) : string :=
  if startswith b "/" then b
  else if String.eqb a "" || endswith a "/" then a ++ b
  else a ++ "/" ++ b.

Definition is_nil {A} (l : list A) : bool :=
  match l with [] => true | _ => false end.

(** One turn of the loop of [normpath] over the components. *)
Definition normpath_step (initial_slashes : nat) (new_comps : list string)
    (comp : string) : list string :=
  if String.eqb comp "" || String.eqb comp "." then new_comps
  else if negb (String.eqb comp "..")
          || (Nat.eqb initial_slashes 0 && is_nil new_comps)
          || (negb (is_nil new_comps) && String.eqb (List.last new_comps "") "..")
  then new_comps ++ [comp]
  else removelast new_comps.

Definition normpath (path : string) : string :=
  if String.eqb path "" then "."
  else
    let initial_slashes :=
      if startswith path "/" then
        if startswith path "//" && negb (startswith path "///") then 2%nat else 1%nat
      else 0%nat in
    let comps := fold_left (normpath_step initial_slashes) (split path sep) [] in
    let p := PyStr.join "/" comps in
    let p := match initial_slashes with
             | O => p
             | S O => "/" ++ p
             | _ => "//" ++ p
             end in
    if String.eqb p "" then "." else p.

Definition abspath (cwd path : string) : string :=
  normpath (if isabs path then path else join cwd path).

Fixpoint commonprefix_len (a b : list string) : nat :=
  match a, b with
  | x :: a', y :: b' => if String.eqb x y then S (commonprefix_len a' b') else O
  | _, _ => O
  end.

(** [relpath(path)] with the default [start], the current directory
    [cwd]; [None] stands for the [ValueError] on an empty path. *)
Definition relpath (cwd path : string) : option string :=
  if String.eqb path "" then None
  else
    let start_list := List.filter nonempty (split (abspath cwd ".") sep) in
    let path_list := List.filter nonempty (split (abspath cwd path) sep) in
    let i := commonprefix_len start_list path_list in
    let rel_list :=
      (List.repeat ".." (length start_list - i) ++ List.skipn i path_list)%list in
    Some (if is_nil rel_list then "." else PyStr.join "/" rel_list).

(** The loop of [genericpath._splitext] that skips the leading dots of
    the file name: it returns at the first character before [dotIndex]
    that is not a dot.  [fuel] bounds the turns, which are at most
    [dotIndex - filenameIndex]. *)
Fixpoint splitext_loop (fuel : nat) (p : string) (filenameIndex dotIndex : Z)
    : option (string * string) :=
  match fuel with
  | O => None
  | S fuel' =>
      if filenameIndex <? dotIndex then
        if negb (String.eqb (slice p filenameIndex (filenameIndex + 1)) ".") then
          Some (slice_to p dotIndex, slice_from p dotIndex)
        else splitext_loop fuel' p (filenameIndex + 1) dotIndex
      else None
  end.

(** [splitext(p)], with the slash as separator and the dot as extension
    separator. *)
Definition splitext (p : string) : string * string :=
  let sepIndex := rfind p sep in
  let dotIndex := rfind p "."%char in
  let no_extension := (p, EmptyString) in
  if sepIndex <? dotIndex then
    let filenameIndex := sepIndex + 1 in
    match splitext_loop (S (Z.to_nat (dotIndex - filenameIndex))) p filenameIndex dotIndex with
    | Some r => r
    | None => no_extension
    end
  else no_extension.

End posixpath.

(** ** Exceptions, results and the log *)

Inductive exn : Type :=
| AssertionError (msg : string)
| ValueError (msg : string)
| TypeError (msg : string)
| IndexError (msg : string)
| OSError (msg : string).

(** [str(e)] as an f-string prints it. *)
Definition exn_str (e : exn) : string :=
  match e with
  | AssertionError m | ValueError m | TypeError m | IndexError m | OSError m => m
  end.

(** The classes named by [except (FileNotFoundError, IOError)]:
    [IOError] is [OSError], of which [FileNotFoundError] is a subclass. *)
Definition is_OSError (e : exn) : bool :=
  match e with OSError _ => true | _ => false end.

Definition result (A : Type) : Type := exn + A.

Definition raise {A} (e : exn) : result A := inl e.

#[global] Instance result_ret : MRet result := fun A x => inr x.
#[global] Instance result_bind : MBind result := fun A B f m =>
  match m with
  | inl e => inl e
  | inr x => f x
  end.

Inductive level : Type := WARNING | ERROR.

Definition log_record : Type := level * string.

(** A computation that emits log records and then returns or raises. *)
Definition M (A : Type) : Type := list log_record * result A.

#[global] Instance M_ret : MRet M := fun A x => ([], inr x).
#[global] Instance M_bind : MBind M := fun A B f m =>
  match m with
  | (l, inl e) => (l, inl e)
  | (l, inr x) => let '(l', r) := f x in ((l ++ l')%list, r)
  end.

Definition lift {A} (r : result A) : M A := ([], r).
Definition emit (lv : level) (msg : string) : M unit := ([(lv, msg)], inr tt).

Definition logged {A} (m : M A) : list log_record := fst m.
Definition outcome {A} (m : M A) : result A := snd m.

(** [int(x)] on a string; a value that is not a well-formed literal
    raises [ValueError]. *)
Definition py_int (s : string) : result Z :=
  match PyStr.int s with
  | Some z => inr z
  | None => raise (ValueError ("invalid literal for int() with base 10: '" ++ s ++ "'"))
  end.

(** [int(elem.get(k))]: [get] gives [None] for a missing attribute, on
    which [int] raises [TypeError]. *)
Definition py_int_opt (o : option string) : result Z :=
  match o with
  | Some s => py_int s
  | None => raise (TypeError "int() argument must be a string, a bytes-like object or a real number, not 'NoneType'")
  end.

(** [a / b] on ints with [b] not zero. *)
Definition truediv (a b : nat) : Q := Qred (inject_Z (Z.of_nat a) / inject_Z (Z.of_nat b)).

(** ** [xml.etree.ElementTree] *)

Module ET.

#[local] Set Warnings "-register-all".
Inductive Element : Type :=
| Elem (tag : string) (attrib : gmap string string) (children : list Element).

Definition tag (e : Element) : string := let 'Elem t _ _ := e in t.
Definition attrib (e : Element) : gmap string string := let 'Elem _ a _ := e in a.
Definition children (e : Element) : list Element := let 'Elem _ _ c := e in c.

Definition get (e : Element) (k : string) : option string := attrib e !! k.

(** [e.iter()]: the element and its descendants in document order. *)
Fixpoint iter (e : Element) : list Element :=
  match e with
  | Elem _ _ cs => e :: flat_map iter cs
  end.

(** [e.findall(".//t")]: the descendants of [e] with tag [t], in
    document order; [e] itself is not among them. *)
Definition findall_desc (e : Element) (t : string) : list Element :=
  List.filter (fun x => String.eqb (tag x) t) (flat_map iter (children e)).

End ET.

(** ** The diff-cover report as [json.load] returns it

    [src_stats] lists the items of the mapping in iteration order. *)

Record Stats : Type := {
  covered_lines : list Z;
  violation_lines : list Z;
  percent_covered : Q
}.

Record ReportData : Type := { src_stats : list (string * Stats) }.

(** ** What the program reads from outside *)

Record World : Type := {
  (** [None] when [os.path.exists(p)] is false, else the value of
      [int(round(os.path.getmtime(p) * 1000))]. *)
  mtime_ms : string -> option Z;
  (** [os.getcwd()], the base of [os.path.relpath]. *)
  getcwd : string;
  (** [ET.parse(p).getroot()]. *)
  ET_parse : string -> result ET.Element;
  (** [open(p, "r")] and the iteration over the file: [open] raises, or
      the iteration yields lines and then ends or raises. *)
  open_lines : string -> result (list string * option exn);
  (** [json.load(open(p, "r"))]. *)
  json_load : string -> result ReportData
}.

(** ** [CoverageProcessor] *)

Record CoverageProcessor : Type := {
  file_path : string;
  src_file_path : string;
  coverage_type : string;
  use_report_coverage_feature_flag : bool;
  diff_coverage_report_path : option string
}.

Definition Triple : Type := list Z * list Z * Q.

(** The two shapes [parse_coverage_report] returns. *)
Inductive Output : Type :=
| Single (t : Triple)
| PerFile (d : gmap string Triple).

(** The loop of [parse_coverage_data_for_class] over the [line]
    elements. *)
Fixpoint classify_lines (lines : list ET.Element) (lines_covered lines_missed : list Z)
    : result (list Z * list Z) :=
  match lines with
  | [] => mret (lines_covered, lines_missed)
  | line :: rest =>
      line_number ← py_int_opt (ET.get line "number");
      hits ← py_int_opt (ET.get line "hits");
      if 0 <? hits then classify_lines rest (lines_covered ++ [line_number]) lines_missed
      else classify_lines rest lines_covered (lines_missed ++ [line_number])
  end.

Definition parse_coverage_data_for_class (cls : ET.Element) : result Triple :=
  '(lines_covered, lines_missed) ← classify_lines (ET.findall_desc cls "line") [] [];
  let total_lines := (length lines_covered + length lines_missed)%nat in
  let coverage_percentage :=
    if (0 <? total_lines)%nat then truediv (length lines_covered) total_lines else 0%Q in
  mret (lines_covered, lines_missed, coverage_percentage).

(** Lines 136-142 and 160-168: deduplicate and compute the ratio. *)
Definition dedup_and_ratio (all_covered all_missed : list Z) : Triple :=
  let covered_set : gset Z := list_to_set all_covered in
  let missed_set : gset Z := list_to_set all_missed ∖ covered_set in
  let total_lines := (size covered_set + size missed_set)%nat in
  let coverage_percentage :=
    if (total_lines =? 0)%nat then 0%Q else truediv (size covered_set) total_lines in
  (elements covered_set, elements missed_set, coverage_percentage).

(** The test [name_attr and name_attr.endswith(filename)] on
    [name_attr = cls.get("filename")]. *)
Definition class_matches (filename : string) (cls : ET.Element) : bool :=
  match ET.get cls "filename" with
  | Some name_attr => PyStr.nonempty name_attr && PyStr.endswith name_attr filename
  | None => false
  end.

(** The loop of the single-file branch over the [class] elements. *)
Fixpoint collect_matching (filename : string) (classes : list ET.Element)
    (all_covered all_missed : list Z) : result (list Z * list Z) :=
  match classes with
  | [] => mret (all_covered, all_missed)
  | cls :: rest =>
      if class_matches filename cls then
        '(c_covered, c_missed, _) ← parse_coverage_data_for_class cls;
        collect_matching filename rest (all_covered ++ c_covered)%list (all_missed ++ c_missed)%list
      else collect_matching filename rest all_covered all_missed
  end.

(** The first loop of the all-files branch, which fills [file_map]. *)
Fixpoint group_by_filename (classes : list ET.Element)
    (file_map : gmap string (list Z * list Z)) : result (gmap string (list Z * list Z)) :=
  match classes with
  | [] => mret file_map
  | cls :: rest =>
      match ET.get cls "filename" with
      | Some cls_filename =>
          if PyStr.nonempty cls_filename then
            '(c_covered, c_missed, _) ← parse_coverage_data_for_class cls;
            let '(fc, fm) := default (([], []) : list Z * list Z) (file_map !! cls_filename) in
            group_by_filename rest (<[cls_filename := ((fc ++ c_covered)%list, (fm ++ c_missed)%list)]> file_map)
          else group_by_filename rest file_map
      | None => group_by_filename rest file_map
      end
  end.

(** [filename] is [None] for the default argument; an empty string is
    false in [if filename:] as [None] is. *)
Definition parse_coverage_report_cobertura (w : World) (self : CoverageProcessor)
    (filename : option string) : result Output :=
  root ← ET_parse w (file_path self);
  match filename with
  | Some (String a f as fname) =>
      '(all_covered, all_missed) ← collect_matching fname (ET.findall_desc root "class") [] [];
      mret (Single (dedup_and_ratio all_covered all_missed))
  | _ =>
      file_map ← group_by_filename (ET.findall_desc root "class") ∅;
      mret (PerFile ((fun '(c_covered, c_missed) => dedup_and_ratio c_covered c_missed) <$> file_map))
  end.

(** [l[i]] on a list, with the [IndexError] out of range. *)
Definition index {A} (l : list A) (i : nat) : result A :=
  match l !! i with
  | Some x => inr x
  | None => raise (IndexError "list index out of range")
  end.

(** The two nested [for line in file] loops of
    [parse_coverage_report_lcov].  Both draw from the one iterator of the
    file: [inner] tells which loop the next line goes to.  [pending] is
    the error the iterator raises once [lines] are used up, if any. *)
Fixpoint lcov_scan (filename : string) (pending : option exn) (inner : bool)
    (lines : list string) (lines_covered lines_missed : list Z)
    : result (list Z * list Z) :=
  match lines with
  | [] =>
      match pending with
      | Some e => raise e
      | None => mret (lines_covered, lines_missed)
      end
  | raw :: rest =>
      let line := PyStr.strip raw in
      if inner then
        if PyStr.startswith line "DA:" then
          let fields := PyStr.split (PyStr.remove line "DA:") ","%char in
          line_number ← index fields 0;
          hits ← index fields 1;
          h ← py_int hits;
          if 0 <? h then
            n ← py_int line_number;
            lcov_scan filename pending true rest (lines_covered ++ [n]) lines_missed
          else
            n ← py_int line_number;
            lcov_scan filename pending true rest lines_covered (lines_missed ++ [n])
        else if PyStr.startswith line "end_of_record" then
          lcov_scan filename pending false rest lines_covered lines_missed
        else lcov_scan filename pending true rest lines_covered lines_missed
      else
        if PyStr.startswith line "SF:" then
          if PyStr.endswith line filename then
            lcov_scan filename pending true rest lines_covered lines_missed
          else lcov_scan filename pending false rest lines_covered lines_missed
        else lcov_scan filename pending false rest lines_covered lines_missed
  end.

(** The body of the [try] block: open the file and run the loops. *)
Definition lcov_read (w : World) (self : CoverageProcessor) (filename : string)
    : result (list Z * list Z) :=
  '(lines, pending) ← open_lines w (file_path self);
  lcov_scan filename pending false lines [] [].

Definition parse_coverage_report_lcov (w : World) (self : CoverageProcessor) : M Triple :=
  let filename := posixpath.basename (src_file_path self) in
  match lcov_read w self filename with
  | inl e =>
      if is_OSError e then
        _ ← emit ERROR ("Error reading file " ++ file_path self ++ ": " ++ exn_str e);
        lift (raise e)
      else lift (raise e)
  | inr (lines_covered, lines_missed) =>
      let total_lines := (length lines_covered + length lines_missed)%nat in
      let coverage_percentage :=
        if (0 <? total_lines)%nat then truediv (length lines_covered) total_lines else 0%Q in
      mret (lines_covered, lines_missed, coverage_percentage)
  end.

(** [l[-n:]]: the last [n] items, all of [l] when it has fewer; and all
    of [l] when [n] is zero, [-0] being [0]. *)
Definition slice_from_neg {A} (n : nat) (l : list A) : list A :=
  if (n =? 0)%nat then l else List.skipn (length l - n) l.

(** The test of line 252 on one key [file_path] of [src_stats]. *)
Definition components_match (src_relative_components : list string)
    (file_path : string) : bool :=
  let file_path_components := PyStr.split file_path posixpath.sep in
  bool_decide (slice_from_neg (length src_relative_components) file_path_components
               = src_relative_components).

(** The loop over [report_data["src_stats"].items()] with its [break]. *)
Fixpoint find_stats (src_relative_components : list string)
    (items : list (string * Stats)) : option Stats :=
  match items with
  | [] => None
  | (file_path, stats) :: rest =>
      if components_match src_relative_components file_path then Some stats
      else find_stats src_relative_components rest
  end.

(** A record of [src_stats] holds its three keys, so it is true in
    [if relevant_stats:]; [None] is false. *)
Definition parse_json_diff_coverage_report (w : World) (self : CoverageProcessor)
    : result Triple :=
  report_data ←
    match diff_coverage_report_path self with
    | Some p => json_load w p
    | None => raise (TypeError "expected str, bytes or os.PathLike object, not NoneType")
    end;
  src_relative_path ←
    match posixpath.relpath (getcwd w) (src_file_path self) with
    | Some p => inr p
    | None => raise (ValueError "no path specified")
    end;
  let src_relative_components := PyStr.split src_relative_path posixpath.sep in
  match find_stats src_relative_components (src_stats report_data) with
  | Some relevant_stats =>
      mret (covered_lines relevant_stats, violation_lines relevant_stats,
            Qred (percent_covered relevant_stats / 100))
  | None => mret ([], [], 0%Q)
  end.

Definition unsupported (self : CoverageProcessor) : exn :=
  ValueError ("Unsupported coverage report type: " ++ coverage_type self).

Definition parse_coverage_report (w : World) (self : CoverageProcessor) : M Output :=
  if use_report_coverage_feature_flag self then
    if String.eqb (coverage_type self) "cobertura" then
      lift (parse_coverage_report_cobertura w self None)
    else if String.eqb (coverage_type self) "lcov" then
      t ← parse_coverage_report_lcov w self; mret (Single t)
    else lift (raise (unsupported self))
  else
    if String.eqb (coverage_type self) "cobertura" then
      lift (parse_coverage_report_cobertura w self
              (Some (posixpath.basename (src_file_path self))))
    else if String.eqb (coverage_type self) "lcov" then
      t ← parse_coverage_report_lcov w self; mret (Single t)
    else if String.eqb (coverage_type self) "diff_cover_json" then
      lift (t ← parse_json_diff_coverage_report w self; mret (Single t))
    else lift (raise (unsupported self)).

(** The double quote character of the assertion message. *)
Definition dq : string := String (ascii_of_nat 34) EmptyString.

Definition not_generated (self : CoverageProcessor) : string :=
  "Fatal: Coverage report " ++ dq ++ file_path self ++ dq ++ " was not generated.".

Definition py_bool_str (b : bool) : string := if b then "True" else "False".

Definition not_updated (file_mod_time_ms time_of_test_command : Z) : string :=
  "The coverage report file was not updated after the test command. file_mod_time_ms: "
  ++ pretty file_mod_time_ms ++ ", time_of_test_command: " ++ pretty time_of_test_command
  ++ ". " ++ py_bool_str (time_of_test_command <? file_mod_time_ms).

Definition verify_report_update (w : World) (self : CoverageProcessor)
    (time_of_test_command : Z) : M unit :=
  match mtime_ms w (file_path self) with
  | None => lift (raise (AssertionError (not_generated self)))
  | Some file_mod_time_ms =>
      if negb (time_of_test_command <? file_mod_time_ms) then
        emit WARNING (not_updated file_mod_time_ms time_of_test_command)
      else mret tt
  end.

Definition process_coverage_report (w : World) (self : CoverageProcessor)
    (time_of_test_command : Z) : M Output :=
  _ ← verify_report_update w self time_of_test_command;
  parse_coverage_report w self.

Definition get_file_extension (self : CoverageProcessor) (filename : string) : string :=
  PyStr.lstrip_chars "." (posixpath.splitext filename).2.

(** ** [TextUtils] of [lsp_logic/multilspy/multilspy_utils.py] *)

Module TextUtils.

Definition newline : ascii := ascii_of_nat 10.

(** [s.count(c)] for a character [c]. *)
Fixpoint count (c : ascii) (s : string) : nat :=
  match s with
  | EmptyString => O
  | String a s' => if Ascii.eqb a c then S (count c s') else count c s'
  end.

(** The loop of [get_line_col_from_index].  [rest] is [text[idx:]], so
    that [text[idx]] is its head and is out of range when [rest] is
    empty; [remaining] is [index - idx], the number of turns left. *)
Fixpoint line_col_loop (remaining : nat) (rest : string) (l c : Z) : result (Z * Z) :=
  match remaining with
  | O => mret (l, c)
  | S remaining' =>
      match rest with
      | EmptyString => raise (IndexError "string index out of range")
      | String a rest' =>
          if Ascii.eqb a newline then line_col_loop remaining' rest' (l + 1) 0
          else line_col_loop remaining' rest' l (c + 1)
      end
  end.

Definition get_line_col_from_index (text : string) (index : Z) : result (Z * Z) :=
  line_col_loop (Z.to_nat index) text 0 0.

(** The message of the assertion, the tuple [(idx, len(text), text)];
    the text is written between quotes without the escapes of [repr]. *)
Definition assert_message (idx : Z) (text : string) : string :=
  "(" ++ pretty idx ++ ", " ++ pretty (Z.of_nat (String.length text)) ++ ", '" ++ text ++ "')".

(** The loop of [get_index_from_line_col].  [rest] is [text[idx:]]: the
    assertion [idx < len(text)] fails when it is empty. *)
Fixpoint index_loop (text rest : string) (line idx : Z) : result Z :=
  if 0 <? line then
    match rest with
    | EmptyString => raise (AssertionError (assert_message idx text))
    | String a rest' =>
        index_loop text rest' (if Ascii.eqb a newline then line - 1 else line) (idx + 1)
    end
  else mret idx.

Definition get_index_from_line_col (text : string) (line col : Z) : result Z :=
  idx ← index_loop text text line 0;
  mret (idx + col).

Definition get_updated_position_from_line_and_column_and_edit
    (l c : Z) (text_to_be_inserted : string) : Z * Z :=
  let num_newlines_in_gen_text := Z.of_nat (count newline text_to_be_inserted) in
  if 0 <? num_newlines_in_gen_text then
    (l + num_newlines_in_gen_text,
     Z.of_nat (String.length (List.last (PyStr.split text_to_be_inserted newline) "")))
  else (l, c + Z.of_nat (String.length text_to_be_inserted)).

End TextUtils.

(** ** [PlatformUtils] of [lsp_logic/multilspy/multilspy_utils.py] *)

Module PlatformUtils.











End PlatformUtils.

(** ** [lsp_logic/utils/important_files_logic.py] *)

Module important_files.

(** [posixpath.dirname]: the text up to the last slash, without its
    trailing slashes unless it is made of slashes only. *)
Fixpoint all_char (c : ascii) (s : string) : bool :=
  match s with
  | EmptyString => true
  | String a s' => Ascii.eqb a c && all_char c s'
  end.

Definition rstrip_chars (chars s : string) : string :=
  PyStr.rev (PyStr.lstrip_chars chars (PyStr.rev s)).

Definition dirname (p : string) : string :=
  let i := PyStr.rfind p posixpath.sep + 1 in
  let head := PyStr.slice_to p i in
  if PyStr.nonempty head && negb (all_char posixpath.sep head)
  then rstrip_chars "/" head
  else head.

Definition ROOT_IMPORTANT_FILES : list string :=
  [".gitignore"; ".gitattributes"; "README"; "README.md"; "README.txt"; "README.rst";
   "CONTRIBUTING"; "CONTRIBUTING.md"; "CONTRIBUTING.txt"; "CONTRIBUTING.rst";
   "LICENSE"; "LICENSE.md"; "LICENSE.txt"; "CHANGELOG"; "CHANGELOG.md";
   "CHANGELOG.txt"; "CHANGELOG.rst"; "SECURITY"; "SECURITY.md"; "SECURITY.txt";
   "CODEOWNERS"; "requirements.txt"; "Pipfile"; "Pipfile.lock"; "pyproject.toml";
   "setup.py"; "setup.cfg"; ".env"; ".env.example"; ".editorconfig"; ".pylintrc";
   ".flake8"; ".dockerignore"; ".gitpod.yml"; "sonar-project.properties";
   "renovate.json"; "dependabot.yml"; ".pre-commit-config.yaml"; "mypy.ini"; "tox.ini";
   ".yamllint"; "pyrightconfig.json"; "MANIFEST.in"; "pytest.ini"; ".travis.yml";
   ".gitlab-ci.yml"; "Jenkinsfile"; "azure-pipelines.yml"; "bitbucket-pipelines.yml";
   "appveyor.yml"; "circle.yml"; ".circleci/config.yml"; ".github/dependabot.yml";
   "codecov.yml"; ".coveragerc"; "Dockerfile"; "docker-compose.yml";
   "docker-compose.override.yml"; "app.yaml"; "terraform.tf"; "main.tf";
   "cloudformation.yaml"; "cloudformation.json"; "ansible.cfg"; "kubernetes.yaml";
   "k8s.yaml"; "schema.sql"; "swagger.yaml"; "swagger.json"; "openapi.yaml";
   "openapi.json"; ".python-version"; "Vagrantfile"; ".codeclimate.yml"; "codecov.yml";
   "mkdocs.yml"; "readthedocs.yml"; ".readthedocs.yaml"; ".isort.cfg";
   ".markdownlint.json"; ".markdownlint.yaml"; ".bandit"; ".secrets.baseline";
   ".pypirc"; ".gitkeep"].

(** The set of the normalized names, as a list to look up. *)
Definition NORMALIZED_ROOT_IMPORTANT_FILES : list string :=
  List.map posixpath.normpath ROOT_IMPORTANT_FILES.

Definition is_important (file_path : string) : bool :=
  let file_name := posixpath.basename file_path in
  let dir_name := posixpath.normpath (dirname file_path) in
  let normalized_path := posixpath.normpath file_path in
  if String.eqb dir_name (posixpath.normpath ".github/workflows")
     && PyStr.endswith file_name ".yml"
  then true
  else existsb (String.eqb normalized_path) NORMALIZED_ROOT_IMPORTANT_FILES.

Definition filter_important_files (file_paths : list string) : list string :=
  List.filter is_important file_paths.

End important_files.

(** ** Predicates of the statements *)

(** The ratio of [a] covered to [b] missed lines, [0] when there is
    none of either. *)
Definition ratio_of (a b : nat) : Q :=
  if (a + b =? 0)%nat then 0%Q else truediv a (a + b).

(** The invariant of a returned triple: the sets of covered and of
    missed line numbers are disjoint and the ratio is that of their
    sizes. *)
Definition triple_invariant (t : Triple) : Prop :=
  let '(covered, missed, ratio) := t in
  let cs : gset Z := list_to_set covered in
  let ms : gset Z := list_to_set missed in
  cs ## ms ∧ ratio = ratio_of (size cs) (size ms).

(** [line] carries the line number [n] and the hit count [h]. *)
Definition line_record (line : ET.Element) (n h : Z) : Prop :=
  py_int_opt (ET.get line "number") = inr n ∧ py_int_opt (ET.get line "hits") = inr h.

(** [cls] has a line element for [n] with a positive hit count. *)
Definition covered_in (cls : ET.Element) (n : Z) : Prop :=
  ∃ line h, line ∈ ET.findall_desc cls "line" ∧ line_record line n h ∧ 0 < h.

(** [cls] has a line element for [n] with no hit. *)
Definition missed_in (cls : ET.Element) (n : Z) : Prop :=
  ∃ line h, line ∈ ET.findall_desc cls "line" ∧ line_record line n h ∧ h ≤ 0.

(** The invariant on either shape a parser returns. *)
Definition output_invariant (out : Output) : Prop :=
  match out with
  | Single t => triple_invariant t
  | PerFile d => ∀ f t, d !! f = Some t → triple_invariant t
  end.

(** The trailing path components of [key] are the components of
    [target], in order. *)
Definition component_suffix (target key : string) : Prop :=
  ∃ pre, PyStr.split key posixpath.sep = (pre ++ PyStr.split target posixpath.sep)%list.

(** The types the dispatcher knows under each value of the flag. *)
Definition supported_types (flag : bool) : list string :=
  if flag then ["cobertura"; "lcov"] else ["cobertura"; "lcov"; "diff_cover_json"].

(** The stripped line is an [SF:] line that ends with the characters of
    [filename]: the test that opens the inner loop of the LCOV parser. *)
Definition sf_matches (filename raw : string) : bool :=
  PyStr.startswith (PyStr.strip raw) "SF:" && PyStr.endswith (PyStr.strip raw) filename.

(** ** Reports and processors of the examples *)

Definition no_such_file {A} (p : string) : result A :=
  raise (OSError ("[Errno 2] No such file or directory: '" ++ p ++ "'")).

(** A world with no file at all and [cwd] as current directory. *)
Definition bare_world (cwd : string) : World := {|
  mtime_ms := fun _ => None;
  getcwd := cwd;
  ET_parse := no_such_file;
  open_lines := no_such_file;
  json_load := no_such_file
|}.

(** The same world with the report file present at every path: an XML
    report, an LCOV report, a diff-cover report. *)
Definition with_xml (root : ET.Element) (m : Z) (w : World) : World := {|
  mtime_ms := fun _ => Some m;
  getcwd := getcwd w;
  ET_parse := fun _ => inr root;
  open_lines := open_lines w;
  json_load := json_load w
|}.

Definition with_lcov (lines : list string) (pending : option exn) (m : Z) (w : World)
    : World := {|
  mtime_ms := fun _ => Some m;
  getcwd := getcwd w;
  ET_parse := ET_parse w;
  open_lines := fun _ => inr (lines, pending);
  json_load := json_load w
|}.

Definition with_json (items : list (string * Stats)) (m : Z) (w : World) : World := {|
  mtime_ms := fun _ => Some m;
  getcwd := getcwd w;
  ET_parse := ET_parse w;
  open_lines := open_lines w;
  json_load := fun _ => inr {| src_stats := items |}
|}.

Definition xml_line (number hits : string) : ET.Element :=
  ET.Elem "line" {[ "number" := number; "hits" := hits ]} [].

Definition xml_class (filename : string) (lines : list ET.Element) : ET.Element :=
  ET.Elem "class" {[ "filename" := filename ]} [ET.Elem "lines" ∅ lines].

Definition xml_report (classes : list ET.Element) : ET.Element :=
  ET.Elem "coverage" ∅
    [ET.Elem "packages" ∅ [ET.Elem "package" ∅ [ET.Elem "classes" ∅ classes]]].

(** The document of the test suite: two class elements for [app.py]. *)
Definition two_fragments : ET.Element :=
  xml_report
    [xml_class "app.py" [xml_line "1" "1"; xml_line "2" "0"];
     xml_class "app.py" [xml_line "3" "1"; xml_line "4" "0"]].

(** Line 2 is missed in the first fragment and hit in the second. *)
Definition overlapping_fragments : ET.Element :=
  xml_report
    [xml_class "app.py" [xml_line "1" "1"; xml_line "2" "0"];
     xml_class "app.py" [xml_line "2" "3"; xml_line "4" "0"]].

Definition processor (src coverage_type : string) (flag : bool) : CoverageProcessor := {|
  file_path := "fake_path";
  src_file_path := src;
  coverage_type := coverage_type;
  use_report_coverage_feature_flag := flag;
  diff_coverage_report_path := Some "diff_coverage.json"
|}.

Definition nl : string := String (ascii_of_nat 10) EmptyString.

(** The LCOV record of the specification's example. *)
Definition lcov_app : list string :=
  ["SF:app.py" ++ nl; "DA:1,1" ++ nl; "DA:2,0" ++ nl; "end_of_record" ++ nl].

(** A record that reports line 1 twice, once hit and once not. *)
Definition lcov_duplicate : list string :=
  ["SF:app.py" ++ nl; "DA:1,1" ++ nl; "DA:1,0" ++ nl; "end_of_record" ++ nl].

(** The diff-cover report of the test suite. *)
Definition diff_app : list (string * Stats) :=
  [("path/to/app.py",
    {| covered_lines := [1; 3; 5]; violation_lines := [2; 4; 6]; percent_covered := 50 |})].

(** A diff-cover record whose lists overlap and whose percentage is not
    that of the lists. *)
Definition diff_odd : list (string * Stats) :=
  [("app.py",
    {| covered_lines := [1]; violation_lines := [1; 2]; percent_covered := 100 |})].

Definition stats_a : Stats :=
  {| covered_lines := [1]; violation_lines := [2]; percent_covered := 50 |}.

Definition stats_b : Stats :=
  {| covered_lines := [1; 3; 5]; violation_lines := [6]; percent_covered := 75 |}.

(** Two keys that end with the characters [a/b/app.py]; the second one
    ends with these path components, and so does the third. *)
Definition diff_nested : list (string * Stats) :=
  [("src/xa/b/app.py", stats_a); ("src/a/b/app.py", stats_b); ("lib/a/b/app.py", stats_a)].

(** An LCOV report with a record for another file only. *)
Definition lcov_other : list string :=
  ["SF:other.py" ++ nl; "DA:1,1" ++ nl; "end_of_record" ++ nl].

(** An XML report with a class element for another file only. *)
Definition other_file : ET.Element :=
  xml_report [xml_class "other.py" [xml_line "1" "1"; xml_line "2" "0"]].

(** Reports about [myapp.py] only, a file that is not the target
    [app.py] but whose name ends with these characters. *)
Definition myapp_report : ET.Element :=
  xml_report [xml_class "myapp.py" [xml_line "1" "1"; xml_line "2" "0"]].

Definition lcov_myapp : list string :=
  ["SF:myapp.py" ++ nl; "DA:1,1" ++ nl; "DA:2,0" ++ nl; "end_of_record" ++ nl].

(** [P] holds of the triple, or of every triple of the mapping. *)
Definition Output_Forall (P : Triple → Prop) (out : Output) : Prop :=
  match out with
  | Single t => P t
  | PerFile d => ∀ f t, d !! f = Some t → P t
  end.

(** Neither list of the triple repeats a line number. *)
Definition duplicate_free (t : Triple) : Prop :=
  let '(covered, missed, _) := t in NoDup covered ∧ NoDup missed.

(** The ratio of the triple is that of the lengths of its lists; it
    lies between 0 and 1, is 0 exactly when no line is covered and 1
    exactly when some line is covered and none is missed. *)
Definition ratio_facts (t : Triple) : Prop :=
  let '(covered, missed, ratio) := t in
  ratio = ratio_of (length covered) (length missed) ∧
  (0 <= ratio <= 1)%Q ∧
  (ratio = 0%Q ↔ covered = []) ∧
  (ratio = 1%Q ↔ covered ≠ [] ∧ missed = []).

(** Every line element of [cls] carries an integer number and an
    integer hit count. *)
Definition well_formed_lines (cls : ET.Element) : Prop :=
  ∀ line, line ∈ ET.findall_desc cls "line" → ∃ n h, line_record line n h.

(** The exceptions [int] raises on an attribute. *)
Definition int_error (e : exn) : Prop :=
  match e with
  | TypeError _ | ValueError _ => True
  | _ => False
  end.

(** [cls] has the non-empty filename attribute [f]. *)
Definition class_named (f : string) (cls : ET.Element) : Prop :=
  ET.get cls "filename" = Some f ∧ f ≠ "".

(** A class element with one line element that lacks its hit count. *)
Definition broken_class (filename : string) : ET.Element :=
  ET.Elem "class" {[ "filename" := filename ]}
    [ET.Elem "lines" ∅ [ET.Elem "line" {[ "number" := "7" ]} []]].

(** A report with a sound class for [app.py] and a broken one for
    [other.py]. *)
Definition partly_broken : ET.Element :=
  xml_report [xml_class "app.py" [xml_line "1" "1"; xml_line "2" "0"];
              broken_class "other.py"].

(** A report with class elements for [app.py] and for [lib/app.py]:
    line 2 is missed in the first file and hit in the second. *)
Definition two_files : ET.Element :=
  xml_report [xml_class "app.py" [xml_line "1" "1"; xml_line "2" "0"];
              xml_class "lib/app.py" [xml_line "2" "1"; xml_line "5" "0"]].

(** The exceptions the loops of the LCOV parser raise by themselves. *)
Definition lcov_parse_error (e : exn) : Prop :=
  e = IndexError "list index out of range" ∨
  ∃ s, e = ValueError ("invalid literal for int() with base 10: '" ++ s ++ "'").

(** The record the LCOV parser logs for the exception [e]. *)
Definition lcov_error_record (self : CoverageProcessor) (e : exn) : log_record :=
  (ERROR, "Error reading file " ++ file_path self ++ ": " ++ exn_str e).

(** An LCOV report whose matching record has a data line without
    hit count. *)
Definition lcov_no_comma : list string :=
  ["SF:app.py" ++ nl; "DA:1,1" ++ nl; "DA:2" ++ nl; "end_of_record" ++ nl].

(** The shapes of a line inside a record, as the inner loop of the LCOV
    parser tells them apart: a data line with line number [n] and hit
    count [h], the line that ends the record, any other line. *)
Definition da_line (raw : string) (n h : Z) : Prop :=
  PyStr.startswith (PyStr.strip raw) "DA:" = true ∧
  ∃ ln hs,
    PyStr.split (PyStr.remove (PyStr.strip raw) "DA:") ","%char !! 0%nat = Some ln ∧
    PyStr.split (PyStr.remove (PyStr.strip raw) "DA:") ","%char !! 1%nat = Some hs ∧
    PyStr.int hs = Some h ∧ PyStr.int ln = Some n.

Definition end_line (raw : string) : Prop :=
  PyStr.startswith (PyStr.strip raw) "DA:" = false ∧
  PyStr.startswith (PyStr.strip raw) "end_of_record" = true.

Definition other_line (raw : string) : Prop :=
  PyStr.startswith (PyStr.strip raw) "DA:" = false ∧
  PyStr.startswith (PyStr.strip raw) "end_of_record" = false.

(** The lines of a record after its [SF:] line and before its end, with
    the line numbers they give as covered and as missed, in order. *)
Inductive record_body : list string → list Z → list Z → Prop :=
| body_nil : record_body [] [] []
| body_hit raw n h rest c m :
    da_line raw n h → 0 < h → record_body rest c m →
    record_body (raw :: rest) (n :: c) m
| body_miss raw n h rest c m :
    da_line raw n h → h ≤ 0 → record_body rest c m →
    record_body (raw :: rest) c (n :: m)
| body_other raw rest c m :
    other_line raw → record_body rest c m → record_body (raw :: rest) c m.

(** The lines of a report for the target [filename]: lines that open no
    record of the target; or such lines, a record of the target with its
    end line, and more of the report; or such lines and a last record of
    the target that has no end line. *)
Inductive lcov_report (filename : string) : list string → list Z → list Z → Prop :=
| report_rest tail :
    (∀ l, l ∈ tail → sf_matches filename l = false) →
    lcov_report filename tail [] []
| report_record before sf body endl rest cb mb c m :
    (∀ l, l ∈ before → sf_matches filename l = false) →
    sf_matches filename sf = true →
    record_body body cb mb → end_line endl →
    lcov_report filename rest c m →
    lcov_report filename (before ++ sf :: body ++ endl :: rest) (cb ++ c) (mb ++ m)
| report_open before sf body cb mb :
    (∀ l, l ∈ before → sf_matches filename l = false) →
    sf_matches filename sf = true →
    record_body body cb mb →
    lcov_report filename (before ++ sf :: body) cb mb.

(** [c] occurs in [s]. *)
Fixpoint has_char (c : ascii) (s : string) : bool :=
  match s with
  | EmptyString => false
  | String a s' => Ascii.eqb a c || has_char c s'
  end.

(** Two records of [app.py] around one of [other.py]. *)
Definition lcov_two_records : list string :=
  ["TN:" ++ nl;
   "SF:src/app.py" ++ nl; "FN:1,f" ++ nl; "DA:1,1" ++ nl; "DA:2,0" ++ nl;
   "end_of_record" ++ nl;
   "SF:src/other.py" ++ nl; "DA:9,1" ++ nl; "end_of_record" ++ nl;
   "SF:lib/app.py" ++ nl; "DA:1,0" ++ nl; "DA:7,4" ++ nl; "end_of_record" ++ nl].

(** A record of [app.py] without end line, followed by a record of
    [other.py]. *)
Definition lcov_unterminated : list string :=
  ["SF:app.py" ++ nl; "DA:1,1" ++ nl;
   "SF:other.py" ++ nl; "DA:9,0" ++ nl; "end_of_record" ++ nl].

(** The components put together again with the separator between
    them (the inverse of [split], used to compare keys as strings). *)
Fixpoint unsplit (sep : ascii) (l : list string) : string :=
  match l with
  | [] => ""
  | [x] => x
  | x :: l' => x ++ String sep (unsplit sep l')
  end.

(** The string of [n] dots. *)
Fixpoint dots (n : nat) : string :=
  match n with
  | O => ""
  | S n' => String "." (dots n')
  end.

(** A path component that [normpath] keeps as it is: not empty, not a
    dot, not two dots, without slash. *)
Definition plain (c : string) : Prop :=
  c ≠ "" ∧ c ≠ "." ∧ c ≠ ".." ∧ has_char "/" c = false.

(** The text after the last line break of [s]. *)
Definition last_line (s : string) : string :=
  List.last (PyStr.split s TextUtils.newline) "".

(** The number of line breaks of [s]. *)
Definition line_breaks (s : string) : Z := Z.of_nat (TextUtils.count TextUtils.newline s).

(** * Properties *)

(** ** Strings: prefixes and suffixes *)

Section StringFacts.

Lemma str_app_cons (a : ascii) (s t : string) : String a s ++ t = String a (s ++ t).
Proof. reflexivity. Qed.

Lemma str_app_nil_l (s : string) : "" ++ s = s.
Proof. reflexivity. Qed.

Lemma str_app_nil_r (s : string) : s ++ "" = s.
Proof.
  induction s as [|a s IH]; [reflexivity|].
  now rewrite str_app_cons, IH.
Qed.

Lemma str_app_assoc (a b c : string) : (a ++ b) ++ c = a ++ (b ++ c).
Proof.
  induction a as [|x a IH]; [reflexivity|].
  now rewrite !str_app_cons, IH.
Qed.

Lemma startswith_spec (s p : string) :
  PyStr.startswith s p = true ↔ ∃ suf, s = p ++ suf.
Proof.
  revert s. induction p as [|a p IH]; intros s.
  - split; [intros _; now exists s | intros _; now destruct s].
  - destruct s as [|b s]; simpl.
    + split; [discriminate | intros [suf H]].
      rewrite str_app_cons in H. discriminate.
    + destruct (Ascii.eqb_spec a b) as [->|Hne].
      * rewrite IH. split; intros [suf H]; exists suf.
        -- now rewrite str_app_cons, H.
        -- rewrite str_app_cons in H. congruence.
      * split; [discriminate | intros [suf H]].
        rewrite str_app_cons in H. congruence.
Qed.

Lemma rev_onto_spec (s acc : string) :
  PyStr.rev_onto s acc = PyStr.rev s ++ acc.
Proof.
  unfold PyStr.rev. revert acc.
  induction s as [|a s IH]; intros acc; simpl; [reflexivity|].
  rewrite (IH (String a acc)), (IH (String a "")), str_app_assoc. reflexivity.
Qed.

Lemma rev_cons (a : ascii) (s : string) :
  PyStr.rev (String a s) = PyStr.rev s ++ String a "".
Proof. unfold PyStr.rev at 1. simpl. apply rev_onto_spec. Qed.

Lemma rev_app (a b : string) : PyStr.rev (a ++ b) = PyStr.rev b ++ PyStr.rev a.
Proof.
  induction a as [|x a IH].
  - now rewrite str_app_nil_l, str_app_nil_r.
  - now rewrite str_app_cons, !rev_cons, IH, str_app_assoc.
Qed.

Lemma rev_involutive (s : string) : PyStr.rev (PyStr.rev s) = s.
Proof.
  induction s as [|a s IH]; [reflexivity|].
  rewrite rev_cons, rev_app, IH. reflexivity.
Qed.

(** [s.endswith(p)] is the raw suffix test on the characters. *)
Lemma endswith_spec (s p : string) :
  PyStr.endswith s p = true ↔ ∃ pre, s = pre ++ p.
Proof.
  unfold PyStr.endswith. rewrite startswith_spec. split.
  - intros [suf H]. exists (PyStr.rev suf).
    rewrite <- (rev_involutive s), H, rev_app, rev_involutive. reflexivity.
  - intros [pre ->]. exists (PyStr.rev pre). apply rev_app.
Qed.

Lemma split_onto_cons (sep : ascii) (s cur : string) :
  ∃ x l, PyStr.split_onto sep s cur = x :: l.
Proof.
  revert cur. induction s as [|a s IH]; intros cur; simpl; [eauto|].
  destruct (Ascii.eqb a sep); eauto.
Qed.

(** [split] never returns the empty list. *)
Lemma split_length_pos (s : string) (sep : ascii) :
  (0 < length (PyStr.split s sep))%nat.
Proof.
  unfold PyStr.split. destruct (split_onto_cons sep s "") as (x & l & ->).
  simpl. lia.
Qed.

End StringFacts.

(** ** The result monad *)

Lemma bind_inr {A B} (m : result A) (f : A → result B) (y : B) :
  m ≫= f = inr y → ∃ x, m = inr x ∧ f x = inr y.
Proof. destruct m as [e|x]; [discriminate | eauto]. Qed.

Lemma bind_inr_eq {A B} (m : result A) (f : A → result B) (x : A) :
  m = inr x → m ≫= f = f x.
Proof. now intros ->. Qed.

Ltac inv_bind H :=
  let x := fresh "x" in
  let Hx := fresh "Hx" in
  apply bind_inr in H as (x & Hx & H).

(** ** Deduplication and ratio *)

Lemma dedup_and_ratio_invariant (all_covered all_missed : list Z) :
  triple_invariant (dedup_and_ratio all_covered all_missed).
Proof.
  unfold triple_invariant, dedup_and_ratio, ratio_of.
  rewrite !list_to_set_elements_L. split; [|reflexivity].
  intros n Hcov Hmis. apply elem_of_difference in Hmis as [_ Hnot]. by apply Hnot.
Qed.

Lemma dedup_and_ratio_covered (all_covered all_missed : list Z) (n : Z) :
  n ∈ (dedup_and_ratio all_covered all_missed).1.1 ↔ n ∈ all_covered.
Proof. unfold dedup_and_ratio; simpl. rewrite elem_of_elements. set_solver. Qed.

Lemma dedup_and_ratio_missed (all_covered all_missed : list Z) (n : Z) :
  n ∈ (dedup_and_ratio all_covered all_missed).1.2 ↔ n ∈ all_missed ∧ n ∉ all_covered.
Proof. unfold dedup_and_ratio; simpl. rewrite elem_of_elements. set_solver. Qed.

Lemma dedup_and_ratio_nil : dedup_and_ratio [] [] = ([], [], 0%Q).
Proof. reflexivity. Qed.

(** ** Classification of the lines of a class element *)

Lemma classify_lines_spec (lines : list ET.Element) (c0 m0 c m : list Z) :
  classify_lines lines c0 m0 = inr (c, m) →
  (∀ n, n ∈ c ↔ n ∈ c0 ∨ ∃ line h, line ∈ lines ∧ line_record line n h ∧ 0 < h) ∧
  (∀ n, n ∈ m ↔ n ∈ m0 ∨ ∃ line h, line ∈ lines ∧ line_record line n h ∧ h ≤ 0).
Proof.
  revert c0 m0. induction lines as [|line rest IH]; intros c0 m0 H; simpl in H.
  - injection H as <- <-. split; intros n; split; auto.
    + intros [?|(l & h & Hl & _)]; [done | by apply elem_of_nil in Hl].
    + intros [?|(l & h & Hl & _)]; [done | by apply elem_of_nil in Hl].
  - inv_bind H. rename x into num. inv_bind H. rename x into hits.
    assert (Hrec : line_record line num hits) by (split; assumption).
    destruct (Z.ltb_spec 0 hits) as [Hpos|Hneg];
      apply IH in H as [Hc Hm]; split; intros n;
      rewrite ?Hc, ?Hm, ?elem_of_app, ?list_elem_of_singleton.
    + split.
      * intros [[?| ->]|(l & h & Hl & Hr)]; [auto | right | right].
        -- exists line, hits. split; [left | done].
        -- exists l, h. split; [by right | done].
      * intros [?|(l & h & Hl & Hr & Hh)]; [auto|].
        apply elem_of_cons in Hl as [->|Hl].
        -- left; right. destruct Hr as [Hn _], Hrec as [Hn' _]. congruence.
        -- right. eauto.
    + split.
      * intros [?|(l & h & Hl & Hr)]; [auto | right].
        exists l, h. split; [by right | done].
      * intros [?|(l & h & Hl & Hr & Hh)]; [auto|].
        apply elem_of_cons in Hl as [->|Hl]; [|right; eauto].
        destruct Hr as [_ Hh1], Hrec as [_ Hh2]. rewrite Hh1 in Hh2.
        injection Hh2 as ->. lia.
    + split.
      * intros [?|(l & h & Hl & Hr)]; [auto | right].
        exists l, h. split; [by right | done].
      * intros [?|(l & h & Hl & Hr & Hh)]; [auto|].
        apply elem_of_cons in Hl as [->|Hl]; [|right; eauto].
        destruct Hr as [_ Hh1], Hrec as [_ Hh2]. rewrite Hh1 in Hh2.
        injection Hh2 as ->. lia.
    + split.
      * intros [[?| ->]|(l & h & Hl & Hr)]; [auto | right | right].
        -- exists line, hits. split; [left | done].
        -- exists l, h. split; [by right | done].
      * intros [?|(l & h & Hl & Hr & Hh)]; [auto|].
        apply elem_of_cons in Hl as [->|Hl].
        -- left; right. destruct Hr as [Hn _], Hrec as [Hn' _]. congruence.
        -- right. eauto.
Qed.

Lemma parse_coverage_data_for_class_spec (cls : ET.Element) (c m : list Z) (r : Q) :
  parse_coverage_data_for_class cls = inr (c, m, r) →
  (∀ n, n ∈ c ↔ covered_in cls n) ∧ (∀ n, n ∈ m ↔ missed_in cls n).
Proof.
  unfold parse_coverage_data_for_class. intros H. inv_bind H.
  destruct x as [c' m']. injection H as <- <- _.
  apply classify_lines_spec in Hx as [Hc Hm].
  split; intros n; [rewrite Hc | rewrite Hm]; unfold covered_in, missed_in;
    (split; [intros [Hn|?]; [by apply elem_of_nil in Hn | done] | by right]).
Qed.

(** ** Single-file mode: the union over the matching class elements *)

Lemma collect_matching_spec (filename : string) (classes : list ET.Element)
    (c0 m0 c m : list Z) :
  collect_matching filename classes c0 m0 = inr (c, m) →
  (∀ n, n ∈ c ↔ n ∈ c0 ∨
        ∃ cls, cls ∈ classes ∧ class_matches filename cls = true ∧ covered_in cls n) ∧
  (∀ n, n ∈ m ↔ n ∈ m0 ∨
        ∃ cls, cls ∈ classes ∧ class_matches filename cls = true ∧ missed_in cls n).
Proof.
  revert c0 m0. induction classes as [|cls rest IH]; intros c0 m0 H; simpl in H.
  - injection H as <- <-. split; intros n; split; auto.
    + intros [?|(x & Hx & _)]; [done | by apply elem_of_nil in Hx].
    + intros [?|(x & Hx & _)]; [done | by apply elem_of_nil in Hx].
  - destruct (class_matches filename cls) eqn:Hmatch.
    + inv_bind H. destruct x as [[cc cm] r].
      apply parse_coverage_data_for_class_spec in Hx as [Hcc Hcm].
      apply IH in H as [Hc Hm].
      split; intros n; rewrite ?Hc, ?Hm, elem_of_app, ?Hcc, ?Hcm; split.
      * intros [[?|?]|(x & Hx & Hr)]; [auto | right | right].
        -- exists cls. split; [left | done].
        -- exists x. split; [by right | done].
      * intros [?|(x & Hx & Hxm & Hr)]; [auto|].
        apply elem_of_cons in Hx as [->|Hx]; [auto | right; eauto].
      * intros [[?|?]|(x & Hx & Hr)]; [auto | right | right].
        -- exists cls. split; [left | done].
        -- exists x. split; [by right | done].
      * intros [?|(x & Hx & Hxm & Hr)]; [auto|].
        apply elem_of_cons in Hx as [->|Hx]; [auto | right; eauto].
    + apply IH in H as [Hc Hm].
      split; intros n; rewrite ?Hc, ?Hm; split.
      * intros [?|(x & Hx & Hr)]; [auto | right].
        exists x. split; [by right | done].
      * intros [?|(x & Hx & Hxm & Hr)]; [auto|].
        apply elem_of_cons in Hx as [->|Hx]; [congruence | right; eauto].
      * intros [?|(x & Hx & Hr)]; [auto | right].
        exists x. split; [by right | done].
      * intros [?|(x & Hx & Hxm & Hr)]; [auto|].
        apply elem_of_cons in Hx as [->|Hx]; [congruence | right; eauto].
Qed.

(** What the single-file branch returns, on a non-empty [filename]. *)
Lemma cobertura_single_inv (w : World) (self : CoverageProcessor)
    (filename : string) (out : Output) :
  filename ≠ "" →
  parse_coverage_report_cobertura w self (Some filename) = inr out →
  ∃ root all_covered all_missed,
    ET_parse w (file_path self) = inr root ∧
    collect_matching filename (ET.findall_desc root "class") [] [] = inr (all_covered, all_missed) ∧
    out = Single (dedup_and_ratio all_covered all_missed).
Proof.
  intros Hne H. unfold parse_coverage_report_cobertura in H.
  inv_bind H. rename x into root.
  destruct filename as [|a f]; [done|].
  inv_bind H. destruct x as [ac am]. injection H as <-.
  exists root, ac, am. done.
Qed.

Lemma cobertura_single_members (w : World) (self : CoverageProcessor)
    (filename : string) (root : ET.Element) (covered missed : list Z) (ratio : Q) :
  filename ≠ "" →
  ET_parse w (file_path self) = inr root →
  parse_coverage_report_cobertura w self (Some filename)
    = inr (Single (covered, missed, ratio)) →
  let matching cls := cls ∈ ET.findall_desc root "class" ∧ class_matches filename cls = true in
  (∀ n, n ∈ covered ↔ ∃ cls, matching cls ∧ covered_in cls n) ∧
  (∀ n, n ∈ missed ↔ (∃ cls, matching cls ∧ missed_in cls n) ∧
                      ¬ ∃ cls, matching cls ∧ covered_in cls n).
Proof.
  intros Hne Hroot H.
  apply cobertura_single_inv in H as (root' & ac & am & Hroot' & Hcol & Hout); [|done].
  rewrite Hroot in Hroot'. injection Hroot' as <-.
  apply collect_matching_spec in Hcol as [Hc Hm].
  injection Hout as Hcov Hmis _. simpl.
  pose proof (dedup_and_ratio_covered ac am) as Hdc.
  pose proof (dedup_and_ratio_missed ac am) as Hdm.
  unfold dedup_and_ratio in Hdc, Hdm; simpl in Hdc, Hdm.
  rewrite <- Hcov in Hdc. rewrite <- Hmis in Hdm.
  assert (Hc' : ∀ n, n ∈ covered ↔
            ∃ cls, (cls ∈ ET.findall_desc root "class" ∧ class_matches filename cls = true)
                   ∧ covered_in cls n).
  { intros n. rewrite Hdc, Hc. split.
    - intros [Hn|(cls & ? & ? & ?)]; [by apply elem_of_nil in Hn | eauto].
    - intros (cls & [? ?] & ?). right. eauto. }
  split; [exact Hc'|].
  intros n. rewrite Hdm, <- Hdc, Hc', Hm. split.
  - intros [[Hn|(cls & ? & ? & ?)] Hnot]; [by apply elem_of_nil in Hn|].
    split; [eauto | done].
  - intros [(cls & [? ?] & ?) Hnot]. split; [right; eauto | done].
Qed.

(** ** Cobertura, single-file mode *)

(** C3. In single-file mode the covered lines are those hit in some
    matching class element, and the missed lines those missed in some
    matching class element and hit in none: a line hit in one fragment
    and missed in another is covered and is not missed.  The document with
    two [app.py] fragments, lines 1 hit, 2 missed and 3 hit, 4 missed,
    yields covered {1,3}, missed {2,4} and ratio 1/2. *)
Theorem C3_cobertura_fragments_merge :
  (∀ (w : World) (self : CoverageProcessor) (filename : string) (root : ET.Element)
     (covered missed : list Z) (ratio : Q),
     filename ≠ "" →
     ET_parse w (file_path self) = inr root →
     parse_coverage_report_cobertura w self (Some filename)
       = inr (Single (covered, missed, ratio)) →
     let matching cls :=
       cls ∈ ET.findall_desc root "class" ∧ class_matches filename cls = true in
     (∀ n, n ∈ covered ↔ ∃ cls, matching cls ∧ covered_in cls n) ∧
     (∀ n, n ∈ missed ↔ (∃ cls, matching cls ∧ missed_in cls n) ∧
                         ¬ ∃ cls, matching cls ∧ covered_in cls n) ∧
     (∀ n cls1 cls2, matching cls1 → covered_in cls1 n →
                     matching cls2 → missed_in cls2 n →
                     n ∈ covered ∧ n ∉ missed) ∧
     triple_invariant (covered, missed, ratio)) ∧
  (∃ covered missed,
     outcome (parse_coverage_report (with_xml two_fragments 0 (bare_world "/"))
                (processor "app.py" "cobertura" false))
       = inr (Single (covered, missed, 1 # 2)) ∧
     covered ≡ₚ [1; 3] ∧ missed ≡ₚ [2; 4]).
Proof.
  split.
  - intros w self filename root covered missed ratio Hne Hroot H matching.
    destruct (cobertura_single_members w self filename root covered missed ratio
                Hne Hroot H) as [Hc Hm].
    fold matching in Hc, Hm.
    split; [exact Hc|]. split; [exact Hm|]. split.
    + intros n cls1 cls2 H1 Hc1 H2 Hm2. split.
      * apply Hc. eauto.
      * rewrite Hm. intros [_ Hnot]. apply Hnot. eauto.
    + apply cobertura_single_inv in H as (r & ac & am & _ & _ & Hout); [|done].
      injection Hout as -> -> ->. apply dedup_and_ratio_invariant.
  - exists [3; 1], [4; 2]. split; [vm_compute; reflexivity|].
    split; apply (Permutation_swap _ _ []).
Qed.

Lemma C3_cobertura_fragments_merge_witness :
  let w := with_xml overlapping_fragments 0 (bare_world "/") in
  let self := processor "app.py" "cobertura" false in
  let matching cls :=
    cls ∈ ET.findall_desc overlapping_fragments "class" ∧ class_matches "app.py" cls = true in
  (∀ n, n ∈ [2; 1] ↔ ∃ cls, matching cls ∧ covered_in cls n) ∧
  (∀ n, n ∈ [4] ↔ (∃ cls, matching cls ∧ missed_in cls n) ∧
                   ¬ ∃ cls, matching cls ∧ covered_in cls n) ∧
  (∀ n cls1 cls2, matching cls1 → covered_in cls1 n →
                  matching cls2 → missed_in cls2 n →
                  n ∈ [2; 1] ∧ n ∉ [4]) ∧
  triple_invariant ([2; 1], [4], 2 # 3).
Proof.
  apply (proj1 C3_cobertura_fragments_merge
           (with_xml overlapping_fragments 0 (bare_world "/"))
           (processor "app.py" "cobertura" false) "app.py" overlapping_fragments
           [2; 1] [4] (2 # 3)).
  - discriminate.
  - reflexivity.
  - vm_compute. reflexivity.
Defined.

(** ** The diff-cover loop *)

Lemma find_stats_Some (comps : list string) (items : list (string * Stats)) (st : Stats) :
  find_stats comps items = Some st ↔
  ∃ pre key post,
    items = (pre ++ (key, st) :: post)%list ∧
    components_match comps key = true ∧
    ∀ k s, (k, s) ∈ pre → components_match comps k = false.
Proof.
  induction items as [|[k s] rest IH]; simpl.
  - split; [discriminate|]. intros (pre & key & post & H & _). by destruct pre.
  - destruct (components_match comps k) eqn:Hk.
    + split.
      * intros [= ->]. exists [], k, rest. split; [done|]. split; [done|].
        intros k' s' Hin. by apply elem_of_nil in Hin.
      * intros (pre & key & post & H & Hkey & Hpre).
        destruct pre as [|[k' s'] pre]; simpl in H.
        -- congruence.
        -- injection H as <- <- _. rewrite (Hpre k s) in Hk; [done | left].
    + rewrite IH. split.
      * intros (pre & key & post & -> & Hkey & Hpre).
        exists ((k, s) :: pre), key, post. split; [done|]. split; [done|].
        intros k' s' [[= -> ->]|Hin]%elem_of_cons; eauto.
      * intros (pre & key & post & H & Hkey & Hpre).
        destruct pre as [|[k' s'] pre]; simpl in H.
        -- injection H as -> -> _. congruence.
        -- injection H as <- <- ->. exists pre, key, post.
           split; [done|]. split; [done|].
           intros k2 s2 Hin. apply (Hpre k2 s2). by right.
Qed.

Lemma find_stats_None (comps : list string) (items : list (string * Stats)) :
  find_stats comps items = None ↔
  ∀ k s, (k, s) ∈ items → components_match comps k = false.
Proof.
  induction items as [|[k s] rest IH]; simpl.
  - split; [|done]. intros _ k s Hin. by apply elem_of_nil in Hin.
  - destruct (components_match comps k) eqn:Hk.
    + split; [discriminate|]. intros H. rewrite (H k s) in Hk; [done | left].
    + rewrite IH. split.
      * intros H k' s' [[= -> ->]|Hin]%elem_of_cons; eauto.
      * intros H k' s' Hin. apply (H k' s'). by right.
Qed.

(** What [parse_json_diff_coverage_report] returns when it returns. *)
Lemma diff_cover_inv (w : World) (self : CoverageProcessor) (t : Triple) :
  parse_json_diff_coverage_report w self = inr t →
  ∃ p rd rel,
    diff_coverage_report_path self = Some p ∧
    json_load w p = inr rd ∧
    posixpath.relpath (getcwd w) (src_file_path self) = Some rel ∧
    t = match find_stats (PyStr.split rel posixpath.sep) (src_stats rd) with
        | Some st => (covered_lines st, violation_lines st, Qred (percent_covered st / 100))
        | None => ([], [], 0%Q)
        end.
Proof.
  unfold parse_json_diff_coverage_report. intros H.
  inv_bind H. rename x into rd. inv_bind H. rename x into rel.
  destruct (diff_coverage_report_path self) as [p|]; [|discriminate].
  destruct (posixpath.relpath (getcwd w) (src_file_path self)) as [rel'|];
    [|discriminate].
  injection Hx0 as ->.
  exists p, rd, rel. split; [done|]. split; [done|]. split; [done|].
  destruct (find_stats _ _); by injection H as <-.
Qed.

Lemma diff_cover_eq (w : World) (self : CoverageProcessor) (p rel : string)
    (rd : ReportData) :
  diff_coverage_report_path self = Some p →
  json_load w p = inr rd →
  posixpath.relpath (getcwd w) (src_file_path self) = Some rel →
  parse_json_diff_coverage_report w self
  = inr match find_stats (PyStr.split rel posixpath.sep) (src_stats rd) with
        | Some st => (covered_lines st, violation_lines st, Qred (percent_covered st / 100))
        | None => ([], [], 0%Q)
        end.
Proof.
  intros Hp Hrd Hrel. unfold parse_json_diff_coverage_report.
  rewrite Hp, Hrd, Hrel. simpl. by destruct (find_stats _ _).
Qed.

(** ** LCOV: the ratio is that of the lengths of the lists *)

Lemma lcov_inv (w : World) (self : CoverageProcessor) (t : Triple) :
  outcome (parse_coverage_report_lcov w self) = inr t →
  ∃ c m,
    lcov_read w self (posixpath.basename (src_file_path self)) = inr (c, m) ∧
    t = (c, m, ratio_of (length c) (length m)).
Proof.
  unfold parse_coverage_report_lcov.
  destruct (lcov_read w self _) as [e|[c m]].
  - destruct (is_OSError e); discriminate.
  - simpl. intros [= <-]. exists c, m. split; [done|].
    unfold ratio_of. by destruct (length c + length m)%nat.
Qed.

(** ** All-files mode returns deduplicated entries *)

Lemma cobertura_all_inv (w : World) (self : CoverageProcessor)
    (filename : option string) (out : Output) :
  filename = None ∨ filename = Some "" →
  parse_coverage_report_cobertura w self filename = inr out →
  ∃ root file_map,
    ET_parse w (file_path self) = inr root ∧
    group_by_filename (ET.findall_desc root "class") ∅ = inr file_map ∧
    out = PerFile ((fun '(c, m) => dedup_and_ratio c m) <$> file_map).
Proof.
  intros Hf H. unfold parse_coverage_report_cobertura in H.
  inv_bind H. rename x into root.
  destruct Hf as [-> | ->]; inv_bind H; injection H as <-; by exists root, x.
Qed.

(** ** The invariant of the returned triple *)

(** The invariant fails on what the LCOV parser returns on a record
    that lists line 1 both hit and not hit, and on what the diff-cover
    parser returns on a record whose lists overlap. *)
Lemma C1_invariant_counterexample :
  (outcome (parse_coverage_report_lcov (with_lcov lcov_duplicate None 0 (bare_world "/"))
              (processor "app.py" "lcov" false))
     = inr ([1], [1], 1 # 2)
   ∧ ¬ triple_invariant ([1], [1], 1 # 2)) ∧
  (parse_json_diff_coverage_report (with_json diff_odd 0 (bare_world "/"))
     (processor "app.py" "diff_cover_json" false)
     = inr ([1], [1; 2], 1 # 1)
   ∧ ¬ triple_invariant ([1], [1; 2], 1 # 1)).
Proof.
  split; (split; [vm_compute; reflexivity|]); intros [Hdisj _]; simpl in Hdisj;
    apply (Hdisj 1); set_solver.
Qed.

(** C1, as it holds of the code.  What the Cobertura parser returns satisfies the
    invariant, in single-file mode and for every entry of the mapping
    of all-files mode.  The LCOV parser returns the lists as read, and
    its ratio is that of their lengths.  The diff-cover parser returns
    the lists of one record of the report and its percentage divided by
    100, or empty lists and 0. *)
Theorem C1_invariant_per_parser (w : World) (self : CoverageProcessor) :
  (∀ filename out,
     parse_coverage_report_cobertura w self filename = inr out →
     output_invariant out) ∧
  (∀ covered missed ratio,
     outcome (parse_coverage_report_lcov w self) = inr (covered, missed, ratio) →
     lcov_read w self (posixpath.basename (src_file_path self)) = inr (covered, missed) ∧
     ratio = ratio_of (length covered) (length missed)) ∧
  (∀ t,
     parse_json_diff_coverage_report w self = inr t →
     t = ([], [], 0%Q) ∨
     ∃ p rd key st,
       diff_coverage_report_path self = Some p ∧ json_load w p = inr rd ∧
       (key, st) ∈ src_stats rd ∧
       t = (covered_lines st, violation_lines st, Qred (percent_covered st / 100))).
Proof.
  split; [|split].
  - intros filename out H.
    destruct filename as [[|a f]|].
    + apply cobertura_all_inv in H as (root & fm & _ & _ & ->); [|by right].
      intros k t [[c m] [<- _]]%lookup_fmap_Some. apply dedup_and_ratio_invariant.
    + apply cobertura_single_inv in H as (root & ac & am & _ & _ & ->); [|done].
      apply dedup_and_ratio_invariant.
    + apply cobertura_all_inv in H as (root & fm & _ & _ & ->); [|by left].
      intros k t [[c m] [<- _]]%lookup_fmap_Some. apply dedup_and_ratio_invariant.
  - intros covered missed ratio H.
    apply lcov_inv in H as (c & m & Hread & [= -> -> ->]). done.
  - intros t H. apply diff_cover_inv in H as (p & rd & rel & Hp & Hrd & _ & ->).
    destruct (find_stats _ _) as [st|] eqn:Hfind; [right | by left].
    apply find_stats_Some in Hfind as (pre & key & post & Hitems & _).
    exists p, rd, key, st. split; [done|]. split; [done|]. split; [|done].
    rewrite Hitems. apply elem_of_app. right. left.
Qed.

Lemma C1_invariant_per_parser_witness :
  output_invariant (Single ([3; 1], [4; 2], 1 # 2)) ∧
  (lcov_read (with_lcov lcov_app None 0 (bare_world "/")) (processor "app.py" "lcov" false)
     (posixpath.basename "app.py") = inr ([1], [2]) ∧
   1 # 2 = ratio_of (length [1]) (length [2])) ∧
  (([1; 3; 5], [2; 4; 6], 1 # 2) = (([], [], 0%Q) : Triple) ∨
   ∃ p rd key st,
     diff_coverage_report_path (processor "path/to/app.py" "diff_cover_json" false) = Some p ∧
     json_load (with_json diff_app 0 (bare_world "/")) p = inr rd ∧
     (key, st) ∈ src_stats rd ∧
     ([1; 3; 5], [2; 4; 6], 1 # 2)
     = (covered_lines st, violation_lines st, Qred (percent_covered st / 100))).
Proof.
  split; [|split].
  - apply (proj1 (C1_invariant_per_parser (with_xml two_fragments 0 (bare_world "/"))
                    (processor "app.py" "cobertura" false)) (Some "app.py")).
    vm_compute. reflexivity.
  - apply (proj1 (proj2 (C1_invariant_per_parser (with_lcov lcov_app None 0 (bare_world "/"))
                           (processor "app.py" "lcov" false))) [1] [2] (1 # 2)).
    vm_compute. reflexivity.
  - apply (proj2 (proj2 (C1_invariant_per_parser (with_json diff_app 0 (bare_world "/"))
                           (processor "path/to/app.py" "diff_cover_json" false)))
             ([1; 3; 5], [2; 4; 6], 1 # 2)).
    vm_compute. reflexivity.
Defined.

(** ** All-files mode: the grouping by filename *)

Lemma nonempty_true (s : string) : PyStr.nonempty s = true ↔ s ≠ "".
Proof.
  unfold PyStr.nonempty. rewrite negb_true_iff. apply String.eqb_neq.
Qed.

Lemma group_by_filename_spec (classes : list ET.Element)
    (fm0 fm : gmap string (list Z * list Z)) :
  group_by_filename classes fm0 = inr fm →
  ∀ f,
    let named cls := cls ∈ classes ∧ ET.get cls "filename" = Some f ∧ f ≠ "" in
    let old := default (([], []) : list Z * list Z) (fm0 !! f) in
    (is_Some (fm !! f) ↔ is_Some (fm0 !! f) ∨ ∃ cls, named cls) ∧
    (∀ c m, fm !! f = Some (c, m) →
       (∀ n, n ∈ c ↔ n ∈ old.1 ∨ ∃ cls, named cls ∧ covered_in cls n) ∧
       (∀ n, n ∈ m ↔ n ∈ old.2 ∨ ∃ cls, named cls ∧ missed_in cls n)).
Proof.
  revert fm0. induction classes as [|cls rest IH]; intros fm0 H f; simpl in H.
  - injection H as <-. simpl. split.
    + split; [by left|]. intros [?|(x & Hx & _)]; [done | by apply elem_of_nil in Hx].
    + intros c m Hcm. rewrite Hcm. simpl.
      split; intros n; (split; [by left|]);
        (intros [?|(x & [Hx _] & _)]; [done | by apply elem_of_nil in Hx]).
  - assert (Hskip : group_by_filename rest fm0 = inr fm →
              ¬ (ET.get cls "filename" = Some f ∧ f ≠ "") →
              let named cls0 :=
                cls0 ∈ cls :: rest ∧ ET.get cls0 "filename" = Some f ∧ f ≠ "" in
              let old := default (([], []) : list Z * list Z) (fm0 !! f) in
              (is_Some (fm !! f) ↔ is_Some (fm0 !! f) ∨ ∃ cls0, named cls0) ∧
              (∀ c m, fm !! f = Some (c, m) →
                 (∀ n, n ∈ c ↔ n ∈ old.1 ∨ ∃ cls0, named cls0 ∧ covered_in cls0 n) ∧
                 (∀ n, n ∈ m ↔ n ∈ old.2 ∨ ∃ cls0, named cls0 ∧ missed_in cls0 n))).
    { intros H' Hnot. destruct (IH fm0 H' f) as [Hs Hm]. simpl. split.
      - rewrite Hs. split.
        + intros [?|(x & Hx & Hn)]; [by left | right].
          exists x. split; [by right | done].
        + intros [?|(x & Hx & Hn)]; [by left|].
          apply elem_of_cons in Hx as [->|Hx]; [done | right; by exists x].
      - intros c m Hcm. destruct (Hm c m Hcm) as [Hc Hmi].
        split; intros n; rewrite ?Hc, ?Hmi; split.
        + intros [?|(x & [Hx Hn] & Hr)]; [by left | right].
          exists x. split; [split; [by right | done] | done].
        + intros [?|(x & [Hx Hn] & Hr)]; [by left|].
          apply elem_of_cons in Hx as [->|Hx]; [done | right; by exists x].
        + intros [?|(x & [Hx Hn] & Hr)]; [by left | right].
          exists x. split; [split; [by right | done] | done].
        + intros [?|(x & [Hx Hn] & Hr)]; [by left|].
          apply elem_of_cons in Hx as [->|Hx]; [done | right; by exists x]. }
    destruct (ET.get cls "filename") as [g|] eqn:Hg;
      [|apply Hskip; [done | by intros [? _]]].
    destruct (PyStr.nonempty g) eqn:Hne;
      [|apply Hskip; [done|]; intros [[= ->] Hf];
        apply nonempty_true in Hf; congruence].
    clear Hskip. apply nonempty_true in Hne.
    inv_bind H. destruct x as [[cc cm] r].
    apply parse_coverage_data_for_class_spec in Hx as [Hcc Hcm].
    destruct (default (([], []) : list Z * list Z) (fm0 !! g)) as [fc fmi] eqn:Hdef.
    destruct (IH _ H f) as [Hs Hm]. simpl.
    destruct (decide (f = g)) as [->|Hfg].
    + rewrite lookup_insert_eq in Hs, Hm. rewrite Hdef. simpl in *. split.
      * split; [intros _; right | intros _; apply Hs; by left].
        exists cls. split; [left | done].
      * intros c m Hcm'. destruct (Hm c m Hcm') as [Hc Hmi].
        split; intros n; rewrite ?Hc, ?Hmi, elem_of_app, ?Hcc, ?Hcm; split.
        -- intros [[?|?]|(x & [Hx Hn] & Hr)]; [by left | right | right].
           ++ exists cls. split; [split; [left | done] | done].
           ++ exists x. split; [split; [by right | done] | done].
        -- intros [?|(x & [Hx Hn] & Hr)]; [by left; left|].
           apply elem_of_cons in Hx as [->|Hx]; [by left; right | right; by exists x].
        -- intros [[?|?]|(x & [Hx Hn] & Hr)]; [by left | right | right].
           ++ exists cls. split; [split; [left | done] | done].
           ++ exists x. split; [split; [by right | done] | done].
        -- intros [?|(x & [Hx Hn] & Hr)]; [by left; left|].
           apply elem_of_cons in Hx as [->|Hx]; [by left; right | right; by exists x].
    + rewrite lookup_insert_ne in Hs, Hm by done. split.
      * rewrite Hs. split.
        -- intros [?|(x & Hx & Hn)]; [by left | right].
           exists x. split; [by right | done].
        -- intros [?|(x & Hx & Hn & Hf)]; [by left|].
           apply elem_of_cons in Hx as [->|Hx]; [congruence | right; by exists x].
      * intros c m Hcm'. destruct (Hm c m Hcm') as [Hc Hmi].
        split; intros n; rewrite ?Hc, ?Hmi; split.
        -- intros [?|(x & [Hx Hn] & Hr)]; [by left | right].
           exists x. split; [split; [by right | done] | done].
        -- intros [?|(x & [Hx [Hn Hf]] & Hr)]; [by left|].
           apply elem_of_cons in Hx as [->|Hx]; [congruence | right; by exists x].
        -- intros [?|(x & [Hx Hn] & Hr)]; [by left | right].
           exists x. split; [split; [by right | done] | done].
        -- intros [?|(x & [Hx [Hn Hf]] & Hr)]; [by left|].
           apply elem_of_cons in Hx as [->|Hx]; [congruence | right; by exists x].
Qed.

Lemma cobertura_all_members (w : World) (self : CoverageProcessor)
    (root : ET.Element) (d : gmap string Triple) :
  ET_parse w (file_path self) = inr root →
  parse_coverage_report_cobertura w self None = inr (PerFile d) →
  ∀ f,
    let named cls :=
      cls ∈ ET.findall_desc root "class" ∧ ET.get cls "filename" = Some f ∧ f ≠ "" in
    (is_Some (d !! f) ↔ ∃ cls, named cls) ∧
    (∀ covered missed ratio, d !! f = Some (covered, missed, ratio) →
       (∀ n, n ∈ covered ↔ ∃ cls, named cls ∧ covered_in cls n) ∧
       (∀ n, n ∈ missed ↔ (∃ cls, named cls ∧ missed_in cls n) ∧
                           ¬ ∃ cls, named cls ∧ covered_in cls n) ∧
       triple_invariant (covered, missed, ratio)).
Proof.
  intros Hroot H f named.
  apply cobertura_all_inv in H as (root' & fm & Hroot' & Hgroup & [= ->]); [|by left].
  rewrite Hroot in Hroot'. injection Hroot' as <-.
  destruct (group_by_filename_spec _ _ _ Hgroup f) as [Hs Hm].
  rewrite lookup_empty in Hs, Hm. simpl in Hs, Hm. fold named in Hs, Hm.
  rewrite lookup_fmap. split.
  - rewrite fmap_is_Some, Hs. split; [|by right].
    intros [[? [=]]|?]; done.
  - intros covered missed ratio Hd. rewrite lookup_fmap in Hd.
    apply fmap_Some in Hd as ([c m] & Hfm & Heq).
    destruct (Hm c m Hfm) as [Hc Hmi].
    pose proof (dedup_and_ratio_covered c m) as Hdc.
    pose proof (dedup_and_ratio_missed c m) as Hdm.
    pose proof (dedup_and_ratio_invariant c m) as Hinv.
    rewrite <- Heq in Hdc, Hdm, Hinv. simpl in Hdc, Hdm.
    assert (Hc' : ∀ n, n ∈ covered ↔ ∃ cls, named cls ∧ covered_in cls n).
    { intros n. rewrite Hdc, Hc. split; [|by right].
      intros [Hn|?]; [by apply elem_of_nil in Hn | done]. }
    split; [exact Hc'|]. split; [|exact Hinv].
    intros n. rewrite Hdm, <- Hdc, Hc', Hmi. split.
    + intros [[Hn|?] Hnot]; [by apply elem_of_nil in Hn | done].
    + intros [? Hnot]. split; [by right | done].
Qed.

(** ** The dispatcher under the feature flag *)

(** With the flag on and the type [lcov], the dispatcher returns a
    single triple, not a mapping. *)
Lemma C2_flag_lcov_counterexample :
  use_report_coverage_feature_flag (processor "app.py" "lcov" true) = true ∧
  outcome (parse_coverage_report (with_lcov lcov_app None 0 (bare_world "/"))
             (processor "app.py" "lcov" true))
    = inr (Single ([1], [2], 1 # 2)) ∧
  ¬ ∃ d, outcome (parse_coverage_report (with_lcov lcov_app None 0 (bare_world "/"))
                    (processor "app.py" "lcov" true))
         = inr (PerFile d).
Proof.
  split; [reflexivity|]. split; [vm_compute; reflexivity|].
  intros [d Hd]. vm_compute in Hd. discriminate.
Qed.

(** C2, as it holds of the code.  With the flag on, the Cobertura parser runs in
    all-files mode: it returns a mapping whose keys are the non-empty
    filename attributes of the class elements of the report, each with
    the merged and deduplicated lines of the class elements of that
    name.  The LCOV parser is called as with the flag off and returns
    the single triple of the target file. *)
Theorem C2_flag_all_files (w : World) (self : CoverageProcessor) :
  use_report_coverage_feature_flag self = true →
  (coverage_type self = "cobertura" →
   ∀ out, outcome (parse_coverage_report w self) = inr out →
     ∃ root d,
       ET_parse w (file_path self) = inr root ∧ out = PerFile d ∧
       ∀ f,
         let named cls :=
           cls ∈ ET.findall_desc root "class" ∧ ET.get cls "filename" = Some f ∧ f ≠ "" in
         (is_Some (d !! f) ↔ ∃ cls, named cls) ∧
         (∀ covered missed ratio, d !! f = Some (covered, missed, ratio) →
            (∀ n, n ∈ covered ↔ ∃ cls, named cls ∧ covered_in cls n) ∧
            (∀ n, n ∈ missed ↔ (∃ cls, named cls ∧ missed_in cls n) ∧
                                ¬ ∃ cls, named cls ∧ covered_in cls n) ∧
            triple_invariant (covered, missed, ratio))) ∧
  (coverage_type self = "lcov" →
   parse_coverage_report w self
   = parse_coverage_report w
       {| file_path := file_path self;
          src_file_path := src_file_path self;
          coverage_type := coverage_type self;
          use_report_coverage_feature_flag := false;
          diff_coverage_report_path := diff_coverage_report_path self |} ∧
   ∀ out, outcome (parse_coverage_report w self) = inr out →
     ∃ t, outcome (parse_coverage_report_lcov w self) = inr t ∧ out = Single t).
Proof.
  intros Hflag. split.
  - intros Htype out H. unfold parse_coverage_report in H.
    rewrite Hflag, Htype in H. simpl in H.
    assert (Hall := H). apply cobertura_all_inv in Hall as (root & fm & Hroot & _ & ->);
      [|by left].
    eexists root, _. split; [done|]. split; [reflexivity|].
    apply (cobertura_all_members w self root _ Hroot H).
  - intros Htype. split.
    + unfold parse_coverage_report. simpl. rewrite Hflag, Htype. reflexivity.
    + intros out H. unfold parse_coverage_report in H.
      rewrite Hflag, Htype in H. simpl in H.
      destruct (parse_coverage_report_lcov w self) as [l [e|t]]; simpl in H; [done|].
      injection H as <-. by exists t.
Qed.

Lemma C2_flag_all_files_witness :
  (∃ root d,
     ET_parse (with_xml two_fragments 0 (bare_world "/"))
       (file_path (processor "app.py" "cobertura" true)) = inr root ∧
     (PerFile {[ "app.py" := ([3; 1], [4; 2], 1 # 2) ]} : Output) = PerFile d ∧
     ∀ f,
       let named cls :=
         cls ∈ ET.findall_desc root "class" ∧ ET.get cls "filename" = Some f ∧ f ≠ "" in
       (is_Some (d !! f) ↔ ∃ cls, named cls) ∧
       (∀ covered missed ratio, d !! f = Some (covered, missed, ratio) →
          (∀ n, n ∈ covered ↔ ∃ cls, named cls ∧ covered_in cls n) ∧
          (∀ n, n ∈ missed ↔ (∃ cls, named cls ∧ missed_in cls n) ∧
                              ¬ ∃ cls, named cls ∧ covered_in cls n) ∧
          triple_invariant (covered, missed, ratio))) ∧
  (∃ t, outcome (parse_coverage_report_lcov (with_lcov lcov_app None 0 (bare_world "/"))
                   (processor "app.py" "lcov" true)) = inr t ∧
        (Single ([1], [2], 1 # 2) : Output) = Single t).
Proof.
  split.
  - apply (proj1 (C2_flag_all_files (with_xml two_fragments 0 (bare_world "/"))
                    (processor "app.py" "cobertura" true) eq_refl) eq_refl).
    vm_compute. reflexivity.
  - apply (proj2 (proj2 (C2_flag_all_files (with_lcov lcov_app None 0 (bare_world "/"))
                           (processor "app.py" "lcov" true) eq_refl) eq_refl)).
    vm_compute. reflexivity.
Defined.

(** ** Diff-cover: matching on path components *)

Lemma slice_from_neg_spec {A} (t l : list A) :
  t ≠ [] → slice_from_neg (length t) l = t ↔ ∃ pre, l = (pre ++ t)%list.
Proof.
  intros Ht. unfold slice_from_neg.
  destruct (Nat.eqb_spec (length t) 0) as [H0|_].
  { destruct t; [done | discriminate]. }
  split.
  - intros H. exists (take (length l - length t) l).
    remember (length l - length t)%nat as k. rewrite <- H.
    symmetry. apply take_drop.
  - intros [pre ->]. rewrite length_app.
    replace (length pre + length t - length t)%nat with (length pre) by lia.
    apply drop_app_length.
Qed.

Lemma components_match_spec (rel key : string) :
  components_match (PyStr.split rel posixpath.sep) key = true ↔ component_suffix rel key.
Proof.
  unfold components_match, component_suffix. rewrite bool_decide_eq_true.
  apply slice_from_neg_spec. intros H.
  pose proof (split_length_pos rel posixpath.sep) as Hlen.
  rewrite H in Hlen. simpl in Hlen. lia.
Qed.

Lemma components_match_false (rel key : string) :
  components_match (PyStr.split rel posixpath.sep) key = false ↔ ¬ component_suffix rel key.
Proof. rewrite <- components_match_spec. symmetry. apply not_true_iff_false. Qed.

(** For the absolute target [/w/a/app.py] and the current directory
    [/w], the key [a/app.py] is matched, though its trailing components
    are not the four components of the target path. *)
Lemma C4_diff_match_counterexample :
  parse_json_diff_coverage_report (with_json [("a/app.py", stats_a)] 0 (bare_world "/w"))
    (processor "/w/a/app.py" "diff_cover_json" false)
    = inr (covered_lines stats_a, violation_lines stats_a, 1 # 2) ∧
  ¬ component_suffix "/w/a/app.py" "a/app.py".
Proof.
  split; [vm_compute; reflexivity|].
  intros [pre H]. apply (f_equal length) in H. rewrite length_app in H.
  change (length (PyStr.split "a/app.py" posixpath.sep)) with 2%nat in H.
  change (length (PyStr.split _ posixpath.sep)) with 4%nat in H.
  lia.
Qed.

(** C4, as it holds of the code.  A key of [src_stats] matches iff its trailing path
    components are, in order, the components of the target path made
    relative to the current directory; the first matching key in
    iteration order gives the result, its ratio being [percent_covered]
    divided by 100; with no matching key the result is empty with
    ratio 0. *)
Theorem C4_diff_cover_match (w : World) (self : CoverageProcessor)
    (p rel : string) (rd : ReportData) :
  diff_coverage_report_path self = Some p →
  json_load w p = inr rd →
  posixpath.relpath (getcwd w) (src_file_path self) = Some rel →
  (∀ key, components_match (PyStr.split rel posixpath.sep) key = true
          ↔ component_suffix rel key) ∧
  (∀ pre key st post,
     src_stats rd = (pre ++ (key, st) :: post)%list →
     component_suffix rel key →
     (∀ k s, (k, s) ∈ pre → ¬ component_suffix rel k) →
     parse_json_diff_coverage_report w self
     = inr (covered_lines st, violation_lines st, Qred (percent_covered st / 100))) ∧
  ((∀ k s, (k, s) ∈ src_stats rd → ¬ component_suffix rel k) →
   parse_json_diff_coverage_report w self = inr ([], [], 0%Q)).
Proof.
  intros Hp Hrd Hrel. split; [intros key; apply components_match_spec|].
  rewrite (diff_cover_eq w self p rel rd Hp Hrd Hrel). split.
  - intros pre key st post Hitems Hkey Hpre.
    assert (Hfind : find_stats (PyStr.split rel posixpath.sep) (src_stats rd) = Some st).
    { apply find_stats_Some. exists pre, key, post. split; [done|].
      split; [by apply components_match_spec|].
      intros k s Hin. apply components_match_false. by apply (Hpre k s). }
    by rewrite Hfind.
  - intros Hnone.
    assert (Hfind : find_stats (PyStr.split rel posixpath.sep) (src_stats rd) = None).
    { apply find_stats_None. intros k s Hin.
      apply components_match_false. by apply (Hnone k s). }
    by rewrite Hfind.
Qed.

Lemma C4_diff_cover_match_witness :
  let w := with_json diff_nested 0 (bare_world "/w") in
  let self := processor "a/b/app.py" "diff_cover_json" false in
  component_suffix "a/b/app.py" "src/a/b/app.py" ∧
  ¬ component_suffix "a/b/app.py" "src/xa/b/app.py" ∧
  parse_json_diff_coverage_report w self = inr ([1; 3; 5], [6], 3 # 4).
Proof.
  intros w self.
  destruct (C4_diff_cover_match w self "diff_coverage.json" "a/b/app.py"
              {| src_stats := diff_nested |} eq_refl eq_refl eq_refl)
    as (Hmatch & Hfirst & _).
  assert (Hyes : component_suffix "a/b/app.py" "src/a/b/app.py").
  { apply Hmatch. vm_compute. reflexivity. }
  assert (Hno : ¬ component_suffix "a/b/app.py" "src/xa/b/app.py").
  { intros H. apply Hmatch in H. vm_compute in H. discriminate. }
  split; [exact Hyes|]. split; [exact Hno|].
  apply (Hfirst [("src/xa/b/app.py", stats_a)] "src/a/b/app.py" stats_b
           [("lib/a/b/app.py", stats_a)] eq_refl Hyes).
  intros k s Hin. apply list_elem_of_singleton in Hin. injection Hin as -> ->. exact Hno.
Defined.

(** ** The freshness check *)

Lemma bind_unit_nil {A} (m : M A) : (([], inr tt) : M unit) ≫= (λ _, m) = m.
Proof. by destruct m as [l r]. Qed.

(** C5. [verify_report_update] raises, and then the assertion error
    that names the path, iff no report exists at the path; nothing is
    parsed then.  When the report exists and its modification time is
    not greater than the time of the test command, one warning is
    logged and the report is parsed all the same. *)
Theorem C5_verify_report_update (w : World) (self : CoverageProcessor)
    (time_of_test_command : Z) :
  ((∃ e, outcome (verify_report_update w self time_of_test_command) = inl e)
   ↔ mtime_ms w (file_path self) = None) ∧
  (mtime_ms w (file_path self) = None →
   verify_report_update w self time_of_test_command
     = ([], inl (AssertionError (not_generated self))) ∧
   (∃ pre post, not_generated self = pre ++ file_path self ++ post) ∧
   process_coverage_report w self time_of_test_command
     = ([], inl (AssertionError (not_generated self)))) ∧
  (∀ file_mod_time_ms,
     mtime_ms w (file_path self) = Some file_mod_time_ms →
     ¬ file_mod_time_ms > time_of_test_command →
     verify_report_update w self time_of_test_command
       = ([(WARNING, not_updated file_mod_time_ms time_of_test_command)], inr tt) ∧
     logged (process_coverage_report w self time_of_test_command)
       = (WARNING, not_updated file_mod_time_ms time_of_test_command)
         :: logged (parse_coverage_report w self) ∧
     outcome (process_coverage_report w self time_of_test_command)
       = outcome (parse_coverage_report w self)) ∧
  (∀ file_mod_time_ms,
     mtime_ms w (file_path self) = Some file_mod_time_ms →
     file_mod_time_ms > time_of_test_command →
     verify_report_update w self time_of_test_command = ([], inr tt) ∧
     process_coverage_report w self time_of_test_command = parse_coverage_report w self).
Proof.
  unfold process_coverage_report, verify_report_update.
  destruct (mtime_ms w (file_path self)) as [m|] eqn:Hm.
  - split; [|split; [done|split]].
    + split; [|done]. intros [e He].
      destruct (negb (time_of_test_command <? m)); discriminate.
    + intros m' [= <-] Hle.
      destruct (Z.ltb_spec time_of_test_command m) as [?|_]; [lia|]. simpl.
      split; [done|]. by destruct (parse_coverage_report w self) as [l [e|x]].
    + intros m' [= <-] Hgt.
      destruct (Z.ltb_spec time_of_test_command m) as [_|?]; [|lia]. simpl.
      split; [done|]. apply bind_unit_nil.
  - split; [|split; [|split; intros; discriminate]].
    + split; [done|]. intros _. by eexists.
    + intros _. split; [done|]. split; [|done].
      exists ("Fatal: Coverage report " ++ dq), (dq ++ " was not generated.").
      unfold not_generated. by rewrite !str_app_assoc.
Qed.

Lemma C5_verify_report_update_witness :
  let w := with_xml two_fragments 1000 (bare_world "/") in
  let self := processor "app.py" "cobertura" false in
  (verify_report_update (bare_world "/") self 1000
     = ([], inl (AssertionError (not_generated self))) ∧
   (∃ pre post, not_generated self = pre ++ file_path self ++ post) ∧
   process_coverage_report (bare_world "/") self 1000
     = ([], inl (AssertionError (not_generated self)))) ∧
  (verify_report_update w self 1000 = ([(WARNING, not_updated 1000 1000)], inr tt) ∧
   logged (process_coverage_report w self 1000)
     = (WARNING, not_updated 1000 1000) :: logged (parse_coverage_report w self) ∧
   outcome (process_coverage_report w self 1000) = outcome (parse_coverage_report w self)) ∧
  (verify_report_update w self 999 = ([], inr tt) ∧
   process_coverage_report w self 999 = parse_coverage_report w self).
Proof.
  intros w self. split; [|split].
  - apply (proj1 (proj2 (C5_verify_report_update (bare_world "/") self 1000))).
    reflexivity.
  - apply (proj1 (proj2 (proj2 (C5_verify_report_update w self 1000))) 1000).
    + reflexivity.
    + lia.
  - apply (proj2 (proj2 (proj2 (C5_verify_report_update w self 999))) 1000).
    + reflexivity.
    + lia.
Defined.

(** ** The dispatcher on an unknown type *)

(** C6. On a coverage type outside the types supported under the
    value of the flag, [parse_coverage_report] raises the [ValueError]
    whose message ends with the type; nothing is logged and no result
    is returned. *)
Theorem C6_unsupported_type (w : World) (self : CoverageProcessor) :
  coverage_type self ∉ supported_types (use_report_coverage_feature_flag self) →
  parse_coverage_report w self
  = ([], inl (ValueError ("Unsupported coverage report type: " ++ coverage_type self))).
Proof.
  unfold supported_types, parse_coverage_report, unsupported.
  destruct (use_report_coverage_feature_flag self);
    rewrite !not_elem_of_cons; intros H.
  - destruct H as (H1 & H2 & _).
    apply String.eqb_neq in H1, H2. by rewrite H1, H2.
  - destruct H as (H1 & H2 & H3 & _).
    apply String.eqb_neq in H1, H2, H3. by rewrite H1, H2, H3.
Qed.

Lemma C6_unsupported_type_witness :
  parse_coverage_report (bare_world "/") (processor "app.py" "unsupported_type" false)
  = ([], inl (ValueError "Unsupported coverage report type: unsupported_type")) ∧
  parse_coverage_report (bare_world "/") (processor "app.py" "diff_cover_json" true)
  = ([], inl (ValueError "Unsupported coverage report type: diff_cover_json")).
Proof.
  split.
  - apply (C6_unsupported_type (bare_world "/") (processor "app.py" "unsupported_type" false)).
    vm_compute. intros H. repeat (apply elem_of_cons in H as [H|H]; [discriminate|]).
    by apply elem_of_nil in H.
  - apply (C6_unsupported_type (bare_world "/") (processor "app.py" "diff_cover_json" true)).
    vm_compute. intros H. repeat (apply elem_of_cons in H as [H|H]; [discriminate|]).
    by apply elem_of_nil in H.
Defined.

(** ** The target file is absent from the report *)

(** On a non-empty [filename] a class element matches iff its filename
    attribute ends with the characters of [filename]. *)
Lemma class_matches_spec (filename : string) (cls : ET.Element) :
  filename ≠ "" →
  class_matches filename cls = true ↔
  ∃ name pre, ET.get cls "filename" = Some name ∧ name = pre ++ filename.
Proof.
  intros Hne. unfold class_matches.
  destruct (ET.get cls "filename") as [name|].
  - rewrite andb_true_iff, nonempty_true, endswith_spec. split.
    + intros [_ [pre ->]]. by exists (pre ++ filename), pre.
    + intros (name' & pre & [= <-] & ->). split; [|by exists pre].
      destruct pre; [by rewrite str_app_nil_l | by rewrite str_app_cons].
  - split; [discriminate|]. by intros (name & pre & [=] & _).
Qed.

Lemma collect_matching_none (filename : string) (classes : list ET.Element)
    (c0 m0 : list Z) :
  (∀ cls, cls ∈ classes → class_matches filename cls = false) →
  collect_matching filename classes c0 m0 = inr (c0, m0).
Proof.
  induction classes as [|cls rest IH]; intros H; simpl; [done|].
  rewrite (H cls) by left. apply IH. intros c Hc. apply H. by right.
Qed.

Lemma lcov_scan_skip (filename : string) (pending : option exn)
    (before rest : list string) (c m : list Z) :
  (∀ raw, raw ∈ before → sf_matches filename raw = false) →
  lcov_scan filename pending false (before ++ rest) c m
  = lcov_scan filename pending false rest c m.
Proof.
  induction before as [|raw before IH]; intros H; simpl; [done|].
  assert (Hraw := H raw ltac:(left)). unfold sf_matches in Hraw.
  assert (Hrest : lcov_scan filename pending false (before ++ rest) c m
                  = lcov_scan filename pending false rest c m).
  { apply IH. intros r Hr. apply H. by right. }
  destruct (PyStr.startswith (PyStr.strip raw) "SF:"); [|done].
  simpl in Hraw. by rewrite Hraw.
Qed.

Lemma lcov_scan_none (filename : string) (lines : list string) (c m : list Z) :
  (∀ raw, raw ∈ lines → sf_matches filename raw = false) →
  lcov_scan filename None false lines c m = inr (c, m).
Proof.
  intros H. rewrite <- (app_nil_r lines). by rewrite lcov_scan_skip.
Qed.

(** C7. When no class element of a Cobertura report, no [SF:] line of
    an LCOV report, no key of a diff-cover report matches the target,
    the parser returns empty lists and ratio 0, and logs and raises
    nothing. *)
Theorem C7_target_absent (w : World) (self : CoverageProcessor) :
  (∀ filename root,
     filename ≠ "" →
     ET_parse w (file_path self) = inr root →
     (∀ cls name pre, cls ∈ ET.findall_desc root "class" →
        ET.get cls "filename" = Some name → name ≠ pre ++ filename) →
     parse_coverage_report_cobertura w self (Some filename) = inr (Single ([], [], 0%Q))) ∧
  (∀ lines,
     open_lines w (file_path self) = inr (lines, None) →
     (∀ raw, raw ∈ lines →
        sf_matches (posixpath.basename (src_file_path self)) raw = false) →
     parse_coverage_report_lcov w self = ([], inr ([], [], 0%Q))) ∧
  (∀ p rd rel,
     diff_coverage_report_path self = Some p →
     json_load w p = inr rd →
     posixpath.relpath (getcwd w) (src_file_path self) = Some rel →
     (∀ k s, (k, s) ∈ src_stats rd → ¬ component_suffix rel k) →
     parse_json_diff_coverage_report w self = inr ([], [], 0%Q)).
Proof.
  split; [|split].
  - intros filename root Hne Hroot Hnone.
    unfold parse_coverage_report_cobertura. rewrite Hroot. simpl.
    destruct filename as [|a f]; [done|].
    rewrite collect_matching_none; [done|].
    intros cls Hcls. apply not_true_iff_false. intros Hm.
    apply class_matches_spec in Hm as (name & pre & Hname & Heq); [|done].
    by apply (Hnone cls name pre).
  - intros lines Hopen Hnone.
    unfold parse_coverage_report_lcov, lcov_read. rewrite Hopen. simpl.
    by rewrite lcov_scan_none.
  - intros p rd rel Hp Hrd Hrel Hnone.
    rewrite (diff_cover_eq w self p rel rd Hp Hrd Hrel).
    assert (Hfind : find_stats (PyStr.split rel posixpath.sep) (src_stats rd) = None).
    { apply find_stats_None. intros k s Hin.
      apply components_match_false. by apply (Hnone k s). }
    by rewrite Hfind.
Qed.

Lemma C7_target_absent_witness :
  parse_coverage_report_cobertura (with_xml two_fragments 0 (bare_world "/"))
    (processor "app.py" "cobertura" false) (Some "non_existent_file.py")
    = inr (Single ([], [], 0%Q)) ∧
  parse_coverage_report_lcov (with_lcov lcov_other None 0 (bare_world "/"))
    (processor "app.py" "lcov" false)
    = ([], inr ([], [], 0%Q)) ∧
  parse_json_diff_coverage_report (with_json diff_app 0 (bare_world "/"))
    (processor "path/to/nonexistent.py" "diff_cover_json" false)
    = inr ([], [], 0%Q).
Proof.
  split; [|split].
  - apply (proj1 (C7_target_absent (with_xml two_fragments 0 (bare_world "/"))
                    (processor "app.py" "cobertura" false))
             "non_existent_file.py" two_fragments).
    + discriminate.
    + reflexivity.
    + intros cls name pre Hcls Hname Heq.
      assert (Hends : PyStr.endswith name "non_existent_file.py" = true)
        by (apply endswith_spec; by exists pre).
      change (ET.findall_desc two_fragments "class")
        with [xml_class "app.py" [xml_line "1" "1"; xml_line "2" "0"];
              xml_class "app.py" [xml_line "3" "1"; xml_line "4" "0"]] in Hcls.
      repeat (apply elem_of_cons in Hcls as [->|Hcls];
              [vm_compute in Hname; injection Hname as <-; vm_compute in Hends;
               discriminate|]).
      by apply elem_of_nil in Hcls.
  - apply (proj1 (proj2 (C7_target_absent (with_lcov lcov_other None 0 (bare_world "/"))
                           (processor "app.py" "lcov" false))) lcov_other).
    + reflexivity.
    + intros raw Hraw. unfold lcov_other in Hraw.
      repeat (apply elem_of_cons in Hraw as [->|Hraw]; [vm_compute; reflexivity|]).
      by apply elem_of_nil in Hraw.
  - apply (proj2 (proj2 (C7_target_absent (with_json diff_app 0 (bare_world "/"))
                           (processor "path/to/nonexistent.py" "diff_cover_json" false)))
             "diff_coverage.json" {| src_stats := diff_app |} "path/to/nonexistent.py").
    + reflexivity.
    + reflexivity.
    + vm_compute. reflexivity.
    + intros k s Hin. apply components_match_false.
      apply list_elem_of_singleton in Hin. injection Hin as -> ->.
      vm_compute. reflexivity.
Defined.

(** ** LCOV: a failure of the file *)

Lemma lcov_scan_pending (filename : string) (e : exn) (lines : list string) :
  ∀ inner c m r,
    lcov_scan filename None inner lines c m = inr r →
    lcov_scan filename (Some e) inner lines c m = inl e.
Proof.
  induction lines as [|raw rest IH]; intros inner c m r H; simpl in *; [done|].
  destruct inner.
  - destruct (PyStr.startswith (PyStr.strip raw) "DA:").
    + inv_bind H. inv_bind H. inv_bind H.
      rewrite (bind_inr_eq _ _ _ Hx), (bind_inr_eq _ _ _ Hx0), (bind_inr_eq _ _ _ Hx1).
      destruct (0 <? x1); inv_bind H; rewrite (bind_inr_eq _ _ _ Hx2); eauto.
    + destruct (PyStr.startswith (PyStr.strip raw) "end_of_record"); eauto.
  - destruct (PyStr.startswith (PyStr.strip raw) "SF:"); [|eauto].
    destruct (PyStr.endswith (PyStr.strip raw) filename); eauto.
Qed.

(** C8. When [open] raises an [OSError], or the iteration over the
    file raises one after lines that parse, the LCOV parser logs one
    error record with the path of the file and the text of the
    exception, and raises that exception: no triple is returned. *)
Theorem C8_lcov_io_failure (w : World) (self : CoverageProcessor) (e : exn) :
  is_OSError e = true →
  open_lines w (file_path self) = inl e ∨
  (∃ lines r,
     open_lines w (file_path self) = inr (lines, Some e) ∧
     lcov_scan (posixpath.basename (src_file_path self)) None false lines [] [] = inr r) →
  parse_coverage_report_lcov w self
  = ([(ERROR, "Error reading file " ++ file_path self ++ ": " ++ exn_str e)], inl e).
Proof.
  intros He H. unfold parse_coverage_report_lcov, lcov_read.
  destruct H as [Hopen|(lines & r & Hopen & Hscan)]; rewrite Hopen; simpl.
  - by rewrite He.
  - rewrite (lcov_scan_pending _ e _ _ _ _ _ Hscan). by rewrite He.
Qed.

Lemma C8_lcov_io_failure_witness :
  let missing := OSError "[Errno 2] No such file or directory: 'fake_path'" in
  let failing := OSError "[Errno 5] Input/output error" in
  parse_coverage_report_lcov (bare_world "/") (processor "app.py" "lcov" false)
    = ([(ERROR, "Error reading file fake_path: [Errno 2] No such file or directory: 'fake_path'")],
       inl missing) ∧
  parse_coverage_report_lcov (with_lcov lcov_app (Some failing) 0 (bare_world "/"))
    (processor "app.py" "lcov" false)
    = ([(ERROR, "Error reading file fake_path: [Errno 5] Input/output error")], inl failing).
Proof.
  intros missing failing. split.
  - apply (C8_lcov_io_failure (bare_world "/") (processor "app.py" "lcov" false) missing).
    + reflexivity.
    + left. reflexivity.
  - apply (C8_lcov_io_failure (with_lcov lcov_app (Some failing) 0 (bare_world "/"))
             (processor "app.py" "lcov" false) failing).
    + reflexivity.
    + right. exists lcov_app, ([1], [2]). split; [reflexivity | vm_compute; reflexivity].
Defined.

(** ** Matching on the characters of the base name *)

(** C9. With the flag off, the Cobertura parser is given the base name
    of the target path, and every class element whose filename
    attribute ends with the characters of that name contributes its
    lines; the LCOV parser starts to read a record at the first [SF:]
    line that ends with these characters.  For the target [src/app.py], the
    class element and the record of [myapp.py] are in the result. *)
Theorem C9_raw_suffix_match :
  (∀ (w : World) (self : CoverageProcessor) (root cls : ET.Element)
     (name pre : string) (out : Output),
     use_report_coverage_feature_flag self = false →
     coverage_type self = "cobertura" →
     posixpath.basename (src_file_path self) ≠ "" →
     ET_parse w (file_path self) = inr root →
     cls ∈ ET.findall_desc root "class" →
     ET.get cls "filename" = Some name →
     name = pre ++ posixpath.basename (src_file_path self) →
     outcome (parse_coverage_report w self) = inr out →
     ∃ covered missed ratio,
       out = Single (covered, missed, ratio) ∧
       ∀ n, (covered_in cls n → n ∈ covered) ∧
            (missed_in cls n → n ∈ covered ∨ n ∈ missed)) ∧
  (∀ (w : World) (self : CoverageProcessor) (pending : option exn)
     (before : list string) (raw : string) (rest : list string) (name pre : string),
     let filename := posixpath.basename (src_file_path self) in
     open_lines w (file_path self) = inr ((before ++ raw :: rest)%list, pending) →
     (∀ l, l ∈ before → sf_matches filename l = false) →
     PyStr.strip raw = "SF:" ++ name →
     name = pre ++ filename →
     lcov_read w self filename = lcov_scan filename pending true rest [] []) ∧
  parse_coverage_report (with_xml myapp_report 0 (bare_world "/"))
    (processor "src/app.py" "cobertura" false)
    = ([], inr (Single ([1], [2], 1 # 2))) ∧
  parse_coverage_report (with_lcov lcov_myapp None 0 (bare_world "/"))
    (processor "src/app.py" "lcov" false)
    = ([], inr (Single ([1], [2], 1 # 2))).
Proof.
  split; [|split; [|split; vm_compute; reflexivity]].
  - intros w self root cls name pre out Hflag Htype Hbase Hroot Hcls Hname Hpre H.
    unfold parse_coverage_report in H. rewrite Hflag, Htype in H. simpl in H.
    assert (Hinv := H).
    apply cobertura_single_inv in Hinv as (r & ac & am & _ & _ & ->); [|done].
    destruct (dedup_and_ratio ac am) as [[covered missed] ratio] eqn:Hd.
    destruct (cobertura_single_members w self _ root covered missed ratio Hbase Hroot H)
      as [Hc Hm].
    assert (Hmatch : class_matches (posixpath.basename (src_file_path self)) cls = true).
    { apply class_matches_spec; [done|]. by exists name, pre. }
    exists covered, missed, ratio. split; [done|]. intros n. split.
    + intros Hn. apply Hc. by exists cls.
    + intros Hn. destruct (decide (n ∈ covered)) as [?|Hnot]; [by left | right].
      apply Hm. split; [by exists cls|]. intros Hex. by apply Hnot, Hc.
  - intros w self pending before raw rest name pre filename Hopen Hbefore Hraw Hpre.
    unfold lcov_read. rewrite Hopen. simpl.
    rewrite lcov_scan_skip by done. simpl.
    assert (Hstart : PyStr.startswith (PyStr.strip raw) "SF:" = true).
    { apply startswith_spec. by exists name. }
    assert (Hend : PyStr.endswith (PyStr.strip raw) filename = true).
    { apply endswith_spec. exists ("SF:" ++ pre).
      by rewrite Hraw, Hpre, str_app_assoc. }
    by rewrite Hstart, Hend.
Qed.

Lemma C9_raw_suffix_match_witness :
  (∃ covered missed ratio,
     (Single ([1], [2], 1 # 2) : Output) = Single (covered, missed, ratio) ∧
     ∀ n, (covered_in (xml_class "myapp.py" [xml_line "1" "1"; xml_line "2" "0"]) n
           → n ∈ covered) ∧
          (missed_in (xml_class "myapp.py" [xml_line "1" "1"; xml_line "2" "0"]) n
           → n ∈ covered ∨ n ∈ missed)) ∧
  lcov_read (with_lcov (lcov_other ++ lcov_myapp) None 0 (bare_world "/"))
    (processor "src/app.py" "lcov" false) "app.py"
  = lcov_scan "app.py" None true (List.tl lcov_myapp) [] [].
Proof.
  split.
  - apply (proj1 C9_raw_suffix_match (with_xml myapp_report 0 (bare_world "/"))
             (processor "src/app.py" "cobertura" false) myapp_report
             (xml_class "myapp.py" [xml_line "1" "1"; xml_line "2" "0"])
             "myapp.py" "my").
    + reflexivity.
    + reflexivity.
    + discriminate.
    + reflexivity.
    + vm_compute. left.
    + reflexivity.
    + reflexivity.
    + vm_compute. reflexivity.
  - apply (proj1 (proj2 C9_raw_suffix_match)
             (with_lcov (lcov_other ++ lcov_myapp) None 0 (bare_world "/"))
             (processor "src/app.py" "lcov" false) None lcov_other ("SF:myapp.py" ++ nl)
             (List.tl lcov_myapp) "myapp.py" "my").
    + reflexivity.
    + intros l Hl. unfold lcov_other in Hl.
      repeat (apply elem_of_cons in Hl as [->|Hl]; [vm_compute; reflexivity|]).
      by apply elem_of_nil in Hl.
    + reflexivity.
    + reflexivity.
Defined.

(** ** Diff-cover: the target path is made relative first *)

(** C10. The diff-cover parser matches the keys against the components
    of [os.path.relpath] of the target path, which is computed from the
    current directory.  For the absolute target [/w/a/app.py] and a
    report with the key [a/app.py], the key matches when the current
    directory is [/w] and does not match when it is [/x]. *)
Theorem C10_diff_cover_relpath :
  (∀ (w : World) (self : CoverageProcessor) (p : string) (rd : ReportData),
     diff_coverage_report_path self = Some p →
     json_load w p = inr rd →
     parse_json_diff_coverage_report w self
     = match posixpath.relpath (getcwd w) (src_file_path self) with
       | None => inl (ValueError "no path specified")
       | Some rel =>
           inr match find_stats (PyStr.split rel posixpath.sep) (src_stats rd) with
               | Some st =>
                   (covered_lines st, violation_lines st, Qred (percent_covered st / 100))
               | None => ([], [], 0%Q)
               end
       end) ∧
  (let self := processor "/w/a/app.py" "diff_cover_json" false in
   let report := [("a/app.py", stats_a)] in
   posixpath.isabs (src_file_path self) = true ∧
   posixpath.relpath "/w" (src_file_path self) = Some "a/app.py" ∧
   posixpath.relpath "/x" (src_file_path self) = Some "../w/a/app.py" ∧
   parse_json_diff_coverage_report (with_json report 0 (bare_world "/w")) self
     = inr ([1], [2], 1 # 2) ∧
   parse_json_diff_coverage_report (with_json report 0 (bare_world "/x")) self
     = inr ([], [], 0%Q)).
Proof.
  split.
  - intros w self p rd Hp Hrd.
    destruct (posixpath.relpath (getcwd w) (src_file_path self)) as [rel|] eqn:Hrel.
    + by apply diff_cover_eq with p.
    + unfold parse_json_diff_coverage_report. by rewrite Hp, Hrd, Hrel.
  - repeat split; vm_compute; reflexivity.
Qed.

Lemma C10_diff_cover_relpath_witness :
  parse_json_diff_coverage_report (with_json diff_nested 0 (bare_world "/w"))
    (processor "/w/lib/../src/a/b/app.py" "diff_cover_json" false)
  = inr ([1; 3; 5], [6], 3 # 4).
Proof.
  rewrite (proj1 C10_diff_cover_relpath (with_json diff_nested 0 (bare_world "/w"))
             (processor "/w/lib/../src/a/b/app.py" "diff_cover_json" false)
             "diff_coverage.json" {| src_stats := diff_nested |} eq_refl eq_refl).
  vm_compute. reflexivity.
Defined.

(** * Further properties of the parsers *)

(** ** The ratio as a number *)

Lemma truediv_eq (a b : nat) :
  (0 < b)%nat → (truediv a b == Z.of_nat a # Pos.of_nat b)%Q.
Proof.
  intros Hb. unfold truediv. rewrite Qred_correct.
  destruct b as [|b]; [lia|].
  rewrite <- Pos.of_nat_succ.
  unfold Qdiv, Qmult, Qinv, Qeq, inject_Z. simpl. lia.
Qed.

Lemma ratio_of_bounds (a b : nat) : (0 <= ratio_of a b <= 1)%Q.
Proof.
  unfold ratio_of. destruct (Nat.eqb_spec (a + b) 0) as [H0|Hne].
  - split; [apply Qle_refl | discriminate].
  - rewrite truediv_eq by lia. unfold Qle. simpl. split; [lia|].
    rewrite Z.mul_1_r.
    assert (Z.pos (Pos.of_nat (a + b)) = Z.of_nat (a + b)).
    { destruct (a + b)%nat as [|n] eqn:E; [done|]. rewrite <- Pos.of_nat_succ. lia. }
    lia.
Qed.

Lemma Qred_eq_Qeq (p q : Q) : Qred p = Qred q ↔ (p == q)%Q.
Proof. split; [apply Qred_eq_iff | apply Qred_complete]. Qed.

Lemma of_nat_pos (n : nat) : n ≠ 0%nat → ∃ p, Z.of_nat n = Z.pos p.
Proof. destruct n; [done|]. intros _. eexists. simpl. reflexivity. Qed.

Lemma ratio_of_zero (a b : nat) : ratio_of a b = 0%Q ↔ a = 0%nat.
Proof.
  unfold ratio_of. destruct (Nat.eqb_spec (a + b) 0) as [H0|Hne].
  - split; [lia | done].
  - unfold truediv. change 0%Q with (Qred 0). rewrite Qred_eq_Qeq.
    destruct (of_nat_pos _ Hne) as [p ->].
    unfold Qdiv, Qmult, Qinv, Qeq, inject_Z. simpl. lia.
Qed.

Lemma ratio_of_one (a b : nat) : ratio_of a b = 1%Q ↔ (0 < a)%nat ∧ b = 0%nat.
Proof.
  unfold ratio_of. destruct (Nat.eqb_spec (a + b) 0) as [H0|Hne].
  - split; [discriminate | lia].
  - unfold truediv. change 1%Q with (Qred 1). rewrite Qred_eq_Qeq.
    destruct (of_nat_pos _ Hne) as [p Hp]. rewrite Hp.
    unfold Qdiv, Qmult, Qinv, Qeq, inject_Z. simpl. lia.
Qed.

Lemma ratio_of_facts (covered missed : list Z) :
  ratio_facts (covered, missed, ratio_of (length covered) (length missed)).
Proof.
  split; [done|]. split; [apply ratio_of_bounds|]. split.
  - rewrite ratio_of_zero. apply length_zero_iff_nil.
  - rewrite ratio_of_one, length_zero_iff_nil.
    split; intros [H ?]; (split; [|done]).
    + intros ->. simpl in H. lia.
    + destruct covered; [done | simpl; lia].
Qed.

Lemma dedup_and_ratio_lengths (all_covered all_missed : list Z) :
  let '(covered, missed, ratio) := dedup_and_ratio all_covered all_missed in
  NoDup covered ∧ NoDup missed ∧ ratio = ratio_of (length covered) (length missed).
Proof.
  unfold dedup_and_ratio. split; [apply NoDup_elements|]. split; [apply NoDup_elements|].
  reflexivity.
Qed.

(** What either mode of the Cobertura parser returns is made of
    results of [dedup_and_ratio]. *)
Lemma cobertura_outputs (w : World) (self : CoverageProcessor)
    (filename : option string) (out : Output) (P : Triple → Prop) :
  (∀ c m, P (dedup_and_ratio c m)) →
  parse_coverage_report_cobertura w self filename = inr out →
  Output_Forall P out.
Proof.
  intros HP H. destruct filename as [[|a f]|].
  - apply cobertura_all_inv in H as (root & fm & _ & _ & ->); [|by right].
    intros k t [[c m] [<- _]]%lookup_fmap_Some. apply HP.
  - apply cobertura_single_inv in H as (root & ac & am & _ & _ & ->); [|done].
    apply HP.
  - apply cobertura_all_inv in H as (root & fm & _ & _ & ->); [|by left].
    intros k t [[c m] [<- _]]%lookup_fmap_Some. apply HP.
Qed.

(** X1. The lists the Cobertura parser returns, in a triple or in the
    triples of the mapping, hold each line number once. *)
Theorem X1_cobertura_lists_duplicate_free (w : World) (self : CoverageProcessor)
    (filename : option string) (out : Output) :
  parse_coverage_report_cobertura w self filename = inr out →
  Output_Forall duplicate_free out.
Proof.
  apply cobertura_outputs. intros c m.
  pose proof (dedup_and_ratio_lengths c m) as H.
  destruct (dedup_and_ratio c m) as [[cov mis] r]. simpl. tauto.
Qed.

Lemma X1_cobertura_lists_duplicate_free_witness :
  Output_Forall duplicate_free (Single ([2; 1], [4], 2 # 3)).
Proof.
  apply (X1_cobertura_lists_duplicate_free
           (with_xml overlapping_fragments 0 (bare_world "/"))
           (processor "app.py" "cobertura" false) (Some "app.py")).
  vm_compute. reflexivity.
Defined.

(** X2. The ratio returned by the Cobertura parser and by the LCOV
    parser is that of the lengths of the returned lists; it lies
    between 0 and 1, is 0 exactly when the covered list is empty, and
    is 1 exactly when the covered list is not empty and the missed list
    is. *)
Theorem X2_ratio_range_and_extremes (w : World) (self : CoverageProcessor) :
  (∀ filename out,
     parse_coverage_report_cobertura w self filename = inr out →
     Output_Forall ratio_facts out) ∧
  (∀ t, outcome (parse_coverage_report_lcov w self) = inr t → ratio_facts t).
Proof.
  split.
  - intros filename out. apply cobertura_outputs. intros c m.
    pose proof (dedup_and_ratio_lengths c m) as H.
    destruct (dedup_and_ratio c m) as [[cov mis] r].
    destruct H as (_ & _ & ->). apply ratio_of_facts.
  - intros t H. apply lcov_inv in H as (c & m & _ & ->). apply ratio_of_facts.
Qed.

Lemma X2_ratio_range_and_extremes_witness :
  Output_Forall ratio_facts (PerFile {[ "app.py" := ([3; 1], [4; 2], 1 # 2) ]}) ∧
  ratio_facts ([1], [2], 1 # 2).
Proof.
  split.
  - apply (proj1 (X2_ratio_range_and_extremes (with_xml two_fragments 0 (bare_world "/"))
                    (processor "app.py" "cobertura" true)) None).
    vm_compute. reflexivity.
  - apply (proj2 (X2_ratio_range_and_extremes (with_lcov lcov_app None 0 (bare_world "/"))
                    (processor "app.py" "lcov" false))).
    vm_compute. reflexivity.
Defined.

(** ** When the Cobertura parser returns *)

Lemma py_int_opt_error (o : option string) (e : exn) :
  py_int_opt o = inl e → int_error e.
Proof.
  destruct o as [s|]; simpl; [|by intros [= <-]].
  unfold py_int. destruct (PyStr.int s); [discriminate | by intros [= <-]].
Qed.

Lemma classify_lines_returns (lines : list ET.Element) (c0 m0 : list Z) :
  match classify_lines lines c0 m0 with
  | inr _ => ∀ line, line ∈ lines → ∃ n h, line_record line n h
  | inl e => int_error e ∧ ¬ ∀ line, line ∈ lines → ∃ n h, line_record line n h
  end.
Proof.
  revert c0 m0. induction lines as [|line rest IH]; intros c0 m0; simpl.
  - intros line Hin. by apply elem_of_nil in Hin.
  - destruct (py_int_opt (ET.get line "number")) as [e|n] eqn:Hn; simpl.
    { split; [by apply py_int_opt_error in Hn|]. intros Hall.
      destruct (Hall line ltac:(left)) as (n' & h' & Hn' & _). congruence. }
    destruct (py_int_opt (ET.get line "hits")) as [e|h] eqn:Hh; simpl.
    { split; [by apply py_int_opt_error in Hh|]. intros Hall.
      destruct (Hall line ltac:(left)) as (n' & h' & _ & Hh'). congruence. }
    assert (Hstep : ∀ c m,
              match classify_lines rest c m with
              | inr _ => ∀ l, l ∈ line :: rest → ∃ n h, line_record l n h
              | inl e => int_error e ∧
                         ¬ ∀ l, l ∈ line :: rest → ∃ n h, line_record l n h
              end).
    { intros c m. specialize (IH c m). destruct (classify_lines rest c m) as [e|r].
      - destruct IH as [He Hnot]. split; [done|]. intros Hall. apply Hnot.
        intros l Hl. apply Hall. by right.
      - intros l [->|Hl]%elem_of_cons; [by exists n, h | by apply IH]. }
    destruct (0 <? h); apply Hstep.
Qed.

Lemma parse_coverage_data_for_class_returns (cls : ET.Element) :
  match parse_coverage_data_for_class cls with
  | inr _ => well_formed_lines cls
  | inl e => int_error e ∧ ¬ well_formed_lines cls
  end.
Proof.
  unfold parse_coverage_data_for_class, well_formed_lines.
  pose proof (classify_lines_returns (ET.findall_desc cls "line") [] []) as H.
  destruct (classify_lines _ [] []) as [e|[c m]]; simpl; done.
Qed.

Lemma collect_matching_returns (filename : string) (classes : list ET.Element)
    (c0 m0 : list Z) :
  let sound := ∀ cls, cls ∈ classes → class_matches filename cls = true →
                      well_formed_lines cls in
  match collect_matching filename classes c0 m0 with
  | inr _ => sound
  | inl e => int_error e ∧ ¬ sound
  end.
Proof.
  revert c0 m0. induction classes as [|cls rest IH]; intros c0 m0; simpl.
  - intros cls Hin. by apply elem_of_nil in Hin.
  - assert (Hstep : ∀ c m,
              (class_matches filename cls = true → well_formed_lines cls) →
              match collect_matching filename rest c m with
              | inr _ => ∀ x, x ∈ cls :: rest → class_matches filename x = true →
                              well_formed_lines x
              | inl e => int_error e ∧
                         ¬ ∀ x, x ∈ cls :: rest → class_matches filename x = true →
                                well_formed_lines x
              end).
    { intros c m Hcls. specialize (IH c m).
      destruct (collect_matching filename rest c m) as [e|r].
      - destruct IH as [He Hnot]. split; [done|]. intros Hall. apply Hnot.
        intros x Hx. apply Hall. by right.
      - intros x [->|Hx]%elem_of_cons; [done | by apply IH]. }
    destruct (class_matches filename cls) eqn:Hmatch; [|by apply Hstep].
    pose proof (parse_coverage_data_for_class_returns cls) as Hcls.
    destruct (parse_coverage_data_for_class cls) as [e|[[cc cm] r]]; simpl.
    + destruct Hcls as [He Hnot]. split; [done|]. intros Hall. apply Hnot.
      apply Hall; [left | done].
    + by apply Hstep.
Qed.

Lemma group_by_filename_returns (classes : list ET.Element)
    (fm0 : gmap string (list Z * list Z)) :
  let sound := ∀ cls f, cls ∈ classes → class_named f cls → well_formed_lines cls in
  match group_by_filename classes fm0 with
  | inr _ => sound
  | inl e => int_error e ∧ ¬ sound
  end.
Proof.
  revert fm0. induction classes as [|cls rest IH]; intros fm0; simpl.
  - intros cls f Hin. by apply elem_of_nil in Hin.
  - assert (Hstep : ∀ fm,
              (∀ f, class_named f cls → well_formed_lines cls) →
              match group_by_filename rest fm with
              | inr _ => ∀ x f, x ∈ cls :: rest → class_named f x → well_formed_lines x
              | inl e => int_error e ∧
                         ¬ ∀ x f, x ∈ cls :: rest → class_named f x → well_formed_lines x
              end).
    { intros fm Hcls. specialize (IH fm).
      destruct (group_by_filename rest fm) as [e|r].
      - destruct IH as [He Hnot]. split; [done|]. intros Hall. apply Hnot.
        intros x f Hx. apply (Hall x f). by right.
      - intros x f [->|Hx]%elem_of_cons; [by apply Hcls | by apply IH]. }
    unfold class_named in *.
    destruct (ET.get cls "filename") as [g|] eqn:Hg;
      [|apply Hstep; by intros f [? _]].
    destruct (PyStr.nonempty g) eqn:Hne;
      [|apply Hstep; intros f [[= ->] Hf]; apply nonempty_true in Hf; congruence].
    apply nonempty_true in Hne.
    pose proof (parse_coverage_data_for_class_returns cls) as Hcls.
    destruct (parse_coverage_data_for_class cls) as [e|[[cc cm] r]]; simpl.
    + destruct Hcls as [He Hnot]. split; [done|]. intros Hall. apply Hnot.
      apply (Hall cls g); [left | done].
    + destruct (default (([], []) : list Z * list Z) (fm0 !! g)) as [fc fmi].
      by apply Hstep.
Qed.

(** X3. Once the report is read, the single-file mode of the Cobertura
    parser returns a triple iff every line element of every matching
    class element has an integer number and an integer hit count; it
    raises a [TypeError] or a [ValueError] otherwise.  Class elements
    that do not match are not looked into. *)
Theorem X3_cobertura_single_returns (w : World) (self : CoverageProcessor)
    (filename : string) (root : ET.Element) :
  filename ≠ "" →
  ET_parse w (file_path self) = inr root →
  let sound := ∀ cls, cls ∈ ET.findall_desc root "class" →
                      class_matches filename cls = true → well_formed_lines cls in
  match parse_coverage_report_cobertura w self (Some filename) with
  | inr out => sound ∧ ∃ t, out = Single t
  | inl e => int_error e ∧ ¬ sound
  end.
Proof.
  intros Hne Hroot. unfold parse_coverage_report_cobertura. rewrite Hroot. simpl.
  destruct filename as [|a f]; [done|].
  pose proof (collect_matching_returns (String a f) (ET.findall_desc root "class") [] [])
    as H.
  destruct (collect_matching _ _ [] []) as [e|[c m]]; simpl; [done|].
  split; [done | by eexists].
Qed.

Lemma X3_cobertura_single_returns_witness :
  (∀ cls, cls ∈ ET.findall_desc partly_broken "class" →
          class_matches "app.py" cls = true → well_formed_lines cls) ∧
  ∃ t, Single ([1], [2], 1 # 2) = Single t.
Proof.
  apply (X3_cobertura_single_returns (with_xml partly_broken 0 (bare_world "/"))
           (processor "app.py" "cobertura" false) "app.py" partly_broken).
  - discriminate.
  - reflexivity.
Defined.

(** X4. Once the report is read, the all-files mode of the Cobertura
    parser returns a mapping iff every line element of every class
    element with a non-empty filename has an integer number and an
    integer hit count; it raises a [TypeError] or a [ValueError]
    otherwise, whatever file the faulty line belongs to. *)
Theorem X4_cobertura_all_files_returns (w : World) (self : CoverageProcessor)
    (root : ET.Element) :
  ET_parse w (file_path self) = inr root →
  let sound := ∀ cls f, cls ∈ ET.findall_desc root "class" → class_named f cls →
                        well_formed_lines cls in
  match parse_coverage_report_cobertura w self None with
  | inr out => sound ∧ ∃ d, out = PerFile d
  | inl e => int_error e ∧ ¬ sound
  end.
Proof.
  intros Hroot. unfold parse_coverage_report_cobertura. rewrite Hroot. simpl.
  pose proof (group_by_filename_returns (ET.findall_desc root "class") ∅) as H.
  destruct (group_by_filename _ ∅) as [e|fm]; simpl; [done|].
  split; [done | by eexists].
Qed.

Lemma X4_cobertura_all_files_returns_witness :
  int_error (TypeError "int() argument must be a string, a bytes-like object or a real number, not 'NoneType'") ∧
  ¬ ∀ cls f, cls ∈ ET.findall_desc partly_broken "class" → class_named f cls →
             well_formed_lines cls.
Proof.
  apply (X4_cobertura_all_files_returns (with_xml partly_broken 0 (bare_world "/"))
           (processor "app.py" "cobertura" true) partly_broken).
  reflexivity.
Defined.

(** ** The two modes of the Cobertura parser compared *)

Lemma class_matches_named (filename : string) (cls : ET.Element) :
  class_matches filename cls = true ↔
  ∃ k, class_named k cls ∧ PyStr.endswith k filename = true.
Proof.
  unfold class_matches, class_named.
  destruct (ET.get cls "filename") as [name|].
  - rewrite andb_true_iff, nonempty_true. split.
    + intros [? ?]. by exists name.
    + by intros (k & [[= <-] ?] & ?).
  - split; [discriminate | by intros (k & [[=] _] & _)].
Qed.

(** X5. When the all-files mode returns a mapping, the single-file
    mode returns a triple for every non-empty filename: its covered
    lines are those covered in some entry whose key ends with the
    filename, and its missed lines are those missed in such an entry
    that are covered in none of them. *)
Theorem X5_cobertura_single_from_all_files (w : World) (self : CoverageProcessor)
    (filename : string) (root : ET.Element) (d : gmap string Triple) :
  filename ≠ "" →
  ET_parse w (file_path self) = inr root →
  parse_coverage_report_cobertura w self None = inr (PerFile d) →
  ∃ covered missed ratio,
    parse_coverage_report_cobertura w self (Some filename)
      = inr (Single (covered, missed, ratio)) ∧
    let entry k c m := PyStr.endswith k filename = true ∧ ∃ r, d !! k = Some (c, m, r) in
    (∀ n, n ∈ covered ↔ ∃ k c m, entry k c m ∧ n ∈ c) ∧
    (∀ n, n ∈ missed ↔ (∃ k c m, entry k c m ∧ n ∈ m) ∧ n ∉ covered).
Proof.
  intros Hne Hroot Hall.
  pose proof (X := collect_matching_returns filename (ET.findall_desc root "class") [] []).
  pose proof (Y := group_by_filename_returns (ET.findall_desc root "class") ∅).
  assert (Hinv := Hall).
  apply cobertura_all_inv in Hinv as (root' & fm & Hroot' & Hgroup & _); [|by left].
  rewrite Hroot in Hroot'. injection Hroot' as <-.
  rewrite Hgroup in Y. simpl in X, Y.
  destruct (collect_matching filename (ET.findall_desc root "class") [] [])
    as [e|[ac am]] eqn:Hcol.
  { destruct X as [_ Hnot]. exfalso. apply Hnot. intros cls Hcls Hm.
    apply class_matches_named in Hm as (k & Hk & _). by apply (Y cls k). }
  destruct (dedup_and_ratio ac am) as [[covered missed] ratio] eqn:Hd.
  assert (Hsingle : parse_coverage_report_cobertura w self (Some filename)
                    = inr (Single (covered, missed, ratio))).
  { unfold parse_coverage_report_cobertura. rewrite Hroot. simpl.
    destruct filename as [|a f]; [done|]. rewrite Hcol. simpl. by rewrite Hd. }
  exists covered, missed, ratio. split; [done|].
  destruct (cobertura_single_members w self filename root covered missed ratio
              Hne Hroot Hsingle) as [Hc Hm].
  pose proof (cobertura_all_members w self root d Hroot Hall) as Hd'.
  assert (Hcov : ∀ n, n ∈ covered ↔
            ∃ k c m, (PyStr.endswith k filename = true ∧ ∃ r, d !! k = Some (c, m, r))
                     ∧ n ∈ c).
  { intros n. rewrite Hc. split.
    - intros (cls & [Hcls Hmatch] & Hn).
      apply class_matches_named in Hmatch as (k & [Hk Hkne] & Hend).
      destruct (Hd' k) as [Hsome Hmem].
      destruct (proj2 Hsome) as [[[c m] r] Hdk]; [by exists cls|].
      exists k, c, m. split; [split; [done | by exists r]|].
      apply (Hmem c m r Hdk). by exists cls.
    - intros (k & c & m & [Hend [r Hdk]] & Hn).
      destruct (Hd' k) as [_ Hmem].
      apply (Hmem c m r Hdk) in Hn as (cls & (Hcls & Hk & Hkne) & Hn).
      exists cls. split; [|done]. split; [done|].
      apply class_matches_named. by exists k. }
  split; [exact Hcov|].
  intros n. rewrite Hm, <- Hc. split.
  - intros [(cls & [Hcls Hmatch] & Hn) Hnot]. split; [|done].
    apply class_matches_named in Hmatch as (k & [Hk Hkne] & Hend).
    destruct (Hd' k) as [Hsome Hmem].
    destruct (proj2 Hsome) as [[[c m] r] Hdk]; [by exists cls|].
    exists k, c, m. split; [split; [done | by exists r]|].
    apply (Hmem c m r Hdk). split; [by exists cls|].
    intros (cls' & (Hcls' & Hk' & _) & Hn'). apply Hnot, Hc.
    exists cls'. split; [|done]. split; [done|].
    apply class_matches_named. by exists k.
  - intros [(k & c & m & [Hend [r Hdk]] & Hn) Hnot]. split; [|done].
    destruct (Hd' k) as [_ Hmem].
    apply (Hmem c m r Hdk) in Hn as [(cls & (Hcls & Hk & Hkne) & Hn) _].
    exists cls. split; [|done]. split; [done|].
    apply class_matches_named. by exists k.
Qed.

Lemma X5_cobertura_single_from_all_files_witness :
  ∃ covered missed ratio,
    parse_coverage_report_cobertura (with_xml two_files 0 (bare_world "/"))
      (processor "app.py" "cobertura" false) (Some "app.py")
      = inr (Single (covered, missed, ratio)) ∧
    let entry k c m :=
      PyStr.endswith k "app.py" = true ∧
      ∃ r, ({[ "app.py" := ([1], [2], 1 # 2); "lib/app.py" := ([2], [5], 1 # 2) ]}
              : gmap string Triple) !! k = Some (c, m, r) in
    (∀ n, n ∈ covered ↔ ∃ k c m, entry k c m ∧ n ∈ c) ∧
    (∀ n, n ∈ missed ↔ (∃ k c m, entry k c m ∧ n ∈ m) ∧ n ∉ covered).
Proof.
  apply (X5_cobertura_single_from_all_files (with_xml two_files 0 (bare_world "/"))
           (processor "app.py" "cobertura" false) "app.py" two_files).
  - discriminate.
  - reflexivity.
  - vm_compute. reflexivity.
Defined.

(** ** A target path with an empty base name *)

Lemma rev_empty (s : string) : PyStr.rev s = "" ↔ s = "".
Proof.
  destruct s as [|a s]; [done|]. rewrite rev_cons. split; [|discriminate].
  destruct (PyStr.rev s); discriminate.
Qed.

Lemma last_cons_cons {A} (x : A) (l : list A) (d : A) :
  l ≠ [] → List.last (x :: l) d = List.last l d.
Proof. by destruct l. Qed.

Lemma last_split_onto (sep : ascii) (s cur : string) :
  List.last (PyStr.split_onto sep s cur) "" = "" ↔
  (s = "" ∧ cur = "") ∨ ∃ d, s = d ++ String sep "".
Proof.
  revert cur. induction s as [|a s IH]; intros cur; simpl.
  - rewrite rev_empty. split; [by left|].
    intros [[_ ?]|[d Hd]]; [done | by destruct d].
  - destruct (Ascii.eqb_spec a sep) as [->|Hne].
    + rewrite last_cons_cons.
      2:{ destruct (split_onto_cons sep s "") as (x & l & ->). done. }
      rewrite IH. split.
      * intros [[-> _]|[d ->]]; right; [by exists "" | by exists (String sep d)].
      * intros [[? _]|[d Hd]]; [done|].
        destruct d as [|x d]; [left | right].
        -- rewrite str_app_nil_l in Hd. by injection Hd as <-.
        -- rewrite str_app_cons in Hd. injection Hd as _ ->. by exists d.
    + rewrite IH. split.
      * intros [[_ ?]|[d ->]]; [done | right]. by exists (String a d).
      * intros [[? _]|[d Hd]]; [done | right].
        destruct d as [|x d].
        -- rewrite str_app_nil_l in Hd. congruence.
        -- rewrite str_app_cons in Hd. injection Hd as _ ->. by exists d.
Qed.

(** The base name is empty on the empty path and on the paths that end
    with a slash, and on no other path. *)
Lemma basename_empty (p : string) :
  posixpath.basename p = "" ↔ p = "" ∨ ∃ d, p = d ++ "/".
Proof.
  unfold posixpath.basename, PyStr.split. rewrite last_split_onto. split.
  - intros [[-> _]|?]; [by left | by right].
  - intros [->|?]; [by left | by right].
Qed.

Lemma endswith_empty (s : string) : PyStr.endswith s "" = true.
Proof. apply endswith_spec. exists s. by rewrite str_app_nil_r. Qed.

(** X6. For a target path that is empty or ends with a slash, the
    base name is empty: with the flag off the Cobertura parser then
    runs in all-files mode and the dispatcher returns a mapping, not a
    triple; and every [SF:] line opens a record for the LCOV parser. *)
Theorem X6_empty_basename (w : World) (self : CoverageProcessor) :
  src_file_path self = "" ∨ (∃ d, src_file_path self = d ++ "/") →
  (use_report_coverage_feature_flag self = false →
   coverage_type self = "cobertura" →
   parse_coverage_report w self = lift (parse_coverage_report_cobertura w self None) ∧
   ∀ out, outcome (parse_coverage_report w self) = inr out → ∃ d, out = PerFile d) ∧
  (∀ raw, sf_matches (posixpath.basename (src_file_path self)) raw
          = PyStr.startswith (PyStr.strip raw) "SF:").
Proof.
  intros Hsrc. apply basename_empty in Hsrc. split.
  - intros Hflag Htype. unfold parse_coverage_report.
    rewrite Hflag, Htype, Hsrc. simpl.
    assert (Heq : parse_coverage_report_cobertura w self (Some "")
                  = parse_coverage_report_cobertura w self None) by done.
    rewrite Heq. split; [done|]. intros out H.
    apply cobertura_all_inv in H as (root & fm & _ & _ & ->); [|by left].
    by eexists.
  - intros raw. unfold sf_matches. rewrite Hsrc, endswith_empty. apply andb_true_r.
Qed.

Lemma X6_empty_basename_witness :
  parse_coverage_report (with_xml two_fragments 0 (bare_world "/"))
    (processor "src/" "cobertura" false)
  = ([], inr (PerFile {[ "app.py" := ([3; 1], [4; 2], 1 # 2) ]})).
Proof.
  rewrite (proj1 (proj1 (X6_empty_basename (with_xml two_fragments 0 (bare_world "/"))
                           (processor "src/" "cobertura" false)
                           (or_intror (ex_intro _ "src" eq_refl)))
                    eq_refl eq_refl)).
  vm_compute. reflexivity.
Defined.

(** ** LCOV: what is raised and what is logged *)

Lemma lcov_scan_error (filename : string) (pending : option exn) (lines : list string) :
  ∀ inner c m e,
    lcov_scan filename pending inner lines c m = inl e →
    pending = Some e ∨ lcov_parse_error e.
Proof.
  induction lines as [|raw rest IH]; intros inner c m e H; simpl in H.
  - destruct pending as [e'|]; [|discriminate]. left. by injection H as <-.
  - destruct inner.
    + destruct (PyStr.startswith (PyStr.strip raw) "DA:").
      * set (fields := PyStr.split _ _) in H.
        destruct (index fields 0) as [e0|ln] eqn:H0; simpl in H.
        { unfold index in H0. destruct (fields !! 0%nat); [discriminate|].
          injection H0 as <-. injection H as <-. right. by left. }
        destruct (index fields 1) as [e1|hs] eqn:H1; simpl in H.
        { unfold index in H1. destruct (fields !! 1%nat); [discriminate|].
          injection H1 as <-. injection H as <-. right. by left. }
        destruct (py_int hs) as [e2|h] eqn:H2; simpl in H.
        { unfold py_int in H2. destruct (PyStr.int hs); [discriminate|].
          injection H2 as <-. injection H as <-. right. right. by exists hs. }
        destruct (0 <? h);
          (destruct (py_int ln) as [e3|n] eqn:H3; simpl in H;
           [unfold py_int in H3; destruct (PyStr.int ln); [discriminate|];
            injection H3 as <-; injection H as <-; right; right; by exists ln
           | by apply IH in H]).
      * destruct (PyStr.startswith (PyStr.strip raw) "end_of_record"); by apply IH in H.
    + destruct (PyStr.startswith (PyStr.strip raw) "SF:"); [|by apply IH in H].
      destruct (PyStr.endswith (PyStr.strip raw) filename); by apply IH in H.
Qed.

Lemma lcov_raise_inv (w : World) (self : CoverageProcessor) (e : exn) :
  outcome (parse_coverage_report_lcov w self) = inl e →
  lcov_read w self (posixpath.basename (src_file_path self)) = inl e ∧
  logged (parse_coverage_report_lcov w self)
  = if is_OSError e then [lcov_error_record self e] else [].
Proof.
  unfold parse_coverage_report_lcov.
  destruct (lcov_read w self _) as [e0|[c m]]; [|discriminate].
  destruct (is_OSError e0) eqn:He0; cbn; intros [= <-]; by rewrite He0.
Qed.

(** X7. Whatever the LCOV parser raises is the exception [open]
    raised, the exception the iteration over the file raised, an
    [IndexError] or a [ValueError] of its own parsing.  It logs a
    record iff it raises an [OSError], and then that one record: any
    other exception, and a result, come with nothing logged. *)
Theorem X7_lcov_raises_and_logs (w : World) (self : CoverageProcessor) :
  (∀ e, outcome (parse_coverage_report_lcov w self) = inl e →
        open_lines w (file_path self) = inl e ∨
        (∃ lines, open_lines w (file_path self) = inr (lines, Some e)) ∨
        lcov_parse_error e) ∧
  (∀ e, outcome (parse_coverage_report_lcov w self) = inl e →
        logged (parse_coverage_report_lcov w self)
        = if is_OSError e then [lcov_error_record self e] else []) ∧
  (∀ t, outcome (parse_coverage_report_lcov w self) = inr t →
        logged (parse_coverage_report_lcov w self) = []).
Proof.
  split; [|split].
  - intros e H. apply lcov_raise_inv in H as [H _]. unfold lcov_read in H.
    destruct (open_lines w (file_path self)) as [e0|[lines pending]]; cbn in H.
    + left. congruence.
    + apply lcov_scan_error in H as [->|?]; [right; left; by exists lines | by right; right].
  - intros e H. by apply lcov_raise_inv in H as [_ H].
  - intros t. unfold parse_coverage_report_lcov.
    destruct (lcov_read w self _) as [e0|[c m]]; [|done].
    destruct (is_OSError e0); discriminate.
Qed.

Lemma X7_lcov_raises_and_logs_witness :
  (open_lines (with_lcov lcov_no_comma None 0 (bare_world "/")) "fake_path"
     = inl (IndexError "list index out of range") ∨
   (∃ lines, open_lines (with_lcov lcov_no_comma None 0 (bare_world "/")) "fake_path"
             = inr (lines, Some (IndexError "list index out of range"))) ∨
   lcov_parse_error (IndexError "list index out of range")) ∧
  logged (parse_coverage_report_lcov (with_lcov lcov_no_comma None 0 (bare_world "/"))
            (processor "app.py" "lcov" false)) = [] ∧
  logged (parse_coverage_report_lcov (with_lcov lcov_app None 0 (bare_world "/"))
            (processor "app.py" "lcov" false)) = [].
Proof.
  split; [|split].
  - apply (proj1 (X7_lcov_raises_and_logs (with_lcov lcov_no_comma None 0 (bare_world "/"))
                    (processor "app.py" "lcov" false))).
    vm_compute. reflexivity.
  - apply (proj1 (proj2 (X7_lcov_raises_and_logs
                           (with_lcov lcov_no_comma None 0 (bare_world "/"))
                           (processor "app.py" "lcov" false)))
             (IndexError "list index out of range")).
    vm_compute. reflexivity.
  - apply (proj2 (proj2 (X7_lcov_raises_and_logs
                           (with_lcov lcov_app None 0 (bare_world "/"))
                           (processor "app.py" "lcov" false))) ([1], [2], 1 # 2)).
    vm_compute. reflexivity.
Defined.

(** ** LCOV: the records of the target *)

Lemma index_Some {A} (l : list A) (i : nat) (x : A) : l !! i = Some x → index l i = inr x.
Proof. unfold index. by intros ->. Qed.

Lemma py_int_Some (s : string) (z : Z) : PyStr.int s = Some z → py_int s = inr z.
Proof. unfold py_int. by intros ->. Qed.

Lemma lcov_scan_da (filename : string) (pending : option exn) (raw : string) (n h : Z)
    (rest : list string) (c m : list Z) :
  da_line raw n h →
  lcov_scan filename pending true (raw :: rest) c m
  = if 0 <? h then lcov_scan filename pending true rest (c ++ [n]) m
    else lcov_scan filename pending true rest c (m ++ [n]).
Proof.
  intros (Hda & ln & hs & H0 & H1 & Hh & Hn). simpl. rewrite Hda.
  rewrite (bind_inr_eq _ _ _ (index_Some _ _ _ H0)).
  rewrite (bind_inr_eq _ _ _ (index_Some _ _ _ H1)).
  rewrite (bind_inr_eq _ _ _ (py_int_Some _ _ Hh)).
  destruct (0 <? h); by rewrite (bind_inr_eq _ _ _ (py_int_Some _ _ Hn)).
Qed.

Lemma lcov_scan_body (filename : string) (pending : option exn)
    (body : list string) (cb mb : list Z) :
  record_body body cb mb →
  ∀ rest c m,
    lcov_scan filename pending true (body ++ rest) c m
    = lcov_scan filename pending true rest (c ++ cb) (m ++ mb).
Proof.
  induction 1 as [|raw n h body cb mb Hda Hh _ IH|raw n h body cb mb Hda Hh _ IH
                  |raw body cb mb [Hda Hend] _ IH]; intros rest c m.
  - by rewrite !app_nil_r.
  - rewrite <- app_comm_cons, (lcov_scan_da _ _ _ n h) by done.
    destruct (Z.ltb_spec 0 h); [|lia]. by rewrite IH, <- app_assoc.
  - rewrite <- app_comm_cons, (lcov_scan_da _ _ _ n h) by done.
    destruct (Z.ltb_spec 0 h); [lia|]. by rewrite IH, <- app_assoc.
  - rewrite <- app_comm_cons. simpl. rewrite Hda, Hend. apply IH.
Qed.

Lemma lcov_scan_open (filename : string) (pending : option exn) (sf : string)
    (rest : list string) (c m : list Z) :
  sf_matches filename sf = true →
  lcov_scan filename pending false (sf :: rest) c m
  = lcov_scan filename pending true rest c m.
Proof.
  unfold sf_matches. intros [H1 H2]%andb_true_iff. simpl. by rewrite H1, H2.
Qed.

Lemma lcov_scan_end (filename : string) (pending : option exn) (endl : string)
    (rest : list string) (c m : list Z) :
  end_line endl →
  lcov_scan filename pending true (endl :: rest) c m
  = lcov_scan filename pending false rest c m.
Proof. intros [H1 H2]. simpl. by rewrite H1, H2. Qed.

Lemma lcov_scan_report (filename : string) (lines : list string) (c m : list Z) :
  lcov_report filename lines c m →
  ∀ c0 m0, lcov_scan filename None false lines c0 m0 = inr (c0 ++ c, m0 ++ m)%list.
Proof.
  induction 1 as [tail Htail
                 |before sf body endl rest cb mb c m Hbefore Hsf Hbody Hend _ IH
                 |before sf body cb mb Hbefore Hsf Hbody]; intros c0 m0.
  - rewrite !app_nil_r. by apply lcov_scan_none.
  - rewrite lcov_scan_skip, lcov_scan_open by done.
    rewrite (lcov_scan_body _ _ _ _ _ Hbody), lcov_scan_end by done.
    by rewrite IH, <- !app_assoc.
  - rewrite lcov_scan_skip, lcov_scan_open by done.
    rewrite <- (app_nil_r body), (lcov_scan_body _ _ _ _ _ Hbody). done.
Qed.

(** X8. On a report made of records of the target with their end
    lines, between lines that open no record of the target, and perhaps
    a last record of the target without end line, the LCOV parser
    returns the line numbers of the data lines of all these records, in
    the order of the file, hit ones as covered and the others as
    missed; nothing is logged. *)
Theorem X8_lcov_all_target_records (w : World) (self : CoverageProcessor)
    (lines : list string) (covered missed : list Z) :
  open_lines w (file_path self) = inr (lines, None) →
  lcov_report (posixpath.basename (src_file_path self)) lines covered missed →
  parse_coverage_report_lcov w self
  = ([], inr (covered, missed, ratio_of (length covered) (length missed))).
Proof.
  intros Hopen Hreport. unfold parse_coverage_report_lcov, lcov_read.
  rewrite Hopen. simpl. rewrite (lcov_scan_report _ _ _ _ Hreport). simpl.
  unfold ratio_of. by destruct (length covered + length missed)%nat.
Qed.

Ltac lcov_line :=
  lazymatch goal with
  | |- da_line _ _ _ =>
      split; [vm_compute; reflexivity | eexists _, _; repeat split; reflexivity]
  | |- end_line _ => split; vm_compute; reflexivity
  | |- other_line _ => split; vm_compute; reflexivity
  | |- sf_matches _ _ = _ => vm_compute; reflexivity
  | |- ∀ l, l ∈ _ → sf_matches _ l = false =>
      let l := fresh "l" in
      let H := fresh "H" in
      intros l H;
      repeat (apply elem_of_cons in H as [->|H]; [vm_compute; reflexivity|]);
      by apply elem_of_nil in H
  end.

Lemma X8_lcov_all_target_records_witness :
  parse_coverage_report_lcov (with_lcov lcov_two_records None 0 (bare_world "/"))
    (processor "pkg/app.py" "lcov" false)
  = ([], inr ([1; 7], [2; 1], 1 # 2)) ∧
  parse_coverage_report_lcov (with_lcov lcov_unterminated None 0 (bare_world "/"))
    (processor "pkg/app.py" "lcov" false)
  = ([], inr ([1], [9], 1 # 2)).
Proof.
  split.
  - apply (X8_lcov_all_target_records
             (with_lcov lcov_two_records None 0 (bare_world "/"))
             (processor "pkg/app.py" "lcov" false) lcov_two_records [1; 7] [2; 1]).
    + reflexivity.
    + apply (report_record "app.py" ["TN:" ++ nl] ("SF:src/app.py" ++ nl)
               ["FN:1,f" ++ nl; "DA:1,1" ++ nl; "DA:2,0" ++ nl] ("end_of_record" ++ nl)
               ["SF:src/other.py" ++ nl; "DA:9,1" ++ nl; "end_of_record" ++ nl;
                "SF:lib/app.py" ++ nl; "DA:1,0" ++ nl; "DA:7,4" ++ nl;
                "end_of_record" ++ nl]
               [1] [2] [7] [1]); try lcov_line.
      * apply body_other; [lcov_line|].
        apply (body_hit _ 1 1); [lcov_line | lia |].
        apply (body_miss _ 2 0); [lcov_line | lia |]. apply body_nil.
      * apply (report_record "app.py"
                 ["SF:src/other.py" ++ nl; "DA:9,1" ++ nl; "end_of_record" ++ nl]
                 ("SF:lib/app.py" ++ nl) ["DA:1,0" ++ nl; "DA:7,4" ++ nl]
                 ("end_of_record" ++ nl) [] [7] [1] [] []); try lcov_line.
        -- apply (body_miss _ 1 0); [lcov_line | lia |].
           apply (body_hit _ 7 4); [lcov_line | lia |]. apply body_nil.
        -- apply report_rest. lcov_line.
  - apply (X8_lcov_all_target_records
             (with_lcov lcov_unterminated None 0 (bare_world "/"))
             (processor "pkg/app.py" "lcov" false) lcov_unterminated [1] [9]).
    + reflexivity.
    + apply (report_record "app.py" [] ("SF:app.py" ++ nl)
               ["DA:1,1" ++ nl; "SF:other.py" ++ nl; "DA:9,0" ++ nl] ("end_of_record" ++ nl)
               [] [1] [9] [] []); try lcov_line.
      * apply (body_hit _ 1 1); [lcov_line | lia |].
        apply body_other; [lcov_line|].
        apply (body_miss _ 9 0); [lcov_line | lia |]. apply body_nil.
      * apply report_rest. lcov_line.
Defined.

(** ** LCOV: a data line without hit count *)

Lemma has_char_app (c : ascii) (a b : string) :
  has_char c (a ++ b) = has_char c a || has_char c b.
Proof.
  induction a as [|x a IH]; [done|].
  rewrite str_app_cons. simpl. by rewrite IH, orb_assoc.
Qed.

Lemma has_char_drop (c : ascii) (n : nat) (s : string) :
  has_char c s = false → has_char c (PyStr.drop n s) = false.
Proof.
  revert s. induction n as [|n IH]; intros s H; [by destruct s|].
  destruct s as [|a s]; [done|]. simpl in *.
  apply orb_false_iff in H as [_ H]. by apply IH.
Qed.

Lemma has_char_remove_fuel (c : ascii) (old : string) (fuel : nat) (s : string) :
  has_char c s = false → has_char c (PyStr.remove_fuel fuel s old) = false.
Proof.
  revert s. induction fuel as [|fuel IH]; intros s H; simpl; [done|].
  destruct s as [|a s]; [done|].
  destruct (PyStr.startswith (String a s) old).
  - by apply IH, has_char_drop.
  - simpl in *. apply orb_false_iff in H as [Ha H]. by rewrite Ha, IH.
Qed.

Lemma split_onto_no_sep (sep : ascii) (s cur : string) :
  has_char sep s = false → ∃ x, PyStr.split_onto sep s cur = [x].
Proof.
  revert cur. induction s as [|a s IH]; intros cur H; simpl in *; [by eexists|].
  apply orb_false_iff in H as [Ha H]. rewrite Ha. by apply IH.
Qed.

Lemma lcov_scan_no_comma (filename : string) (pending : option exn) (raw t : string)
    (rest : list string) (c m : list Z) :
  PyStr.strip raw = "DA:" ++ t →
  has_char "," t = false →
  lcov_scan filename pending true (raw :: rest) c m
  = inl (IndexError "list index out of range").
Proof.
  intros Hraw Ht. simpl.
  assert (Hstart : PyStr.startswith (PyStr.strip raw) "DA:" = true).
  { apply startswith_spec. by exists t. }
  rewrite Hstart.
  destruct (split_onto_no_sep "," (PyStr.remove (PyStr.strip raw) "DA:") "") as [x Hx].
  { apply has_char_remove_fuel. by rewrite Hraw, has_char_app, Ht. }
  unfold PyStr.split. by rewrite Hx.
Qed.

(** X9. When, in a record of the target and after lines that parse,
    a data line holds no comma after its [DA:], the LCOV parser raises
    the [IndexError] of the missing field: nothing is logged, and the
    lines read before are not returned. *)
Theorem X9_lcov_data_line_without_comma (w : World) (self : CoverageProcessor)
    (pending : option exn) (before : list string) (sf : string) (body : list string)
    (bad t : string) (rest : list string) (cb mb : list Z) :
  let filename := posixpath.basename (src_file_path self) in
  open_lines w (file_path self)
    = inr ((before ++ sf :: body ++ bad :: rest)%list, pending) →
  (∀ l, l ∈ before → sf_matches filename l = false) →
  sf_matches filename sf = true →
  record_body body cb mb →
  PyStr.strip bad = "DA:" ++ t →
  has_char "," t = false →
  parse_coverage_report_lcov w self = ([], inl (IndexError "list index out of range")).
Proof.
  intros filename Hopen Hbefore Hsf Hbody Hbad Ht.
  unfold parse_coverage_report_lcov, lcov_read. fold filename.
  rewrite Hopen. simpl.
  rewrite lcov_scan_skip, lcov_scan_open by done.
  rewrite (lcov_scan_body _ _ _ _ _ Hbody).
  by rewrite (lcov_scan_no_comma _ _ _ t).
Qed.

Lemma X9_lcov_data_line_without_comma_witness :
  parse_coverage_report_lcov (with_lcov lcov_no_comma None 0 (bare_world "/"))
    (processor "app.py" "lcov" false)
  = ([], inl (IndexError "list index out of range")).
Proof.
  apply (X9_lcov_data_line_without_comma (with_lcov lcov_no_comma None 0 (bare_world "/"))
           (processor "app.py" "lcov" false) None [] ("SF:app.py" ++ nl)
           ["DA:1,1" ++ nl] ("DA:2" ++ nl) "2" ["end_of_record" ++ nl] [1] []).
  - reflexivity.
  - lcov_line.
  - lcov_line.
  - apply (body_hit _ 1 1); [lcov_line | lia | apply body_nil].
  - reflexivity.
  - reflexivity.
Defined.

(** ** Diff-cover: the matching keys as strings *)

Lemma split_onto_app (sep : ascii) (a b cur : string) :
  PyStr.split_onto sep (a ++ String sep b) cur
  = (PyStr.split_onto sep a cur ++ PyStr.split_onto sep b "")%list.
Proof.
  revert cur. induction a as [|x a IH]; intros cur.
  - rewrite str_app_nil_l. simpl. by rewrite Ascii.eqb_refl.
  - rewrite str_app_cons. simpl. destruct (Ascii.eqb x sep); by rewrite IH.
Qed.

Lemma split_app (sep : ascii) (a b : string) :
  PyStr.split (a ++ String sep b) sep = (PyStr.split a sep ++ PyStr.split b sep)%list.
Proof. apply split_onto_app. Qed.

Lemma unsplit_cons (sep : ascii) (x : string) (l : list string) :
  l ≠ [] → unsplit sep (x :: l) = x ++ String sep (unsplit sep l).
Proof. by destruct l. Qed.

Lemma unsplit_split_onto (sep : ascii) (s cur : string) :
  unsplit sep (PyStr.split_onto sep s cur) = PyStr.rev cur ++ s.
Proof.
  revert cur. induction s as [|a s IH]; intros cur; simpl.
  - by rewrite str_app_nil_r.
  - destruct (Ascii.eqb_spec a sep) as [->|Hne].
    + rewrite unsplit_cons.
      2:{ destruct (split_onto_cons sep s "") as (x & l & ->). done. }
      by rewrite IH.
    + by rewrite IH, rev_cons, str_app_assoc.
Qed.

(** [split] loses nothing of the string. *)
Lemma unsplit_split (sep : ascii) (s : string) : unsplit sep (PyStr.split s sep) = s.
Proof. unfold PyStr.split. by rewrite unsplit_split_onto. Qed.

Lemma split_inj (sep : ascii) (s t : string) :
  PyStr.split s sep = PyStr.split t sep → s = t.
Proof. intros H. by rewrite <- (unsplit_split sep s), H, unsplit_split. Qed.

Lemma has_char_rev_onto (c : ascii) (s acc : string) :
  has_char c (PyStr.rev_onto s acc) = has_char c s || has_char c acc.
Proof.
  revert acc. induction s as [|a s IH]; intros acc; simpl; [done|].
  rewrite IH. simpl. destruct (Ascii.eqb a c), (has_char c s); done.
Qed.

Lemma split_onto_components (sep : ascii) (s cur : string) :
  has_char sep cur = false →
  Forall (λ x, has_char sep x = false) (PyStr.split_onto sep s cur).
Proof.
  revert cur. induction s as [|a s IH]; intros cur Hcur; simpl.
  - apply Forall_singleton. unfold PyStr.rev. by rewrite has_char_rev_onto, Hcur.
  - destruct (Ascii.eqb a sep) eqn:Ha.
    + apply Forall_cons. split; [|by apply IH].
      unfold PyStr.rev. by rewrite has_char_rev_onto, Hcur.
    + apply IH. simpl. by rewrite Ha, Hcur.
Qed.

Lemma split_no_sep (sep : ascii) (x : string) :
  has_char sep x = false → PyStr.split x sep = [x].
Proof.
  intros H. destruct (split_onto_no_sep sep x "" H) as [y Hy].
  unfold PyStr.split. rewrite Hy. f_equal.
  pose proof (unsplit_split_onto sep x "") as Hu. rewrite Hy in Hu. done.
Qed.

Lemma split_unsplit (sep : ascii) (l : list string) :
  l ≠ [] → Forall (λ x, has_char sep x = false) l →
  PyStr.split (unsplit sep l) sep = l.
Proof.
  induction l as [|x l IH]; [done|]. intros _ Hall.
  apply Forall_cons in Hall as [Hx Hl].
  destruct l as [|y l]; [by apply split_no_sep|].
  rewrite unsplit_cons by done. rewrite split_app, split_no_sep by done.
  by rewrite IH.
Qed.

(** X10. The test of the diff-cover parser on a key holds iff the key
    is the relative target path itself or ends with a slash followed by
    that path. *)
Theorem X10_diff_cover_match_as_strings (rel key : string) :
  components_match (PyStr.split rel posixpath.sep) key = true ↔
  key = rel ∨ ∃ dir, key = dir ++ "/" ++ rel.
Proof.
  rewrite components_match_spec. unfold component_suffix. split.
  - intros [pre H]. destruct pre as [|p pre].
    + left. by apply (split_inj posixpath.sep).
    + right. exists (unsplit posixpath.sep (p :: pre)).
      apply (split_inj posixpath.sep).
      change ("/" ++ rel) with (String posixpath.sep rel).
      rewrite split_app, split_unsplit; [done | done |].
      pose proof (split_onto_components posixpath.sep key "" eq_refl) as Hall.
      fold (PyStr.split key posixpath.sep) in Hall. rewrite H in Hall.
      by apply Forall_app in Hall as [Hall _].
  - intros [->|[dir ->]]; [by exists [] |].
    exists (PyStr.split dir posixpath.sep).
    change ("/" ++ rel) with (String posixpath.sep rel). apply split_app.
Qed.

(** ** The extension of a file name *)

Lemma str_length_app (a b : string) :
  String.length (a ++ b) = (String.length a + String.length b)%nat.
Proof.
  induction a as [|x a IH]; [done|]. rewrite str_app_cons. simpl. by rewrite IH.
Qed.

Lemma drop_app_length (a b : string) : PyStr.drop (String.length a) (a ++ b) = b.
Proof.
  induction a as [|x a IH]; [by destruct b|]. rewrite str_app_cons. simpl. exact IH.
Qed.

Lemma rfind_from_none (c : ascii) (s : string) (i acc : Z) :
  has_char c s = false → PyStr.rfind_from s c i acc = acc.
Proof.
  revert i acc. induction s as [|a s IH]; intros i acc H; simpl in *; [done|].
  apply orb_false_iff in H as [Ha H]. by rewrite Ha, IH.
Qed.

Lemma rfind_from_app (c : ascii) (a b : string) (i acc : Z) :
  PyStr.rfind_from (a ++ b) c i acc
  = PyStr.rfind_from b c (i + Z.of_nat (String.length a)) (PyStr.rfind_from a c i acc).
Proof.
  revert i acc. induction a as [|x a IH]; intros i acc.
  - rewrite str_app_nil_l. simpl. by rewrite Z.add_0_r.
  - rewrite str_app_cons. simpl PyStr.rfind_from. rewrite IH. f_equal.
    simpl String.length. lia.
Qed.

Lemma rfind_from_bounds (c : ascii) (s : string) (i acc : Z) :
  acc < i → acc ≤ PyStr.rfind_from s c i acc < i + Z.of_nat (String.length s).
Proof.
  revert i acc. induction s as [|a s IH]; intros i acc H; simpl.
  - lia.
  - destruct (Ascii.eqb a c).
    + specialize (IH (i + 1) i ltac:(lia)). lia.
    + specialize (IH (i + 1) acc ltac:(lia)). lia.
Qed.

Lemma rfind_from_found (c : ascii) (s : string) (i acc : Z) :
  acc < i → has_char c s = true → i ≤ PyStr.rfind_from s c i acc.
Proof.
  revert i acc. induction s as [|a s IH]; intros i acc H Hc; simpl in *; [done|].
  destruct (Ascii.eqb a c); simpl in Hc.
  - pose proof (rfind_from_bounds c s (i + 1) i ltac:(lia)). lia.
  - specialize (IH (i + 1) acc ltac:(lia) Hc). lia.
Qed.

(** The index of the last occurrence. *)
Lemma rfind_last (c : ascii) (pre post : string) :
  has_char c post = false →
  PyStr.rfind (pre ++ String c post) c = Z.of_nat (String.length pre).
Proof.
  intros H. unfold PyStr.rfind. rewrite rfind_from_app. simpl.
  by rewrite Ascii.eqb_refl, rfind_from_none.
Qed.

Lemma rfind_none (c : ascii) (s : string) : has_char c s = false → PyStr.rfind s c = -1.
Proof. apply rfind_from_none. Qed.

Lemma rfind_bounds (c : ascii) (s : string) :
  -1 ≤ PyStr.rfind s c < Z.of_nat (String.length s).
Proof. apply (rfind_from_bounds c s 0 (-1)). lia. Qed.

Lemma last_occurrence (c : ascii) (s : string) :
  has_char c s = true →
  ∃ pre post, s = pre ++ String c post ∧ has_char c post = false.
Proof.
  induction s as [|a s IH]; [discriminate|]. simpl.
  destruct (has_char c s) eqn:Hs.
  - intros _. destruct (IH eq_refl) as (pre & post & -> & Hpost).
    by exists (String a pre), post.
  - rewrite orb_false_r. intros ->%Ascii.eqb_eq. by exists "", s.
Qed.

Lemma splitext_loop_Some (fuel : nat) (p : string) (fi dot : Z) (r : string * string) :
  posixpath.splitext_loop fuel p fi dot = Some r →
  r = (PyStr.slice_to p dot, PyStr.slice_from p dot).
Proof.
  revert fi. induction fuel as [|fuel IH]; intros fi; simpl; [discriminate|].
  destruct (fi <? dot); [|discriminate].
  destruct (negb _); [by intros [= <-] | apply IH].
Qed.

(** The second component of [splitext] is empty or runs from the last
    dot, which then comes after the last slash. *)
Lemma splitext_cases (p : string) :
  (posixpath.splitext p).2 = "" ∨
  (PyStr.rfind p "/" < PyStr.rfind p "." ∧
   (posixpath.splitext p).2 = PyStr.slice_from p (PyStr.rfind p ".")).
Proof.
  unfold posixpath.splitext, posixpath.sep.
  destruct (Z.ltb_spec (PyStr.rfind p "/") (PyStr.rfind p ".")) as [Hlt|_]; [|by left].
  destruct (posixpath.splitext_loop _ p _ _) as [r|] eqn:Hloop; [|by left].
  apply splitext_loop_Some in Hloop as ->. right. done.
Qed.

Lemma lstrip_chars_none (chars s : string) :
  (∀ a, PyStr.has chars a = true → has_char a s = false) →
  PyStr.lstrip_chars chars s = s.
Proof.
  destruct s as [|a s]; [done|]. intros H. simpl.
  destruct (PyStr.has chars a) eqn:Ha; [|done].
  specialize (H a Ha). simpl in H. by rewrite Ascii.eqb_refl in H.
Qed.

Lemma lstrip_dot (post : string) :
  has_char "." post = false → PyStr.lstrip_chars "." (String "." post) = post.
Proof.
  intros H. simpl. apply lstrip_chars_none. intros a Ha.
  change (PyStr.has "." a) with (Ascii.eqb "." a || false) in Ha.
  rewrite orb_false_r in Ha. by apply Ascii.eqb_eq in Ha as <-.
Qed.

(** X11. The extension [get_file_extension] returns holds no dot and
    no slash, and when it is not empty then the file name ends with a
    dot followed by it. *)
Theorem X11_file_extension_shape (self : CoverageProcessor) (filename : string) :
  let ext := get_file_extension self filename in
  has_char "." ext = false ∧ has_char "/" ext = false ∧
  (ext ≠ "" → ∃ stem, filename = stem ++ "." ++ ext).
Proof.
  unfold get_file_extension.
  destruct (splitext_cases filename) as [->|[Hlt ->]]; [done|].
  destruct (has_char "." filename) eqn:Hdot.
  2:{ rewrite (rfind_none _ _ Hdot) in Hlt.
      pose proof (rfind_bounds "/" filename). lia. }
  destruct (last_occurrence _ _ Hdot) as (pre & post & -> & Hpost).
  rewrite rfind_last in * by done.
  unfold PyStr.slice_from. rewrite Nat2Z.id, drop_app_length, lstrip_dot by done.
  split; [done|]. split; [|intros _; by exists pre].
  destruct (has_char "/" post) eqn:Hslash; [|done]. exfalso.
  unfold PyStr.rfind in Hlt. rewrite rfind_from_app in Hlt. simpl in Hlt.
  pose proof (rfind_from_found "/" post (0 + Z.of_nat (String.length pre) + 1)
                (PyStr.rfind_from pre "/" 0 (-1))) as Hfound.
  pose proof (rfind_from_bounds "/" pre 0 (-1) ltac:(lia)).
  specialize (Hfound ltac:(lia) Hslash). lia.
Qed.

Lemma X11_file_extension_shape_witness :
  ∃ stem, "pkg.d/archive.tar.gz" = stem ++ "." ++ "gz".
Proof.
  apply (proj2 (proj2 (X11_file_extension_shape (processor "" "" false)
                         "pkg.d/archive.tar.gz"))).
  discriminate.
Defined.

Lemma slice_at (a : string) (x : ascii) (b : string) :
  PyStr.slice (a ++ String x b) (Z.of_nat (String.length a))
    (Z.of_nat (String.length a) + 1) = String x "".
Proof.
  unfold PyStr.slice.
  replace (Z.of_nat (String.length a) + 1 - Z.of_nat (String.length a)) with 1 by lia.
  by rewrite Nat2Z.id, drop_app_length.
Qed.

Lemma splitext_loop_finds (p a : string) (x : ascii) (b : string) (dot : Z) :
  p = a ++ String x b → x ≠ "."%char → Z.of_nat (String.length a) < dot →
  ∀ fuel fi,
    fi ≤ Z.of_nat (String.length a) →
    (Z.to_nat (dot - fi) < fuel)%nat →
    posixpath.splitext_loop fuel p fi dot
    = Some (PyStr.slice_to p dot, PyStr.slice_from p dot).
Proof.
  intros Hp Hx Hdot. induction fuel as [|fuel IH]; intros fi Hfi Hfuel; [lia|].
  simpl. destruct (Z.ltb_spec fi dot) as [_|?]; [|lia].
  destruct (String.eqb_spec (PyStr.slice p fi (fi + 1)) ".") as [Heq|_]; [|done].
  simpl. apply IH; [|lia].
  destruct (decide (fi = Z.of_nat (String.length a))) as [->|?]; [|lia].
  rewrite Hp, slice_at in Heq. congruence.
Qed.

Lemma dots_snoc (n : nat) : dots (S n) = dots n ++ ".".
Proof. induction n as [|n IH]; [done|]. simpl in *. by rewrite str_app_cons, <- IH. Qed.

Lemma dots_length (n : nat) : String.length (dots n) = n.
Proof. induction n as [|n IH]; [done|]. simpl. by rewrite IH. Qed.

Lemma dots_split (k m : nat) : dots (k + S m) = dots k ++ String "." (dots m).
Proof. induction k as [|k IH]; [done|]. simpl. by rewrite str_app_cons, <- IH. Qed.

Lemma splitext_loop_dots (a rest : string) (n : nat) :
  ∀ fuel k,
    (k ≤ n)%nat →
    posixpath.splitext_loop fuel (a ++ dots n ++ rest)
      (Z.of_nat (String.length a + k)) (Z.of_nat (String.length a + n)) = None.
Proof.
  induction fuel as [|fuel IH]; intros k Hk; [done|]. simpl.
  destruct (Z.ltb_spec (Z.of_nat (String.length a + k)) (Z.of_nat (String.length a + n)))
    as [Hlt|_]; [|done].
  assert (Hslice : PyStr.slice (a ++ dots n ++ rest) (Z.of_nat (String.length a + k))
                     (Z.of_nat (String.length a + k) + 1) = ".").
  { assert (Hlen : Z.of_nat (String.length a + k)
                   = Z.of_nat (String.length (a ++ dots k)))
      by (by rewrite str_length_app, dots_length).
    assert (Hp : a ++ dots n ++ rest
                 = (a ++ dots k) ++ String "." (dots (n - k - 1) ++ rest)).
    { replace (dots n) with (dots (k + S (n - k - 1))) by (f_equal; lia).
      rewrite dots_split, !str_app_assoc. by rewrite str_app_cons. }
    rewrite Hp, Hlen. apply slice_at. }
  rewrite Hslice. simpl.
  replace (Z.of_nat (String.length a + k) + 1) with (Z.of_nat (String.length a + S k))
    by lia.
  apply IH. lia.
Qed.

Lemma rfind_app_none (c : ascii) (a b : string) :
  has_char c b = false → PyStr.rfind (a ++ b) c = PyStr.rfind a c.
Proof. intros H. unfold PyStr.rfind. by rewrite rfind_from_app, rfind_from_none. Qed.

(** X12. When the part of the name after its last slash has a
    character that is not a dot before its last dot, the extension is
    the text after that last dot.  When that part is made of dots
    followed by a name without dot (a hidden file, a name without
    extension), the extension is empty. *)
Theorem X12_file_extension_cases (self : CoverageProcessor) :
  (∀ pre x mid ext,
     x ≠ "."%char →
     has_char "/" (String x mid) = false →
     has_char "." ext = false → has_char "/" ext = false →
     get_file_extension self (pre ++ String x mid ++ "." ++ ext) = ext) ∧
  (∀ dir n name,
     dir = "" ∨ (∃ d, dir = d ++ "/") →
     has_char "." name = false → has_char "/" name = false →
     get_file_extension self (dir ++ dots n ++ name) = "").
Proof.
  split.
  - intros pre x mid ext Hx Hmid Hdot Hslash.
    set (p := pre ++ String x mid ++ "." ++ ext).
    assert (Hp : p = (pre ++ String x mid) ++ String "." ext).
    { unfold p. by rewrite !str_app_assoc. }
    assert (Hdi : PyStr.rfind p "." = Z.of_nat (String.length (pre ++ String x mid))).
    { rewrite Hp. by apply rfind_last. }
    assert (Hsi : PyStr.rfind p "/" = PyStr.rfind pre "/").
    { unfold p. apply rfind_app_none. rewrite str_app_cons.
      cbn [has_char] in Hmid |- *. apply orb_false_iff in Hmid as [-> Hmid].
      rewrite has_char_app, Hmid, str_app_cons, str_app_nil_l.
      cbn [has_char orb]. by rewrite Hslash. }
    pose proof (rfind_bounds "/" pre) as Hb.
    rewrite str_length_app in Hdi. simpl in Hdi.
    unfold get_file_extension, posixpath.splitext, posixpath.sep.
    fold p. rewrite Hsi, Hdi.
    destruct (Z.ltb_spec (PyStr.rfind pre "/")
                (Z.of_nat (String.length pre + S (String.length mid)))) as [_|?]; [|lia].
    rewrite (splitext_loop_finds p pre x (mid ++ "." ++ ext)); [|done|done|lia|lia|lia].
    simpl. unfold PyStr.slice_from. rewrite Nat2Z.id, Hp.
    replace (String.length pre + S (String.length mid))%nat
      with (String.length (pre ++ String x mid))
      by (rewrite str_length_app; simpl; lia).
    by rewrite drop_app_length, lstrip_dot.
  - intros dir n name Hdir Hdot Hslash.
    set (p := dir ++ dots n ++ name).
    assert (Hsi : PyStr.rfind p "/" = Z.of_nat (String.length dir) - 1).
    { unfold p. rewrite rfind_app_none.
      - destruct Hdir as [->|[d ->]]; [done|].
        rewrite (rfind_last "/" d "") by done. rewrite str_length_app. simpl. lia.
      - rewrite has_char_app, Hslash, orb_false_r. clear. by induction n. }
    unfold get_file_extension, posixpath.splitext, posixpath.sep. fold p. rewrite Hsi.
    destruct n as [|n].
    + assert (Hdi : PyStr.rfind p "." = PyStr.rfind dir ".").
      { unfold p. by apply rfind_app_none. }
      pose proof (rfind_bounds "." dir) as Hb. rewrite Hdi.
      destruct (Z.ltb_spec (Z.of_nat (String.length dir) - 1) (PyStr.rfind dir "."));
        [lia | done].
    + assert (Hdi : PyStr.rfind p "." = Z.of_nat (String.length dir + n)).
      { unfold p. rewrite dots_snoc, str_app_assoc, <- str_app_assoc.
        change ("." ++ name) with (String "." name).
        rewrite rfind_last, str_length_app, dots_length by done. lia. }
      rewrite Hdi.
      destruct (Z.ltb_spec (Z.of_nat (String.length dir) - 1)
                  (Z.of_nat (String.length dir + n))) as [_|?]; [|lia].
      replace (Z.of_nat (String.length dir) - 1 + 1)
        with (Z.of_nat (String.length dir + 0)) by lia.
      unfold p. rewrite dots_snoc, str_app_assoc.
      rewrite (splitext_loop_dots dir ("." ++ name) n _ 0) by lia.
      reflexivity.
Qed.

Lemma X12_file_extension_cases_witness :
  get_file_extension (processor "" "" false) ("pkg.d/" ++ "archive.tar" ++ "." ++ "gz") = "gz" ∧
  get_file_extension (processor "" "" false) ("home/" ++ dots 1 ++ "bashrc") = "".
Proof.
  split.
  - apply (proj1 (X12_file_extension_cases (processor "" "" false))
             "pkg.d/" "a"%char "rchive.tar" "gz"); [discriminate | done..].
  - apply (proj2 (X12_file_extension_cases (processor "" "" false)) "home/" 1%nat "bashrc");
      [right; by exists "home" | done..].
Defined.

(** ** The classification of one class element *)

Lemma classify_lines_length (lines : list ET.Element) (c0 m0 c m : list Z) :
  classify_lines lines c0 m0 = inr (c, m) →
  (length c + length m = length c0 + length m0 + length lines)%nat.
Proof.
  revert c0 m0. induction lines as [|line rest IH]; intros c0 m0 H; simpl in H.
  - injection H as <- <-. simpl. lia.
  - inv_bind H. inv_bind H.
    destruct (0 <? x0); apply IH in H; rewrite length_app in H; simpl in *; lia.
Qed.

(** X13. When [parse_coverage_data_for_class] returns, each line
    element under the class element is counted once, as covered or as
    missed, and the ratio is that of the two counts, between 0 and 1. *)
Theorem X13_class_lines_partition (cls : ET.Element) (covered missed : list Z)
    (ratio : Q) :
  parse_coverage_data_for_class cls = inr (covered, missed, ratio) →
  (length covered + length missed = length (ET.findall_desc cls "line"))%nat ∧
  (∀ n, n ∈ covered ↔ covered_in cls n) ∧
  (∀ n, n ∈ missed ↔ missed_in cls n) ∧
  ratio_facts (covered, missed, ratio).
Proof.
  intros H.
  destruct (parse_coverage_data_for_class_spec cls covered missed ratio H) as [Hc Hm].
  unfold parse_coverage_data_for_class in H. inv_bind H. destruct x as [c m].
  injection H as -> -> <-.
  apply classify_lines_length in Hx. simpl in Hx.
  split; [done|]. split; [done|]. split; [done|].
  replace (if (0 <? length covered + length missed)%nat
           then truediv (length covered) (length covered + length missed) else 0%Q)
    with (ratio_of (length covered) (length missed)).
  - apply ratio_of_facts.
  - unfold ratio_of. by destruct (length covered + length missed)%nat.
Qed.

Lemma X13_class_lines_partition_witness :
  let cls := xml_class "a.py"
               [xml_line "1" "1"; xml_line "7" "0"; xml_line "2" "5"; xml_line "7" "0"] in
  let covered : list Z := [1; 2] in
  let missed : list Z := [7; 7] in
  (length covered + length missed = length (ET.findall_desc cls "line"))%nat ∧
  (∀ n, n ∈ covered ↔ covered_in cls n) ∧
  (∀ n, n ∈ missed ↔ missed_in cls n) ∧
  ratio_facts (covered, missed, 1 # 2).
Proof.
  intros cls covered missed.
  apply (X13_class_lines_partition cls covered missed (1 # 2)).
  vm_compute. reflexivity.
Defined.

(** ** Diff-cover: a plain relative target *)

Lemma unsplit_app (sep : ascii) (l1 l2 : list string) :
  l1 ≠ [] → l2 ≠ [] →
  unsplit sep (l1 ++ l2) = unsplit sep l1 ++ String sep (unsplit sep l2).
Proof.
  intros H1 H2. induction l1 as [|x l1 IH]; [done|].
  destruct l1 as [|y l1].
  - simpl app. by rewrite unsplit_cons.
  - rewrite <- app_comm_cons, unsplit_cons by done.
    rewrite IH by done. rewrite (unsplit_cons sep x (y :: l1)) by done.
    by rewrite str_app_assoc, str_app_cons.
Qed.

Lemma join_fold (sep : ascii) (xs l : list string) :
  l ≠ [] →
  fold_left (λ acc y, acc ++ String sep "" ++ y) xs (unsplit sep l)
  = unsplit sep (l ++ xs).
Proof.
  revert l. induction xs as [|y ys IH]; intros l Hl; simpl.
  - by rewrite app_nil_r.
  - rewrite str_app_cons, str_app_nil_l.
    replace (unsplit sep l ++ String sep y) with (unsplit sep (l ++ [y]))
      by (by rewrite unsplit_app).
    rewrite IH by (by destruct l). by rewrite <- app_assoc.
Qed.

(** [sep.join(l)] puts the components together. *)
Lemma join_unsplit (sep : ascii) (l : list string) :
  PyStr.join (String sep "") l = unsplit sep l.
Proof.
  destruct l as [|x xs]; [done|]. unfold PyStr.join.
  exact (join_fold sep xs [x] ltac:(done)).
Qed.

Lemma plain_no_slash (l : list string) :
  Forall plain l → Forall (λ x, has_char "/" x = false) l.
Proof. intros H. eapply Forall_impl; [exact H|]. by intros x (_ & _ & _ & ?). Qed.

Lemma normpath_step_plain (i : nat) (acc : list string) (c : string) :
  plain c → posixpath.normpath_step i acc c = (acc ++ [c])%list.
Proof.
  intros (H1 & H2 & H3 & _). unfold posixpath.normpath_step.
  apply String.eqb_neq in H1, H2, H3. by rewrite H1, H2, H3.
Qed.

Lemma normpath_fold_plain (i : nat) (l acc : list string) :
  Forall plain l → fold_left (posixpath.normpath_step i) l acc = (acc ++ l)%list.
Proof.
  revert acc. induction l as [|c l IH]; intros acc Hl; simpl.
  - by rewrite app_nil_r.
  - apply Forall_cons in Hl as [Hc Hl].
    by rewrite normpath_step_plain, IH, <- app_assoc.
Qed.

Lemma startswith_slash_unsplit (x : string) (l : list string) :
  x ≠ "" → has_char "/" x = false →
  PyStr.startswith (unsplit "/" (x :: l)) "/" = false.
Proof.
  intros Hx Hs. destruct x as [|a x]; [done|].
  assert (Hhead : ∃ t, unsplit "/" (String a x :: l) = String a t).
  { destruct l; [by eexists | rewrite unsplit_cons by done; by eexists]. }
  destruct Hhead as [t ->]. cbn [PyStr.startswith has_char] in *.
  apply orb_false_iff in Hs as [Ha _]. by rewrite Ascii.eqb_sym, Ha.
Qed.

Lemma split_rooted (l : list string) :
  Forall (λ x, has_char "/" x = false) l →
  List.filter PyStr.nonempty (PyStr.split (String "/" (unsplit "/" l)) "/")
  = List.filter PyStr.nonempty l.
Proof.
  intros Hl. rewrite <- (str_app_nil_l (String "/" _)), split_app.
  destruct l as [|x l]; [done|]. by rewrite split_unsplit.
Qed.

Lemma filter_nonempty_plain (l : list string) :
  Forall plain l → List.filter PyStr.nonempty l = l.
Proof.
  induction 1 as [|x l [Hx _] _ IH]; [done|]. simpl.
  apply nonempty_true in Hx. by rewrite Hx, IH.
Qed.

(** [normpath] on a rooted path whose components are plain, or plain
    and then one dot. *)
Lemma normpath_rooted (cs : list string) (tail : list string) :
  Forall plain cs → tail = [] ∨ tail = ["."] →
  (cs ++ tail)%list ≠ [] →
  posixpath.normpath (String "/" (unsplit "/" (cs ++ tail)))
  = String "/" (unsplit "/" cs).
Proof.
  intros Hcs Htail Hne.
  assert (Hslash : Forall (λ x, has_char "/" x = false) (cs ++ tail)).
  { apply Forall_app. split; [by apply plain_no_slash|].
    destruct Htail as [->| ->]; repeat constructor. }
  assert (Hhead : PyStr.startswith (unsplit "/" (cs ++ tail)) "/" = false).
  { destruct (cs ++ tail)%list as [|x l] eqn:E; [done|].
    apply startswith_slash_unsplit.
    - destruct cs as [|c cs]; simpl in E.
      + destruct Htail as [->| ->]; [done | by injection E as <- _].
      + injection E as <- _. apply Forall_cons in Hcs as [(? & _) _]. done.
    - by apply Forall_cons in Hslash as [? _]. }
  assert (Hsplit : PyStr.split (String "/" (unsplit "/" (cs ++ tail))) "/"
                   = "" :: (cs ++ tail)%list).
  { rewrite <- (str_app_nil_l (String "/" _)), split_app.
    by rewrite split_unsplit. }
  assert (Hfold : fold_left (posixpath.normpath_step 1) ("" :: cs ++ tail)%list [] = cs).
  { simpl fold_left. change (posixpath.normpath_step 1 [] "") with (@nil string).
    rewrite fold_left_app, (normpath_fold_plain 1 cs []) by done. simpl app.
    destruct Htail as [->| ->]; done. }
  set (u := unsplit "/" (cs ++ tail)) in *.
  unfold posixpath.normpath, posixpath.sep. rewrite Hsplit.
  assert (H1 : PyStr.startswith (String "/" u) "/" = true).
  { apply startswith_spec. by exists u. }
  assert (H2 : PyStr.startswith (String "/" u) "//" = false).
  { change (PyStr.startswith (String "/" u) "//") with (PyStr.startswith u "/"). done. }
  change (String.eqb (String "/" u) "") with false. cbv iota zeta.
  rewrite H1, H2. cbv iota zeta. simpl andb. cbv iota.
  rewrite Hfold, join_unsplit. done.
Qed.

Lemma unsplit_head (a : ascii) (x : string) (l : list string) :
  ∃ t, unsplit "/" (String a x :: l) = String a t.
Proof. destruct l; [by eexists | rewrite unsplit_cons by done; by eexists]. Qed.

Lemma last_Forall {A} (P : A → Prop) (l : list A) (d : A) :
  Forall P l → l ≠ [] → P (List.last l d).
Proof.
  induction 1 as [|x l Hx Hl IH]; [done|]. intros _.
  destruct l as [|y l]; [done|]. apply IH. done.
Qed.

Lemma endswith_rooted (cs : list string) :
  Forall plain cs → cs ≠ [] →
  PyStr.endswith (String "/" (unsplit "/" cs)) "/" = false.
Proof.
  intros Hcs Hne. apply not_true_iff_false. intros [pre Hpre]%endswith_spec.
  assert (Hlast : List.last (PyStr.split (String "/" (unsplit "/" cs)) "/") "" = "").
  { unfold PyStr.split. apply last_split_onto. right. by exists pre. }
  rewrite <- (str_app_nil_l (String "/" _)), split_app in Hlast.
  rewrite split_unsplit in Hlast by (done || by apply plain_no_slash).
  change (PyStr.split "" "/") with [""] in Hlast. simpl app in Hlast.
  rewrite last_cons_cons in Hlast by done.
  by destruct (last_Forall plain cs "" Hcs Hne) as [? _].
Qed.

(** Joining a rooted directory of plain components with a relative
    path. *)
Lemma join_rooted (cs t : list string) (a : ascii) (x : string) (l : list string) :
  Forall plain cs → t = String a x :: l → has_char "/" (String a x) = false →
  posixpath.join (String "/" (unsplit "/" cs)) (unsplit "/" t)
  = String "/" (unsplit "/" (cs ++ t)).
Proof.
  intros Hcs -> Hx. unfold posixpath.join.
  rewrite startswith_slash_unsplit by done.
  change (String.eqb (String "/" (unsplit "/" cs)) "") with false. simpl orb.
  destruct cs as [|c cs].
  - change (PyStr.endswith (String "/" (unsplit "/" [])) "/") with true. cbv iota.
    change (unsplit "/" []) with "". by rewrite str_app_cons, str_app_nil_l.
  - rewrite endswith_rooted by done.
    rewrite unsplit_app by done. by rewrite !str_app_cons, str_app_nil_l.
Qed.

Lemma commonprefix_len_app (a b : list string) :
  posixpath.commonprefix_len a (a ++ b) = length a.
Proof.
  induction a as [|x a IH]; [by destruct b|]. simpl. by rewrite String.eqb_refl, IH.
Qed.

(** For a current directory of plain components and a relative path of
    plain components, [relpath] is the path itself. *)
Lemma relpath_plain (cs ps : list string) :
  Forall plain cs → Forall plain ps → ps ≠ [] →
  posixpath.relpath (String "/" (unsplit "/" cs)) (unsplit "/" ps)
  = Some (unsplit "/" ps).
Proof.
  intros Hcs Hps Hne.
  destruct ps as [|[|a x] ps'] eqn:Eps; [done| |].
  { apply Forall_cons in Hps as [[? _] _]. done. }
  rewrite <- Eps in *.
  assert (Hx : has_char "/" (String a x) = false).
  { rewrite Eps in Hps. by apply Forall_cons in Hps as [(_ & _ & _ & ?) _]. }
  assert (Hpath : ∃ u, unsplit "/" ps = String a u).
  { rewrite Eps. apply unsplit_head. }
  assert (Hrel : PyStr.startswith (unsplit "/" ps) "/" = false).
  { rewrite Eps. by apply startswith_slash_unsplit. }
  assert (Habs_start : posixpath.abspath (String "/" (unsplit "/" cs)) "."
                       = String "/" (unsplit "/" cs)).
  { unfold posixpath.abspath. change (posixpath.isabs ".") with false. cbv iota.
    change "." with (unsplit "/" ["."]) at 1.
    rewrite (join_rooted cs ["."] "." "" []) by done.
    apply normpath_rooted; [done | by right | by destruct cs]. }
  assert (Habs_path : posixpath.abspath (String "/" (unsplit "/" cs)) (unsplit "/" ps)
                      = String "/" (unsplit "/" (cs ++ ps))).
  { unfold posixpath.abspath, posixpath.isabs. rewrite Hrel.
    rewrite (join_rooted cs ps a x ps') by done.
    rewrite <- (app_nil_r (cs ++ ps)) at 1.
    apply normpath_rooted; [by apply Forall_app | by left |].
    rewrite app_nil_r, Eps. by destruct cs. }
  unfold posixpath.relpath.
  destruct Hpath as [u Hu]. rewrite Hu at 1.
  change (String.eqb (String a u) "") with false. cbv iota.
  rewrite Habs_start, Habs_path. unfold posixpath.sep.
  rewrite !split_rooted by (apply plain_no_slash; by try apply Forall_app).
  rewrite !filter_nonempty_plain by (by try apply Forall_app).
  cbv zeta. rewrite commonprefix_len_app, Nat.sub_diag. simpl List.repeat.
  simpl app. rewrite skipn_app, skipn_all, Nat.sub_diag. simpl.
  rewrite Eps at 1. cbv iota. simpl posixpath.is_nil. cbv iota.
  by rewrite join_unsplit.
Qed.

(** X14. When the current directory is a rooted path of plain
    components and the target is a relative path of plain components
    (none empty, no dot, no double dot), [os.path.relpath] leaves the
    target as it is: the diff-cover parser matches the keys against the
    components of the target as given, whatever the current directory. *)
Theorem X14_diff_cover_plain_target (w : World) (self : CoverageProcessor)
    (cs ps : list string) (p : string) (rd : ReportData) :
  Forall plain cs → Forall plain ps → ps ≠ [] →
  getcwd w = "/" ++ unsplit "/" cs →
  src_file_path self = unsplit "/" ps →
  diff_coverage_report_path self = Some p →
  json_load w p = inr rd →
  posixpath.relpath (getcwd w) (src_file_path self) = Some (src_file_path self) ∧
  parse_json_diff_coverage_report w self
  = inr match find_stats ps (src_stats rd) with
        | Some st => (covered_lines st, violation_lines st, Qred (percent_covered st / 100))
        | None => ([], [], 0%Q)
        end.
Proof.
  intros Hcs Hps Hne Hcwd Hsrc Hp Hrd.
  assert (Hrel : posixpath.relpath (getcwd w) (src_file_path self)
                 = Some (src_file_path self)).
  { rewrite Hcwd, Hsrc, str_app_cons, str_app_nil_l. by apply relpath_plain. }
  split; [done|].
  rewrite (diff_cover_eq w self p _ rd Hp Hrd Hrel), Hsrc.
  by rewrite split_unsplit by (done || by apply plain_no_slash).
Qed.

Lemma X14_diff_cover_plain_target_witness :
  posixpath.relpath "/home/u" "path/to/app.py" = Some "path/to/app.py" ∧
  parse_json_diff_coverage_report (with_json diff_app 0 (bare_world "/home/u"))
    (processor "path/to/app.py" "diff_cover_json" false)
  = inr ([1; 3; 5], [2; 4; 6], 1 # 2).
Proof.
  apply (X14_diff_cover_plain_target (with_json diff_app 0 (bare_world "/home/u"))
           (processor "path/to/app.py" "diff_cover_json" false)
           ["home"; "u"] ["path"; "to"; "app.py"] "diff_coverage.json"
           {| src_stats := diff_app |}).
  - repeat constructor; discriminate.
  - repeat constructor; discriminate.
  - discriminate.
  - reflexivity.
  - reflexivity.
  - reflexivity.
  - reflexivity.
Defined.

(** * Text positions *)

Import TextUtils.

Lemma count_app (c : ascii) (a b : string) :
  count c (a ++ b) = (count c a + count c b)%nat.
Proof.
  induction a as [|x a IH]; [done|]. rewrite str_app_cons. simpl.
  destruct (Ascii.eqb x c); simpl; by rewrite IH.
Qed.

Lemma count_has_char (c : ascii) (s : string) :
  count c s = 0%nat ↔ has_char c s = false.
Proof.
  induction s as [|a s IH]; [done|]. simpl.
  destruct (Ascii.eqb a c); simpl; [split; discriminate | exact IH].
Qed.

Lemma last_split_onto_cur (sep : ascii) (s cur : string) :
  List.last (PyStr.split_onto sep s cur) ""
  = if has_char sep s then List.last (PyStr.split_onto sep s "") ""
    else PyStr.rev cur ++ s.
Proof.
  revert cur. induction s as [|x s IH]; intros cur; cbn [PyStr.split_onto has_char].
  - simpl. by rewrite str_app_nil_r.
  - destruct (Ascii.eqb x sep) eqn:Hx; cbn [orb].
    + rewrite !last_cons_cons; [done| |];
        by destruct (split_onto_cons sep s "") as (y & l & ->).
    + rewrite (IH (String x cur)), (IH (String x "")).
      destruct (has_char sep s); [done|].
      by rewrite rev_cons, str_app_assoc.
Qed.

Lemma last_split_onto_app (sep : ascii) (a b cur : string) :
  List.last (PyStr.split_onto sep (a ++ b) cur) ""
  = if has_char sep b then List.last (PyStr.split_onto sep b "") ""
    else List.last (PyStr.split_onto sep a cur) "" ++ b.
Proof.
  revert cur. induction a as [|x a IH]; intros cur.
  - rewrite str_app_nil_l. apply last_split_onto_cur.
  - rewrite str_app_cons. cbn [PyStr.split_onto]. destruct (Ascii.eqb x sep).
    + rewrite !last_cons_cons; [apply IH| |];
        by match goal with
           | |- PyStr.split_onto ?s ?t ?c ≠ [] =>
               destruct (split_onto_cons s t c) as (y & l & ->)
           end.
    + apply IH.
Qed.

Lemma last_line_app (a b : string) :
  last_line (a ++ b) = if has_char newline b then last_line b else last_line a ++ b.
Proof. apply last_split_onto_app. Qed.

Lemma last_line_no_break (s : string) : has_char newline s = false → last_line s = s.
Proof.
  intros H. unfold last_line, PyStr.split. by rewrite last_split_onto_cur, H.
Qed.

Lemma updated_position_eq (l c : Z) (s : string) :
  get_updated_position_from_line_and_column_and_edit l c s
  = if has_char newline s then (l + line_breaks s, Z.of_nat (String.length (last_line s)))
    else (l, c + Z.of_nat (String.length s)).
Proof.
  unfold get_updated_position_from_line_and_column_and_edit, line_breaks.
  destruct (has_char newline s) eqn:H.
  - destruct (count newline s) eqn:Hc; [by apply count_has_char in Hc; congruence|].
    destruct (Z.ltb_spec 0 (Z.of_nat (S n))); [done | lia].
  - apply count_has_char in H. by rewrite H.
Qed.

Lemma updated_position_app (l c : Z) (s1 s2 : string) :
  get_updated_position_from_line_and_column_and_edit l c (s1 ++ s2)
  = let '(l1, c1) := get_updated_position_from_line_and_column_and_edit l c s1 in
    get_updated_position_from_line_and_column_and_edit l1 c1 s2.
Proof.
  rewrite (updated_position_eq l c s1).
  destruct (has_char newline s1) eqn:H1; rewrite !updated_position_eq;
    rewrite has_char_app, H1, last_line_app; unfold line_breaks;
    rewrite count_app, str_length_app; destruct (has_char newline s2) eqn:H2; simpl.
  - f_equal. lia.
  - apply count_has_char in H2. rewrite H2, str_length_app. f_equal; lia.
  - apply count_has_char in H1. rewrite H1. f_equal.
  - f_equal. lia.
Qed.

(** X15. Inserting a text made of two parts moves the position as
    inserting the first part and then the second: the position after an
    edit can be computed piece by piece. *)
Theorem X15_updated_position_composes (l c : Z) (s1 s2 : string) :
  get_updated_position_from_line_and_column_and_edit l c (s1 ++ s2)
  = let '(l1, c1) := get_updated_position_from_line_and_column_and_edit l c s1 in
    get_updated_position_from_line_and_column_and_edit l1 c1 s2.
Proof. apply updated_position_app. Qed.

Lemma updated_position_cons (l c : Z) (a : ascii) (s : string) :
  get_updated_position_from_line_and_column_and_edit l c (String a s)
  = if Ascii.eqb a newline
    then get_updated_position_from_line_and_column_and_edit (l + 1) 0 s
    else get_updated_position_from_line_and_column_and_edit l (c + 1) s.
Proof.
  change (String a s) with (String a "" ++ s). rewrite updated_position_app.
  unfold get_updated_position_from_line_and_column_and_edit at 1.
  cbn [count PyStr.split PyStr.split_onto String.length].
  destruct (Ascii.eqb a newline); reflexivity.
Qed.

Lemma take_length (n : nat) (s : string) :
  (n ≤ String.length s)%nat → String.length (PyStr.take n s) = n.
Proof.
  revert s. induction n as [|n IH]; intros s H; [done|].
  destruct s as [|a s]; simpl in *; [lia|]. rewrite IH; lia.
Qed.

Lemma take_drop_str (n : nat) (s : string) : PyStr.take n s ++ PyStr.drop n s = s.
Proof.
  revert s. induction n as [|n IH]; intros s; [by destruct s|].
  destruct s as [|a s]; [done|]. simpl. by rewrite str_app_cons, IH.
Qed.

Lemma line_col_loop_ok (k : nat) (rest : string) (l c : Z) :
  (k ≤ String.length rest)%nat →
  line_col_loop k rest l c
  = inr (get_updated_position_from_line_and_column_and_edit l c (PyStr.take k rest)).
Proof.
  revert rest l c. induction k as [|k IH]; intros rest l c H; simpl.
  - destruct rest; unfold get_updated_position_from_line_and_column_and_edit; simpl;
      by rewrite Z.add_0_r.
  - destruct rest as [|a rest]; simpl in H; [lia|].
    rewrite updated_position_cons.
    destruct (Ascii.eqb a newline); apply IH; lia.
Qed.

Lemma line_col_loop_out_of_range (k : nat) (rest : string) (l c : Z) :
  (String.length rest < k)%nat →
  line_col_loop k rest l c = inl (IndexError "string index out of range").
Proof.
  revert rest l c. induction k as [|k IH]; intros rest l c H; [lia|].
  destruct rest as [|a rest]; simpl in *; [done|].
  destruct (Ascii.eqb a newline); apply IH; lia.
Qed.

(** X16. For an index within the text, [get_line_col_from_index]
    returns the number of line breaks before the index and the number
    of characters between the last of them and the index, which is the
    position [get_updated_position_from_line_and_column_and_edit]
    gives for the text before the index inserted at (0, 0).  For a
    negative index it returns (0, 0); for an index beyond the length of
    the text it raises [IndexError]. *)
Theorem X16_line_col_from_index (text : string) (index : Z) :
  (0 ≤ index ≤ Z.of_nat (String.length text) →
   get_line_col_from_index text index
   = inr (line_breaks (PyStr.slice_to text index),
          Z.of_nat (String.length (last_line (PyStr.slice_to text index)))) ∧
   get_line_col_from_index text index
   = inr (get_updated_position_from_line_and_column_and_edit 0 0
            (PyStr.slice_to text index))) ∧
  (index < 0 → get_line_col_from_index text index = inr (0, 0)) ∧
  (Z.of_nat (String.length text) < index →
   get_line_col_from_index text index = inl (IndexError "string index out of range")).
Proof.
  unfold get_line_col_from_index, PyStr.slice_to. split; [|split].
  - intros H. rewrite line_col_loop_ok by lia. split; [|done].
    rewrite updated_position_eq.
    destruct (has_char newline (PyStr.take (Z.to_nat index) text)) eqn:Hc; [done|].
    rewrite last_line_no_break by done. unfold line_breaks.
    apply count_has_char in Hc. by rewrite Hc.
  - intros H. by replace (Z.to_nat index) with 0%nat by lia.
  - intros H. apply line_col_loop_out_of_range. lia.
Qed.

Lemma X16_line_col_from_index_witness :
  let text := "ab" ++ nl ++ "cde" ++ nl ++ "f" in
  get_line_col_from_index text 5 = inr (1, 2) ∧
  get_line_col_from_index text (-3) = inr (0, 0) ∧
  get_line_col_from_index text 9 = inl (IndexError "string index out of range").
Proof.
  intros text.
  destruct (X16_line_col_from_index text 5) as (H1 & _ & _).
  destruct (X16_line_col_from_index text (-3)) as (_ & H2 & _).
  destruct (X16_line_col_from_index text 9) as (_ & _ & H3).
  split; [|split].
  - apply H1. vm_compute. split; discriminate.
  - apply H2. lia.
  - apply H3. vm_compute. reflexivity.
Defined.

Lemma last_line_cons (a : ascii) (s : string) :
  last_line (String a s)
  = if has_char newline s then last_line s
    else if Ascii.eqb a newline then s else String a s.
Proof.
  change (String a s) with (String a "" ++ s). rewrite last_line_app.
  destruct (has_char newline s); [done|].
  unfold last_line, PyStr.split. cbn [PyStr.split_onto].
  destruct (Ascii.eqb a newline); reflexivity.
Qed.

Lemma last_line_length (s : string) :
  (String.length (last_line s) ≤ String.length s)%nat.
Proof.
  induction s as [|a s IH]; [done|]. rewrite last_line_cons. simpl.
  destruct (has_char newline s); [lia|]. destruct (Ascii.eqb a newline); simpl; lia.
Qed.

(** The loop of [get_index_from_line_col] stops right after as many
    line breaks as asked for. *)
Lemma index_loop_prefix (text prefix suffix : string) (idx : Z) :
  index_loop text (prefix ++ suffix) (line_breaks prefix) idx
  = inr (idx + Z.of_nat (String.length prefix)
         - Z.of_nat (String.length (last_line prefix))).
Proof.
  revert idx. induction prefix as [|a prefix IH]; intros idx.
  - rewrite str_app_nil_l. destruct suffix; simpl; f_equal; lia.
  - rewrite str_app_cons, last_line_cons. unfold line_breaks in *.
    cbn [count index_loop String.length].
    destruct (Ascii.eqb a newline) eqn:Ha.
    + destruct (Z.ltb_spec 0 (Z.of_nat (S (count newline prefix)))) as [_|?]; [|lia].
      replace (Z.of_nat (S (count newline prefix)) - 1)
        with (Z.of_nat (count newline prefix)) by lia.
      rewrite IH. f_equal.
      destruct (has_char newline prefix) eqn:Hc; [lia|].
      rewrite last_line_no_break by done. lia.
    + destruct (has_char newline prefix) eqn:Hc.
      * destruct (Z.ltb_spec 0 (Z.of_nat (count newline prefix))) as [_|Hz].
        -- rewrite IH. f_equal. lia.
        -- assert (count newline prefix = 0%nat) as Hz' by lia.
           apply count_has_char in Hz'. congruence.
      * apply count_has_char in Hc. rewrite Hc. simpl. f_equal. lia.
Qed.

(** X17. For every index within the text, the line and column that
    [get_line_col_from_index] returns are turned back into that index
    by [get_index_from_line_col]. *)
Theorem X17_index_round_trip (text : string) (index : Z) :
  0 ≤ index ≤ Z.of_nat (String.length text) →
  ∃ l c,
    get_line_col_from_index text index = inr (l, c) ∧
    get_index_from_line_col text l c = inr index.
Proof.
  intros H. set (prefix := PyStr.take (Z.to_nat index) text).
  exists (line_breaks prefix), (Z.of_nat (String.length (last_line prefix))).
  split.
  - unfold get_line_col_from_index. rewrite line_col_loop_ok by lia. fold prefix.
    rewrite updated_position_eq.
    destruct (has_char newline prefix) eqn:Hc; [done|].
    rewrite last_line_no_break by done. unfold line_breaks.
    apply count_has_char in Hc. by rewrite Hc.
  - unfold get_index_from_line_col.
    rewrite <- (take_drop_str (Z.to_nat index) text) at 2. fold prefix.
    rewrite index_loop_prefix. simpl. f_equal.
    unfold prefix. rewrite take_length by lia. lia.
Qed.

Lemma X17_index_round_trip_witness :
  ∃ l c,
    get_line_col_from_index ("ab" ++ nl ++ "cde" ++ nl ++ "f") 5 = inr (l, c) ∧
    get_index_from_line_col ("ab" ++ nl ++ "cde" ++ nl ++ "f") l c = inr 5.
Proof.
  apply (X17_index_round_trip ("ab" ++ nl ++ "cde" ++ nl ++ "f") 5).
  vm_compute. split; discriminate.
Defined.

Lemma index_loop_returns (text rest : string) (line idx : Z) :
  match index_loop text rest line idx with
  | inr i => line ≤ line_breaks rest ∨ line ≤ 0
  | inl e => line_breaks rest < line ∧ 0 < line ∧
             e = AssertionError (assert_message (idx + Z.of_nat (String.length rest)) text)
  end.
Proof.
  revert line idx. unfold line_breaks.
  induction rest as [|a rest IH]; intros line idx; cbn [index_loop count String.length].
  - destruct (Z.ltb_spec 0 line); simpl; [|lia].
    split; [lia|]. split; [lia|]. by rewrite Z.add_0_r.
  - destruct (Z.ltb_spec 0 line) as [Hpos|?]; [|simpl; lia].
    specialize (IH (if Ascii.eqb a newline then line - 1 else line) (idx + 1)).
    destruct (index_loop text rest _ (idx + 1)) as [e|i].
    + destruct IH as (H1 & H2 & ->). split; [|split; [lia|]].
      * destruct (Ascii.eqb a newline); lia.
      * do 2 f_equal. lia.
    + destruct (Ascii.eqb a newline); lia.
Qed.

(** X18. [get_index_from_line_col] returns an index iff the line is
    not positive or the text has at least that many line breaks; the
    assertion fails otherwise, at the end of the text.  The column is
    added as it is: for a line that is not positive the result is the
    column itself. *)
Theorem X18_index_from_line_col (text : string) (line col : Z) :
  match get_index_from_line_col text line col with
  | inr i => (line ≤ line_breaks text ∨ line ≤ 0) ∧ (line ≤ 0 → i = col)
  | inl e => line_breaks text < line ∧ 0 < line ∧
             e = AssertionError (assert_message (Z.of_nat (String.length text)) text)
  end.
Proof.
  unfold get_index_from_line_col.
  pose proof (index_loop_returns text text line 0) as H.
  destruct (index_loop text text line 0) as [e|i] eqn:Hloop; simpl; [done|].
  split; [done|]. intros Hline.
  destruct text; simpl in Hloop; destruct (Z.ltb_spec 0 line); try lia;
    injection Hloop as <-; lia.
Qed.

Lemma X18_index_from_line_col_witness :
  line_breaks ("ab" ++ nl ++ "cd") < 2 ∧ 0 < 2 ∧
  AssertionError (assert_message 5 ("ab" ++ nl ++ "cd"))
  = AssertionError (assert_message (Z.of_nat (String.length ("ab" ++ nl ++ "cd")))
                      ("ab" ++ nl ++ "cd")).
Proof. exact (X18_index_from_line_col ("ab" ++ nl ++ "cd") 2 0). Defined.

(** * The platform identifier *)

Section PlatformFacts.
Import PlatformUtils.






End PlatformFacts.

(** * Important files *)

Lemma take_app_length (a b : string) : PyStr.take (String.length a) (a ++ b) = a.
Proof.
  induction a as [|x a IH]; [by destruct b|]. rewrite str_app_cons. simpl. by rewrite IH.
Qed.

(** X20. Every path made of [.github/workflows/], a name without
    slash and the ending [.yml] is important, whatever the name. *)
Theorem X20_workflow_files_are_important (name : string) :
  has_char "/" name = false →
  important_files.is_important (".github/workflows/" ++ name ++ ".yml") = true.
Proof.
  intros Hname.
  set (rest := name ++ ".yml").
  assert (Hrest : has_char "/" rest = false).
  { unfold rest. by rewrite has_char_app, Hname. }
  assert (Hp : ".github/workflows/" ++ rest = ".github/workflows" ++ String "/" rest).
  { change (".github/workflows/" ++ rest) with ((".github/workflows" ++ "/") ++ rest).
    by rewrite str_app_assoc. }
  assert (Hbase : posixpath.basename (".github/workflows/" ++ rest) = rest).
  { unfold posixpath.basename, posixpath.sep. rewrite Hp, split_app.
    rewrite (split_no_sep "/" rest) by done. reflexivity. }
  assert (Hdir : important_files.dirname (".github/workflows/" ++ rest)
                 = ".github/workflows").
  { assert (Hr : PyStr.rfind (".github/workflows/" ++ rest) "/" = 17).
    { rewrite Hp. by rewrite rfind_last. }
    unfold important_files.dirname, posixpath.sep. cbv zeta. rewrite Hr.
    unfold PyStr.slice_to.
    change (Z.to_nat (17 + 1)) with (String.length ".github/workflows/").
    rewrite take_app_length. reflexivity. }
  unfold important_files.is_important. rewrite Hbase, Hdir.
  assert (Hend : PyStr.endswith rest ".yml" = true).
  { apply endswith_spec. by exists name. }
  rewrite Hend. reflexivity.
Qed.

Lemma X20_workflow_files_are_important_witness :
  important_files.is_important (".github/workflows/" ++ "release" ++ ".yml") = true.
Proof. apply X20_workflow_files_are_important. reflexivity. Defined.
